(** * Course assistant bot: session state machine, moderation gate and
      content index

    A shallow embedding of the Python sources

      - [src/utils/validators.py]            (module [Validators])
      - [src/services/content_moderator.py]  (module [Moderator])
      - [src/services/llm_service.py]        (module [LLMService])
      - [src/models/state.py], [src/utils/state.py] (module [Session])
      - [src/database.py]                    (module [Database])
      - [src/main.py]                        (module [Bot])
      - [src/semantic_search.py]             (modules [Float], [SemanticSearch])

    followed by the properties proved about them.

    Conventions.  A Python [str] is a Rocq [string]; text outside ASCII
    appears UTF-8 encoded, and the string builtins of module [Py] act on
    ASCII (plus the Latin-1 letters for [lower]/[upper]).  [None] is the
    [None] of [option].  Calls to the language model, to the embedding
    model and to FAISS are calls to oracles gathered in records; a call
    that raises is an oracle answering [None]. *)

From stdpp Require Import base option list gmap strings pretty.
From Stdlib Require Import Ascii ZArith QArith Qround Qpower Qabs Lia Lqa Sorted.
From Stdlib Require Import Floats.SpecFloat.

Local Open Scope Z_scope.

(* ===================================================================== *)
(** * Python string builtins                                              *)
(* ===================================================================== *)

Module Py.

Definition ord (c : ascii) : Z := Z.of_N (N_of_ascii c).
Definition chr (n : Z) : ascii := ascii_of_N (Z.to_N n).

(** [c.isspace()] on the ASCII range: TAB..CR, FS..US and SPACE. *)
Definition isspace (c : ascii) : bool :=
  ((9 <=? ord c) && (ord c <=? 13)) || ((28 <=? ord c) && (ord c <=? 32)).

Fixpoint lstrip (s : string) : string :=
  match s with
  | EmptyString => EmptyString
  | String c r => if isspace c then lstrip r else s
  end.

Fixpoint rstrip (s : string) : string :=
  match s with
  | EmptyString => EmptyString
  | String c r =>
      match rstrip r with
      | EmptyString => if isspace c then EmptyString else String c EmptyString
      | r' => String c r'
      end
  end.

(** [s.strip()] *)
Definition strip (s : string) : string := rstrip (lstrip s).

(** Truth value of a string, of an optional string ([None] is false)
    and of an optional flag. *)
Definition truthy (s : string) : bool := negb (String.eqb s "").

Definition truthy_opt (o : option string) : bool :=
  match o with Some s => truthy s | None => false end.

Definition truthy_flag (o : option bool) : bool :=
  match o with Some b => b | None => false end.

(** [s.lower()]: ASCII letters, and the Latin-1 capitals U+00C0..U+00DE
    (except the multiplication sign U+00D7), which UTF-8 writes as the
    byte 0xC3 followed by 0x80..0x9E. *)
Definition lower_ascii (c : ascii) : ascii :=
  if (65 <=? ord c) && (ord c <=? 90) then chr (ord c + 32) else c.

Definition lower_latin1 (d : ascii) : ascii :=
  if (128 <=? ord d) && (ord d <=? 158) && negb (ord d =? 151)
  then chr (ord d + 32) else d.

Fixpoint lower (s : string) : string :=
  match s with
  | EmptyString => EmptyString
  | String c r =>
      if ord c =? 195 then
        match r with
        | String d r' => String c (String (lower_latin1 d) (lower r'))
        | EmptyString => String c EmptyString
        end
      else String (lower_ascii c) (lower r)
  end.

(** [s.upper()]: ASCII letters and the Latin-1 small letters
    U+00E0..U+00FE (except the division sign U+00F7); sharp s becomes
    [SS], y with diaeresis U+0178 and the micro sign U+039C. *)
Definition upper_ascii (c : ascii) : ascii :=
  if (97 <=? ord c) && (ord c <=? 122) then chr (ord c - 32) else c.

Fixpoint upper (s : string) : string :=
  match s with
  | EmptyString => EmptyString
  | String c r =>
      if ord c =? 195 then
        match r with
        | String d r' =>
            if ord d =? 159 then String "S" (String "S" (upper r'))
            else if ord d =? 191 then String (chr 197) (String (chr 184) (upper r'))
            else if (160 <=? ord d) && (ord d <=? 190) && negb (ord d =? 183)
                 then String c (String (chr (ord d - 32)) (upper r'))
                 else String c (String d (upper r'))
        | EmptyString => String c EmptyString
        end
      else if ord c =? 194 then
        match r with
        | String d r' =>
            if ord d =? 181 then String (chr 206) (String (chr 156) (upper r'))
            else String c (String d (upper r'))
        | EmptyString => String c EmptyString
        end
      else String (upper_ascii c) (upper r)
  end.

(** [s.startswith(p)] *)
Definition startswith (s p : string) : bool := String.prefix p s.

(** [s.split(sep, 1)] for a one-character separator: one piece when
    [sep] does not occur, otherwise the text before the first
    occurrence and the text after it. *)
Fixpoint split1 (sep : ascii) (s : string) : list string :=
  match s with
  | EmptyString => [EmptyString]
  | String c r =>
      if Ascii.eqb c sep then [EmptyString; r]
      else match split1 sep r with
           | [a] => [String c a]
           | a :: rest => String c a :: rest
           | [] => []
           end
  end.

(** [sep.join(l)] *)
Definition join (sep : string) (l : list string) : string := String.concat sep l.

(** [needle in hay] *)
Fixpoint contains (hay needle : string) : bool :=
  String.prefix needle hay ||
  match hay with
  | EmptyString => false
  | String _ r => contains r needle
  end.

(** [x in l] for a list of strings *)
Definition in_list (x : string) (l : list string) : bool :=
  existsb (String.eqb x) l.

(** [int(s)], base 10: surrounding whitespace is dropped, one sign is
    allowed, and the digits may be grouped by single underscores.
    [None] stands for [ValueError]. *)
Definition digit (c : ascii) : option Z :=
  if (48 <=? ord c) && (ord c <=? 57) then Some (ord c - 48) else None.

Fixpoint digits (acc : Z) (after_digit : bool) (s : string) : option Z :=
  match s with
  | EmptyString => if after_digit then Some acc else None
  | String c r =>
      match digit c with
      | Some d => digits (10 * acc + d) true r
      | None => if Ascii.eqb c "_" && after_digit then digits acc false r else None
      end
  end.

Definition int (s : string) : option Z :=
  match strip s with
  | EmptyString => None
  | String c r =>
      if Ascii.eqb c "+" then digits 0 false r
      else if Ascii.eqb c "-" then Z.opp <$> digits 0 false r
      else digits 0 false (String c r)
  end.

End Py.

(* ===================================================================== *)
(** * src/utils/validators.py                                             *)
(* ===================================================================== *)

Module Validators.

(** [validate_ciclo]: the cycle has the format YYYY1 or YYYY2. *)
Definition validate_ciclo (ciclo : string) : bool :=
  if negb (Py.truthy ciclo) || negb (Nat.eqb (String.length ciclo) 5) then false
  else
    match Py.int (String.substring 0 4 ciclo) with
    | None => false
    | Some year =>
        match Py.int (String.substring 4 1 ciclo) with
        | None => false
        | Some semester =>
            (2000 <=? year) && (year <=? 2100) &&
            ((semester =? 1) || (semester =? 2))
        end
    end.

(** [validate_modulo] *)
Definition validate_modulo (modulo : string) : bool :=
  Py.in_list (Py.upper modulo) ["A"; "B"].


(** [fields.get(key)] on a dictionary kept as the list of its items;
    a key that is missing gives [None], as a key that holds [None]. *)
Fixpoint get (fields : list (string * option string)) (key : string) : option string :=
  match fields with
  | [] => None
  | (k, v) :: rest => if String.eqb k key then v else get rest key
  end.

(** [validate_update_fields]: every field of an update is present. *)
Definition validate_update_fields (fields : list (string * option string)) : bool * string :=
  let required_fields :=
    [ ("curso", get fields "update_course");
      ("sección", get fields "section");
      ("ciclo", get fields "update_ciclo");
      ("módulo", get fields "update_modulo");
      ("contenido", get fields "update_content");
      ("categoría", get fields "update_category") ] in
  match (filter (λ fv, Py.truthy_opt fv.2 = false) required_fields).*1 with
  | [] => (true, "")
  | missing_fields => (false, "Missing required fields: " +:+ Py.join ", " missing_fields)
  end.

End Validators.

(* ===================================================================== *)
(** * src/i18n/messages.py (repeated in src/main.py)                      *)
(* ===================================================================== *)

Module Messages.

Definition messages_es : list (string * string) :=
  [ ("welcome", "¡Bienvenido al asistente de cursos! 👋

");
    ("disclaimer", "

⚠️ Este es un asistente de IA entrenado con datos del curso. Por favor, verifica la información con tus profesores.
Para cualquier consulta, contacta al profesor Carlos Adrian Alarcon: pciscala@upc.edu.pe");
    ("course_selection", "Por favor, selecciona un curso de la lista:

(Escribe 'menu' para volver al menú principal)");
    ("ciclo_selection", "Por favor, ingresa el ciclo en formato YYYY1 o YYYY2 (ejemplo: 20241 para el primer semestre de 2024):

(Escribe 'menu' para volver al menú principal)");
    ("modulo_selection", "Por favor, selecciona el módulo (A o B):

(Escribe 'menu' para volver al menú principal)");
    ("section_selection", "Por favor, ingresa la sección del curso (ejemplo: G1, G2, etc.):

(Escribe 'menu' para volver al menú principal)");
    ("ready_for_query", "¡Perfecto! Ahora puedes hacer preguntas sobre el curso.

(Escribe 'menu' para volver al menú principal)");
    ("invalid_course", "Por favor, selecciona un curso válido de la lista.

(Escribe 'menu' para volver al menú principal)");
    ("invalid_ciclo", "Por favor, ingresa un ciclo válido en formato YYYY1 o YYYY2 (ejemplo: 20241).

(Escribe 'menu' para volver al menú principal)");
    ("invalid_modulo", "Por favor, selecciona un módulo válido (A o B).

(Escribe 'menu' para volver al menú principal)");
    ("invalid_section", "La sección no puede estar vacía. Por favor, ingresa una sección válida.

(Escribe 'menu' para volver al menú principal)");
    ("error_processing", "Lo siento, hubo un error al procesar tu mensaje. Por favor, intenta de nuevo.

(Escribe 'menu' para volver al menú principal)");
    ("update_usage", "Uso: /update curso;sección;ciclo;módulo;categoría;actualización

(Escribe 'menu' para volver al menú principal)");
    ("update_fields", "Por favor, proporciona todos los campos requeridos.

(Escribe 'menu' para volver al menú principal)");
    ("update_success", "✅ Actualización guardada correctamente.

(Escribe 'menu' para volver al menú principal)");
    ("update_empty", "❌ La actualización no puede estar vacía.

(Escribe 'menu' para volver al menú principal)");
    ("update_error", "❌ Error al guardar la actualización: {}

(Escribe 'menu' para volver al menú principal)");
    ("course_changed", "✅ Curso cambiado correctamente.

(Escribe 'menu' para volver al menú principal)");
    ("please_start", "Por favor, usa el comando /start para comenzar.");
    ("complete_info", "Por favor, completa la información del curso usando el comando /start.");
    ("return_to_menu", "🔄 Volviendo al menú principal...");
    ("no_course_info", "No encontré información para el curso '{}' en el ciclo {} y módulo {}.

(Escribe 'menu' para volver al menú principal)");
    ("course_info", "Información del curso:
            Nombre: {}
            Sección: {}
            Ciclo: {}
            Módulo: {}
            Categorías: {}
            Última actualización: {}
            Actualizaciones disponibles: {}
            
            Actualizaciones:
            {}");
    ("course_selected", "✅ Curso seleccionado: {}");
    ("update_welcome", "👋 ¡Hola profesor! Bienvenido al sistema de actualización de cursos.");
    ("enter_update_content", "Por favor, ingresa el contenido de la actualización o envía el documento que deseas subir.");
    ("content_received", "📝 Contenido recibido");
    ("suggested_category", "Categoría sugerida: {}");
    ("confirm_category", "¿Deseas confirmar esta categoría? (sí/no)");
    ("enter_category", "Por favor, ingresa la categoría deseada (EVALUACIÓN, CLASE, TAREA, SÍLABO, CRONOGRAMA, GENERAL):");
    ("invalid_category", "❌ Categoría no válida. Por favor, selecciona una de las opciones disponibles.");
    ("update_summary", "✅ ¡Actualización guardada exitosamente!

Resumen:
- Curso: {}
- Sección: {}
- Categoría: {}
- Ciclo: {}
- Módulo: {}
- Contenido: {}")
  ].

Definition messages_qu : list (string * string) :=
  [ ("welcome", "¡Allin hamunayki yachay yanapaqman! 👋

");
    ("disclaimer", "

⚠️ Kayqa yachay wasimanta yachachisqa IA yanapakuqmi. Ama hina kaspa, yachachiqkunawan willakuyta chiqaqchay.
Ima tapukuypaqpas, yachachiq Carlos Adrian Alarconwan rimanakuy: pciscala@upc.edu.pe");
    ("course_selection", "Ama hina kaspa, huk yachayta akllay kay listamanta:

(Qillqay 'menu' qallariy patamanman kutirinaykipaq)");
    ("ciclo_selection", "Ama hina kaspa, YYYY1 utaq YYYY2 formatupi cicloykita qillqay (ejemplopaq: 20241 ñawpaq semestrepaq 2024 watapi):

(Qillqay 'menu' qallariy patamanman kutirinaykipaq)");
    ("modulo_selection", "Ama hina kaspa, akllay huk modulota (A utaq B):

(Qillqay 'menu' qallariy patamanman kutirinaykipaq)");
    ("section_selection", "Ama hina kaspa, seccionniykita qillqay (ejemplopaq: G1, G2, hukniraq):

(Qillqay 'menu' qallariy patamanman kutirinaykipaq)");
    ("ready_for_query", "¡Allinmi! Kunanqa yachaymanta tapukuyta atinki.

(Qillqay 'menu' qallariy patamanman kutirinaykipaq)");
    ("invalid_course", "Ama hina kaspa, listamanta allin yachayta akllay.

(Qillqay 'menu' qallariy patamanman kutirinaykipaq)");
    ("invalid_ciclo", "Ama hina kaspa, allin YYYY1 utaq YYYY2 formatupi cicloykita qillqay (ejemplopaq: 20241).

(Qillqay 'menu' qallariy patamanman kutirinaykipaq)");
    ("invalid_modulo", "Ama hina kaspa, allin modulota akllay (A utaq B).

(Qillqay 'menu' qallariy patamanman kutirinaykipaq)");
    ("invalid_section", "Seccionniyki mana ch'usaqchu kanan. Ama hina kaspa, allin seccionniykita qillqay.

(Qillqay 'menu' qallariy patamanman kutirinaykipaq)");
    ("error_processing", "Pampachaway, willakuyniykita procesaypi pantay karqan. Ama hina kaspa, huktawan ruwapay.

(Qillqay 'menu' qallariy patamanman kutirinaykipaq)");
    ("update_usage", "Llamk'apay: /update yachay;seccion;ciclo;modulo;categoria;musuqyachiy

(Qillqay 'menu' qallariy patamanman kutirinaykipaq)");
    ("update_fields", "Ama hina kaspa, tukuy necesario kamachikkunata quy.

(Qillqay 'menu' qallariy patamanman kutirinaykipaq)");
    ("update_success", "✅ Musuqyachiy allinta waqaychasqa.

(Qillqay 'menu' qallariy patamanman kutirinaykipaq)");
    ("update_empty", "❌ Musuqyachiy mana ch'usaqchu kanan atin.

(Qillqay 'menu' qallariy patamanman kutirinaykipaq)");
    ("update_error", "❌ Musuqyachiy waqaychaypi pantay: {}

(Qillqay 'menu' qallariy patamanman kutirinaykipaq)");
    ("course_changed", "✅ Yachay allinta tikrasqa.

(Qillqay 'menu' qallariy patamanman kutirinaykipaq)");
    ("please_start", "Ama hina kaspa, /start kamachita llamk'achiy qallarinaykipaq.");
    ("complete_info", "Ama hina kaspa, /start kamachita llamk'achispa yachaymanta willakuyta hunt'achiy.");
    ("return_to_menu", "🔄 Qallariy patamanman kutispa...");
    ("no_course_info", "Mana tarinichu willakuyta kay yachaypaq '{}' kay ciclo {} kay modulo {}pi.

(Qillqay 'menu' qallariy patamanman kutirinaykipaq)");
    ("course_info", "Yachaymanta willakuy:
            Suti: {}
            Seccion: {}
            Ciclo: {}
            Modulo: {}
            Categorias: {}
            Qhipa musuqyachiy: {}
            Musuqyachiykuna tarisqa: {}
            
            Musuqyachiykuna:
            {}");
    ("course_selected", "✅ Yachay akllasqa: {}");
    ("update_welcome", "👋 Allin hamunayki yachachiq! Yachaykuna musuqyachiy sistemaman.");
    ("enter_update_content", "Ama hina kaspa, musuqyachiy willakuyta qillqay utaq documentota apachimuy.");
    ("content_received", "📝 Willakuy chaskisqa");
    ("suggested_category", "Categoria ñisqa: {}");
    ("confirm_category", "¿Kay categoriataq allinchu? (arí/mana)");
    ("enter_category", "Ama hina kaspa, munasqayki categoriataq qillqay (EVALUACIÓN, CLASE, TAREA, SÍLABO, CRONOGRAMA, GENERAL):");
    ("invalid_category", "❌ Mana allin categoria. Ama hina kaspa, huk akllasqa opcionmanta akllay.");
    ("update_summary", "✅ ¡Musuqyachiy allinta waqaychasqa!

Tukuy willakuy:
- Yachay: {}
- Seccion: {}
- Categoria: {}
- Ciclo: {}
- Modulo: {}
- Willakuy: {}")
  ].

(** [get_translated_messages]: [messages.get(language, messages["es"])] *)
Definition get_translated_messages (language : option string) : list (string * string) :=
  match language with
  | Some "qu" => messages_qu
  | _ => messages_es
  end.

(** [messages[key]] for a key of the table *)
Fixpoint getitem (messages : list (string * string)) (key : string) : string :=
  match messages with
  | [] => ""
  | (k, v) :: rest => if String.eqb k key then v else getitem rest key
  end.

(** [template.format(...)] for templates whose only fields are [{}]:
    the fields take the arguments in order, and an argument is not
    scanned again.  Every call of the source passes as many arguments
    as the template has fields. *)
Fixpoint format (template : string) (args : list string) : string :=
  match template with
  | String "{" (String "}" rest as tail) =>
      match args with
      | a :: args' => a +:+ format rest args'
      | [] => String "{" (format tail [])
      end
  | String c rest => String c (format rest args)
  | EmptyString => EmptyString
  end.

(** [str(x)] of an optional string, as an f-string or [format] prints it *)
Definition str (o : option string) : string :=
  match o with Some s => s | None => "None" end.

Definition nl : string := String (Py.chr 10) EmptyString.

(** The text listing the courses, in Spanish and in Quechua. *)
Definition courses_text_es (available_courses : list string) : string :=
  match available_courses with
  | [] => nl +:+ "No hay cursos disponibles en la base de datos."
  | _ => nl +:+ "Cursos disponibles:" +:+ nl +:+ "- " +:+ Py.join (nl +:+ "- ") available_courses
  end.

Definition courses_text_qu (available_courses : list string) : string :=
  match available_courses with
  | [] => nl +:+ "Mana yachaykuna kanchu base de datospi."
  | _ => nl +:+ "Kay yachaykuna kan:" +:+ nl +:+ "- " +:+ Py.join (nl +:+ "- ") available_courses
  end.

End Messages.

(* ===================================================================== *)
(** * src/models/state.py and src/utils/state.py                          *)
(* ===================================================================== *)

Module Session.

(** An entry of the message history, [{"role": ..., "content": ...}]. *)
Record Message := mkMessage { role : string; content : string }.

(** The [State] dictionary.  The flags that [reset_state] overwrites
    with [None] hold an optional boolean. *)
Record State := mkState {
  messages : list Message;
  course : option string;
  section : option string;
  ciclo : option string;
  modulo : option string;
  waiting_for_course : bool;
  waiting_for_ciclo : option bool;
  waiting_for_modulo : option bool;
  waiting_for_section : option bool;
  pending_course_confirmation : option string;
  language : option string;
  waiting_for_language : bool;
  updating_course : option bool;
  update_step : option string;
  update_course : option string;
  update_content : option string;
  update_category : option string;
  update_ciclo : option string;
  update_modulo : option string;
  update_file_path : option string;
  temp_file_path : option string;
  can_return_to_menu : bool
}.

(** [state[key] = v], one function per key that the handlers assign. *)
Definition set_messages (v : list Message) (s : State) : State :=
  mkState v (course s) (section s) (ciclo s) (modulo s)
    (waiting_for_course s) (waiting_for_ciclo s) (waiting_for_modulo s)
    (waiting_for_section s) (pending_course_confirmation s) (language s)
    (waiting_for_language s) (updating_course s) (update_step s)
    (update_course s) (update_content s) (update_category s)
    (update_ciclo s) (update_modulo s) (update_file_path s)
    (temp_file_path s) (can_return_to_menu s).

Definition set_course (v : option string) (s : State) : State :=
  mkState (messages s) v (section s) (ciclo s) (modulo s)
    (waiting_for_course s) (waiting_for_ciclo s) (waiting_for_modulo s)
    (waiting_for_section s) (pending_course_confirmation s) (language s)
    (waiting_for_language s) (updating_course s) (update_step s)
    (update_course s) (update_content s) (update_category s)
    (update_ciclo s) (update_modulo s) (update_file_path s)
    (temp_file_path s) (can_return_to_menu s).

Definition set_section (v : option string) (s : State) : State :=
  mkState (messages s) (course s) v (ciclo s) (modulo s)
    (waiting_for_course s) (waiting_for_ciclo s) (waiting_for_modulo s)
    (waiting_for_section s) (pending_course_confirmation s) (language s)
    (waiting_for_language s) (updating_course s) (update_step s)
    (update_course s) (update_content s) (update_category s)
    (update_ciclo s) (update_modulo s) (update_file_path s)
    (temp_file_path s) (can_return_to_menu s).

Definition set_ciclo (v : option string) (s : State) : State :=
  mkState (messages s) (course s) (section s) v (modulo s)
    (waiting_for_course s) (waiting_for_ciclo s) (waiting_for_modulo s)
    (waiting_for_section s) (pending_course_confirmation s) (language s)
    (waiting_for_language s) (updating_course s) (update_step s)
    (update_course s) (update_content s) (update_category s)
    (update_ciclo s) (update_modulo s) (update_file_path s)
    (temp_file_path s) (can_return_to_menu s).

Definition set_modulo (v : option string) (s : State) : State :=
  mkState (messages s) (course s) (section s) (ciclo s) v
    (waiting_for_course s) (waiting_for_ciclo s) (waiting_for_modulo s)
    (waiting_for_section s) (pending_course_confirmation s) (language s)
    (waiting_for_language s) (updating_course s) (update_step s)
    (update_course s) (update_content s) (update_category s)
    (update_ciclo s) (update_modulo s) (update_file_path s)
    (temp_file_path s) (can_return_to_menu s).

Definition set_waiting_for_course (v : bool) (s : State) : State :=
  mkState (messages s) (course s) (section s) (ciclo s) (modulo s) v
    (waiting_for_ciclo s) (waiting_for_modulo s) (waiting_for_section s)
    (pending_course_confirmation s) (language s) (waiting_for_language s)
    (updating_course s) (update_step s) (update_course s) (update_content s)
    (update_category s) (update_ciclo s) (update_modulo s)
    (update_file_path s) (temp_file_path s) (can_return_to_menu s).

Definition set_waiting_for_ciclo (v : option bool) (s : State) : State :=
  mkState (messages s) (course s) (section s) (ciclo s) (modulo s)
    (waiting_for_course s) v (waiting_for_modulo s) (waiting_for_section s)
    (pending_course_confirmation s) (language s) (waiting_for_language s)
    (updating_course s) (update_step s) (update_course s) (update_content s)
    (update_category s) (update_ciclo s) (update_modulo s)
    (update_file_path s) (temp_file_path s) (can_return_to_menu s).

Definition set_waiting_for_modulo (v : option bool) (s : State) : State :=
  mkState (messages s) (course s) (section s) (ciclo s) (modulo s)
    (waiting_for_course s) (waiting_for_ciclo s) v (waiting_for_section s)
    (pending_course_confirmation s) (language s) (waiting_for_language s)
    (updating_course s) (update_step s) (update_course s) (update_content s)
    (update_category s) (update_ciclo s) (update_modulo s)
    (update_file_path s) (temp_file_path s) (can_return_to_menu s).

Definition set_waiting_for_section (v : option bool) (s : State) : State :=
  mkState (messages s) (course s) (section s) (ciclo s) (modulo s)
    (waiting_for_course s) (waiting_for_ciclo s) (waiting_for_modulo s) v
    (pending_course_confirmation s) (language s) (waiting_for_language s)
    (updating_course s) (update_step s) (update_course s) (update_content s)
    (update_category s) (update_ciclo s) (update_modulo s)
    (update_file_path s) (temp_file_path s) (can_return_to_menu s).

Definition set_language (v : option string) (s : State) : State :=
  mkState (messages s) (course s) (section s) (ciclo s) (modulo s)
    (waiting_for_course s) (waiting_for_ciclo s) (waiting_for_modulo s)
    (waiting_for_section s) (pending_course_confirmation s) v
    (waiting_for_language s) (updating_course s) (update_step s)
    (update_course s) (update_content s) (update_category s)
    (update_ciclo s) (update_modulo s) (update_file_path s)
    (temp_file_path s) (can_return_to_menu s).

Definition set_waiting_for_language (v : bool) (s : State) : State :=
  mkState (messages s) (course s) (section s) (ciclo s) (modulo s)
    (waiting_for_course s) (waiting_for_ciclo s) (waiting_for_modulo s)
    (waiting_for_section s) (pending_course_confirmation s) (language s) v
    (updating_course s) (update_step s) (update_course s) (update_content s)
    (update_category s) (update_ciclo s) (update_modulo s)
    (update_file_path s) (temp_file_path s) (can_return_to_menu s).

Definition set_updating_course (v : option bool) (s : State) : State :=
  mkState (messages s) (course s) (section s) (ciclo s) (modulo s)
    (waiting_for_course s) (waiting_for_ciclo s) (waiting_for_modulo s)
    (waiting_for_section s) (pending_course_confirmation s) (language s)
    (waiting_for_language s) v (update_step s) (update_course s)
    (update_content s) (update_category s) (update_ciclo s)
    (update_modulo s) (update_file_path s) (temp_file_path s)
    (can_return_to_menu s).

Definition set_update_step (v : option string) (s : State) : State :=
  mkState (messages s) (course s) (section s) (ciclo s) (modulo s)
    (waiting_for_course s) (waiting_for_ciclo s) (waiting_for_modulo s)
    (waiting_for_section s) (pending_course_confirmation s) (language s)
    (waiting_for_language s) (updating_course s) v (update_course s)
    (update_content s) (update_category s) (update_ciclo s)
    (update_modulo s) (update_file_path s) (temp_file_path s)
    (can_return_to_menu s).

Definition set_update_course (v : option string) (s : State) : State :=
  mkState (messages s) (course s) (section s) (ciclo s) (modulo s)
    (waiting_for_course s) (waiting_for_ciclo s) (waiting_for_modulo s)
    (waiting_for_section s) (pending_course_confirmation s) (language s)
    (waiting_for_language s) (updating_course s) (update_step s) v
    (update_content s) (update_category s) (update_ciclo s)
    (update_modulo s) (update_file_path s) (temp_file_path s)
    (can_return_to_menu s).

Definition set_update_content (v : option string) (s : State) : State :=
  mkState (messages s) (course s) (section s) (ciclo s) (modulo s)
    (waiting_for_course s) (waiting_for_ciclo s) (waiting_for_modulo s)
    (waiting_for_section s) (pending_course_confirmation s) (language s)
    (waiting_for_language s) (updating_course s) (update_step s)
    (update_course s) v (update_category s) (update_ciclo s)
    (update_modulo s) (update_file_path s) (temp_file_path s)
    (can_return_to_menu s).

Definition set_update_category (v : option string) (s : State) : State :=
  mkState (messages s) (course s) (section s) (ciclo s) (modulo s)
    (waiting_for_course s) (waiting_for_ciclo s) (waiting_for_modulo s)
    (waiting_for_section s) (pending_course_confirmation s) (language s)
    (waiting_for_language s) (updating_course s) (update_step s)
    (update_course s) (update_content s) v (update_ciclo s)
    (update_modulo s) (update_file_path s) (temp_file_path s)
    (can_return_to_menu s).

Definition set_update_ciclo (v : option string) (s : State) : State :=
  mkState (messages s) (course s) (section s) (ciclo s) (modulo s)
    (waiting_for_course s) (waiting_for_ciclo s) (waiting_for_modulo s)
    (waiting_for_section s) (pending_course_confirmation s) (language s)
    (waiting_for_language s) (updating_course s) (update_step s)
    (update_course s) (update_content s) (update_category s) v
    (update_modulo s) (update_file_path s) (temp_file_path s)
    (can_return_to_menu s).

Definition set_update_modulo (v : option string) (s : State) : State :=
  mkState (messages s) (course s) (section s) (ciclo s) (modulo s)
    (waiting_for_course s) (waiting_for_ciclo s) (waiting_for_modulo s)
    (waiting_for_section s) (pending_course_confirmation s) (language s)
    (waiting_for_language s) (updating_course s) (update_step s)
    (update_course s) (update_content s) (update_category s)
    (update_ciclo s) v (update_file_path s) (temp_file_path s)
    (can_return_to_menu s).

Definition set_can_return_to_menu (v : bool) (s : State) : State :=
  mkState (messages s) (course s) (section s) (ciclo s) (modulo s)
    (waiting_for_course s) (waiting_for_ciclo s) (waiting_for_modulo s)
    (waiting_for_section s) (pending_course_confirmation s) (language s)
    (waiting_for_language s) (updating_course s) (update_step s)
    (update_course s) (update_content s) (update_category s)
    (update_ciclo s) (update_modulo s) (update_file_path s)
    (temp_file_path s) v.

(** [create_initial_state] *)
Definition create_initial_state : State :=
  {| messages := [];
     course := None;
     section := None;
     ciclo := None;
     modulo := None;
     waiting_for_course := false;
     waiting_for_ciclo := Some false;
     waiting_for_modulo := Some false;
     waiting_for_section := Some false;
     pending_course_confirmation := None;
     language := None;
     waiting_for_language := true;
     updating_course := Some false;
     update_step := None;
     update_course := None;
     update_content := None;
     update_category := None;
     update_ciclo := None;
     update_modulo := None;
     update_file_path := None;
     temp_file_path := None;
     can_return_to_menu := true |}.

(** [l[-n:]], the last [n] entries of a list *)
Definition last_n {A} (n : nat) (l : list A) : list A := drop (length l - n) l.

(** [StateManager.get_user_state]: the state of the user is created when
    it is missing, and its history is cut to the last 50 entries.  The
    result is the dictionary kept in [user_states]. *)
Definition get_user_state (user_states : gmap string State) (user_id : string)
  : gmap string State * State :=
  let user_states :=
    match user_states !! user_id with
    | None => <[user_id := create_initial_state]> user_states
    | Some _ => user_states
    end in
  let state := default create_initial_state (user_states !! user_id) in
  let state :=
    if (50 <? length (messages state))%nat
    then set_messages (last_n 50 (messages state)) state
    else state in
  (<[user_id := state]> user_states, state).

(** [StateManager.reset_state].  The loop over [keys_to_reset] stores
    [None] under every key of the list except ["waiting_for_course"],
    which gets [False]; the two assignments after the loop then set
    ["waiting_for_course"] and ["can_return_to_menu"] to [True].  The
    keys ["messages"], ["language"] and ["waiting_for_language"] are
    not in the list. *)
Definition reset_state (state : State) : State :=
  {| messages := messages state;
     course := None;
     section := None;
     ciclo := None;
     modulo := None;
     waiting_for_course := true;
     waiting_for_ciclo := None;
     waiting_for_modulo := None;
     waiting_for_section := None;
     pending_course_confirmation := None;
     language := language state;
     waiting_for_language := waiting_for_language state;
     updating_course := None;
     update_step := None;
     update_course := None;
     update_content := None;
     update_category := None;
     update_ciclo := None;
     update_modulo := None;
     update_file_path := None;
     temp_file_path := None;
     can_return_to_menu := true |}.

(** [StateManager.clear_user_state] *)
Definition clear_user_state (user_states : gmap string State) (user_id : string)
  : gmap string State :=
  delete user_id user_states.

End Session.

(* ===================================================================== *)
(** * src/database.py                                                     *)
(* ===================================================================== *)

Module Database.

(** Rows of the tables [courses], [updates] and [documents]; a column
    that may hold NULL is optional. *)
Record CourseRow := mkCourseRow {
  course_id : Z;
  course_name : string;
  course_section : option string
}.

Record UpdateRow := mkUpdateRow {
  update_course_id : Z;
  update_content : string;
  update_category : string;
  update_ciclo : option string;
  update_modulo : option string;
  update_section : option string;
  update_created_at : string
}.

Record DocumentRow := mkDocumentRow {
  document_course_id : Z;
  document_title : string;
  document_file_path : string;
  document_category : string;
  document_ciclo : option string;
  document_modulo : option string;
  document_section : option string;
  document_uploaded_at : string
}.

Record Db := mkDb {
  courses : list CourseRow;
  updates : list UpdateRow;
  documents : list DocumentRow
}.

(** The dictionaries built from the rows. *)
Record Update := mkUpdate {
  content : string;
  category : string;
  ciclo : option string;
  modulo : option string;
  section : option string;
  timestamp : string
}.

Record Document := mkDocument {
  title : string;
  file_path : string;
  doc_category : string;
  doc_ciclo : option string;
  doc_modulo : option string;
  doc_section : option string;
  doc_timestamp : string
}.

Record CourseInfo := mkCourseInfo {
  name : string;
  info_section : option string;
  info_updates : list Update;
  info_documents : list Document;
  categories : list string;
  last_update : option string
}.

(** [ORDER BY key DESC]: rows with the greater key first, rows with equal
    keys in the order of the table. *)
Fixpoint insert_desc {A} (key : A → string) (x : A) (l : list A) : list A :=
  match l with
  | [] => [x]
  | y :: l' => if String.ltb (key y) (key x) then x :: l else y :: insert_desc key x l'
  end.

Definition order_by_desc {A} (key : A → string) (l : list A) : list A :=
  foldr (insert_desc key) [] l.

(** [d[k] = v] on a dictionary kept as the list of its items: a key that
    is present keeps its place. *)
Fixpoint setitem {V} (d : list (string * V)) (k : string) (v : V) : list (string * V) :=
  match d with
  | [] => [(k, v)]
  | (k', v') :: d' => if String.eqb k' k then (k', v) :: d' else (k', v') :: setitem d' k v
  end.

Definition keys {V} (d : list (string * V)) : list string := d.*1.

(** [list(set(...))] keeps one copy of each element (in an order that
    the language does not fix). *)
Fixpoint unique (l : list string) : list string :=
  match l with
  | [] => []
  | x :: l' => x :: filter (λ y, y ≠ x) (unique l')
  end.

(** SQL [column = ?] *)
Definition sql_eq (column : option string) (value : string) : bool :=
  match column with Some c => String.eqb c value | None => false end.

(** The clause [AND column = ?] that is added when the filter is given. *)
Definition and_eq (filter : option string) (column : option string) : bool :=
  match filter with
  | Some v => if Py.truthy v then sql_eq column v else true
  | None => true
  end.

(** [get_courses]: every course with its updates and documents. *)
Definition course_updates (db : Db) (id : Z) (sec : option string) : list Update :=
  (λ r, mkUpdate (update_content r) (update_category r) (update_ciclo r)
          (update_modulo r) sec (update_created_at r))
  <$> order_by_desc update_created_at
        (filter (λ r, update_course_id r = id) (updates db)).

Definition course_documents (db : Db) (id : Z) : list Document :=
  (λ r, mkDocument (document_title r) (document_file_path r) (document_category r)
          (document_ciclo r) (document_modulo r) (document_section r)
          (document_uploaded_at r))
  <$> order_by_desc document_uploaded_at
        (filter (λ r, document_course_id r = id) (documents db)).

Definition course_entry (db : Db) (row : CourseRow) : CourseInfo :=
  let ups := course_updates db (course_id row) (course_section row) in
  mkCourseInfo (course_name row) (course_section row) ups
    (course_documents db (course_id row))
    (unique (category <$> ups))
    (timestamp <$> head ups).

Definition get_courses (db : Db) : list (string * CourseInfo) :=
  foldl (λ d row, setitem d (course_name row) (course_entry db row))
        [] (courses db).

(** [get_course_info]: [None] when no course has the name. *)
Definition get_course_info (db : Db) (course_name_ : string)
    (ciclo_ modulo_ section_ : option string) : option CourseInfo :=
  match filter (λ row, course_name row = course_name_) (courses db) with
  | [] => None
  | row :: _ =>
      let ups :=
        (λ r, mkUpdate (update_content r) (update_category r) (update_ciclo r)
                (update_modulo r) (update_section r) (update_created_at r))
        <$> order_by_desc update_created_at
              (filter (λ r, update_course_id r = course_id row)
                 (filter (λ r, and_eq ciclo_ (update_ciclo r) &&
                               and_eq modulo_ (update_modulo r) &&
                               and_eq section_ (update_section r) = true)
                    (updates db))) in
      let docs :=
        (λ r, mkDocument (document_title r) (document_file_path r)
                (document_category r) (document_ciclo r) (document_modulo r)
                (document_section r) (document_uploaded_at r))
        <$> order_by_desc document_uploaded_at
              (filter (λ r, document_course_id r = course_id row)
                 (filter (λ r, and_eq ciclo_ (document_ciclo r) &&
                               and_eq modulo_ (document_modulo r) &&
                               and_eq section_ (document_section r) = true)
                    (documents db))) in
      Some (mkCourseInfo course_name_
              (if Py.truthy_opt section_ then section_ else course_section row)
              ups docs (unique (category <$> ups)) (timestamp <$> head ups))
  end.

(** The insertion made by the update flow of [main.py]:
    [SELECT id FROM courses WHERE name = ?], then
    [INSERT INTO updates (course_id, content, category, ciclo, modulo,
    section)], the time of the insertion being the default of
    [created_at].  [None] when [fetchone()] finds no course. *)
Definition insert_update (db : Db) (now : string)
    (course_name_ content_ category_ ciclo_ modulo_ section_ : string) : option Db :=
  match filter (λ row, course_name row = course_name_) (courses db) with
  | [] => None
  | row :: _ =>
      Some (mkDb (courses db)
              (updates db ++
               [mkUpdateRow (course_id row) content_ category_ (Some ciclo_)
                  (Some modulo_) (Some section_) now])
              (documents db))
  end.

(** The [id] that SQLite gives to a row inserted without one
    ([cursor.lastrowid] for an [INTEGER PRIMARY KEY]): one more than the
    largest of the table, and 1 in an empty table. *)
Definition lastrowid (ids : list Z) : Z :=
  match ids with
  | [] => 1
  | id :: ids' => foldr Z.max id ids' + 1
  end.

(** [SELECT id FROM courses WHERE name = ?] followed by [fetchone()] *)
Definition find_course (db : Db) (course_name_ : string) : option CourseRow :=
  head (filter (λ row, course_name row = course_name_) (courses db)).

(** [add_update]: the course is found or created, its section is set
    to the one given, and the update is inserted with the time of the
    insertion.  The result is [True]; [False] is returned only when the
    database raises. *)
Definition add_update (db : Db) (now : string)
    (course_name_ section_ content_ category_ ciclo_ modulo_ : string) : Db * bool :=
  let '(courses_, id) :=
    match find_course db course_name_ with
    | Some row =>
        ((λ r, if decide (course_id r = course_id row)
               then mkCourseRow (course_id r) (course_name r) (Some section_)
               else r) <$> courses db,
         course_id row)
    | None =>
        let id := lastrowid (course_id <$> courses db) in
        (courses db ++ [mkCourseRow id course_name_ (Some section_)], id)
    end in
  (mkDb courses_
     (updates db ++
      [mkUpdateRow id content_ category_ (Some ciclo_) (Some modulo_) (Some section_) now])
     (documents db),
   true).

(** [add_document]: the course is found or created, and the document
    is inserted; the statement names no [section] column, which stays
    NULL. *)
Definition add_document (db : Db) (now : string)
    (course_name_ section_ file_path_ title_ category_ ciclo_ modulo_ : string) : Db * bool :=
  let '(courses_, id) :=
    match find_course db course_name_ with
    | Some row => (courses db, course_id row)
    | None =>
        let id := lastrowid (course_id <$> courses db) in
        (courses db ++ [mkCourseRow id course_name_ (Some section_)], id)
    end in
  (mkDb courses_ (updates db)
     (documents db ++
      [mkDocumentRow id title_ file_path_ category_ (Some ciclo_) (Some modulo_) None now]),
   true).

(** [detect_category].  The prompt shows the name of the file when one
    is given and the content otherwise; [llm] maps this part of the
    prompt to the answer of the model, [None] when the call raises,
    which the method does not catch. *)
Definition valid_categories : list string :=
  ["EVALUACIÓN"; "CLASE"; "TAREA"; "SÍLABO"; "CRONOGRAMA"; "GENERAL"].

Definition detect_category_subject (content : string) (file_name : option string) : string :=
  match file_name with
  | Some f => if Py.truthy f then "Nombre del archivo: " +:+ f else "Contenido: " +:+ content
  | None => "Contenido: " +:+ content
  end.

Definition detect_category (llm : string → option string)
    (content : string) (file_name : option string) : option string :=
  match llm (detect_category_subject content file_name) with
  | None => None
  | Some response =>
      let category_ := Py.strip response in
      Some (if Py.in_list category_ valid_categories then category_ else "GENERAL")
  end.

(** [get_document_content]; [read_document_content], which catches
    every exception, is the reader of files. *)
Definition get_document_content (read_document_content : string → string) (db : Db)
    (course_name_ document_title_ : string) : option string :=
  match find_course db course_name_ with
  | None => None
  | Some row =>
      match filter (λ r, document_course_id r = course_id row ∧
                         document_title r = document_title_) (documents db) with
      | [] => None
      | r :: _ => Some (read_document_content (document_file_path r))
      end
  end.

End Database.

(* ===================================================================== *)
(** * The chat model                                                      *)
(* ===================================================================== *)

Module LLM.

(** What [llm.invoke] is asked.  Each prompt of the source is a fixed
    text around the values listed here. *)
Inductive Request :=
| Moderate (message : string)
| IdentifyCourse (user_input : option string) (available_courses : list string)
| IdentifyModule (user_input : option string)
| SuggestCategory (content : string)
| ProcessQuery (query : string) (course_info : Database.CourseInfo)
               (language : option string)
| AnswerFromContext (info_curso consulta language_response : string).

(** The model: the text of [response.content], or [None] when the call
    raises.  Its first argument counts the calls made earlier in the
    turn, so that two calls with the same request may differ. *)
Definition Oracle := nat → Request → option string.

End LLM.

(* ===================================================================== *)
(** * src/services/content_moderator.py                                   *)
(* ===================================================================== *)

Module Moderator.

Definition warning_message (reason : string) : string :=
  "⚠️ ADVERTENCIA: Tu mensaje ha sido detectado como inapropiado.

" +:+ "Razón: " +:+ reason +:+ "

" +:+ "🚫 Este tipo de contenido está estrictamente prohibido y será reportado " +:+
  "inmediatamente a las autoridades universitarias.

" +:+ "⚠️ Consecuencias:
" +:+ "- Reporte inmediato a la universidad
" +:+ "- Posible expulsión del curso
" +:+ "- Proceso disciplinario

" +:+ "Por favor, mantén un ambiente respetuoso y profesional en todas tus interacciones.".

(** The body of [detect_inappropriate_content] once the model has been
    called: [response] is its answer, [None] when the call raised.
    [result.split(":", 1)[1]] raises when [result] has no colon, and the
    handler of the function then lets the message through. *)
Definition judge (response : option string) : bool * string :=
  match response with
  | None => (true, "")
  | Some content =>
      let result := Py.strip content in
      if Py.startswith result "INAPPROPRIATE" then
        match Py.split1 ":" result !! 1%nat with
        | Some rest => (false, warning_message (Py.strip rest))
        | None => (true, "")
        end
      else (true, "")
  end.

(** [ContentModerator.detect_inappropriate_content] *)
Definition detect_inappropriate_content (llm : LLM.Request → option string)
    (message : string) : bool * string :=
  judge (llm (LLM.Moderate message)).

End Moderator.

(* ===================================================================== *)
(** * src/services/llm_service.py                                         *)
(* ===================================================================== *)

Module LLMService.

(** Each method returns [response.content.strip()], or its fallback when
    the call raises. *)
Definition identify_course (llm : LLM.Request → option string)
    (user_input : option string) (available_courses : list string) : string :=
  match llm (LLM.IdentifyCourse user_input available_courses) with
  | Some content => Py.strip content
  | None => "NO_MATCH"
  end.

Definition identify_module (llm : LLM.Request → option string)
    (user_input : option string) : string :=
  match llm (LLM.IdentifyModule user_input) with
  | Some content => Py.strip content
  | None => "NO_MATCH"
  end.

Definition suggest_category (llm : LLM.Request → option string)
    (content : string) : string :=
  match llm (LLM.SuggestCategory content) with
  | Some content => Py.strip content
  | None => "GENERAL"
  end.

Definition process_query (llm : LLM.Request → option string)
    (query : string) (course_info : Database.CourseInfo)
    (language : option string) : string :=
  match llm (LLM.ProcessQuery query course_info language) with
  | Some content => Py.strip content
  | None => "Lo siento, hubo un error al procesar tu consulta. Por favor, intenta de nuevo."
  end.

End LLMService.

(* ===================================================================== *)
(** * Floating-point arithmetic                                           *)
(* ===================================================================== *)

(** A finite floating-point number is the rational number it denotes.  An
    operation of a binary format is the exact operation followed by
    rounding to the nearest number of the format, ties to even.  A format
    is given by its precision and by the exponent of its least positive
    number; exponents are not bounded above (the scores computed below
    never exceed 1).  Dividing by zero gives 0 here; the program only
    divides by numbers that are at least 1. *)

Module Float.

Local Open Scope Q_scope.

Record Format := mkFormat { prec : Z; emin : Z }.

Definition binary32 : Format := mkFormat 24 (-149).
Definition binary64 : Format := mkFormat 53 (-1074).

(** For [0 < x], the exponent [e] with [2^e <= x < 2^(e+1)]. *)
Definition floor_log2 (x : Q) : Z :=
  let e := (Z.log2 (Qnum x) - Z.log2 (Zpos (Qden x)))%Z in
  if Qle_bool (2 ^ e) x then e else (e - 1)%Z.

(** The integer nearest to [x], the even one of the two when [x] lies
    halfway. *)
Definition rne (x : Q) : Z :=
  let f := Qfloor x in
  match Qcompare (x - inject_Z f) (1 # 2) with
  | Lt => f
  | Gt => (f + 1)%Z
  | Eq => if Z.even f then f else (f + 1)%Z
  end.

(** Rounding of a positive number: the numbers of the format around [x]
    are the multiples of [2^q], [q] being the exponent of [x] less the
    precision, and at least [emin]. *)
Definition round_pos (fmt : Format) (x : Q) : Q :=
  let q := Z.max (floor_log2 x - prec fmt + 1) (emin fmt) in
  inject_Z (rne (x / 2 ^ q)) * 2 ^ q.

Definition round (fmt : Format) (x : Q) : Q :=
  match Qcompare x 0 with
  | Eq => 0
  | Gt => round_pos fmt x
  | Lt => - round_pos fmt (- x)
  end.

Definition add (fmt : Format) (x y : Q) : Q := round fmt (x + y).
Definition div (fmt : Format) (x y : Q) : Q := round fmt (x / y).

End Float.

(* ===================================================================== *)
(** * src/semantic_search.py                                              *)
(* ===================================================================== *)

Module SemanticSearch.

(** A metadata dictionary, as the list of its items. *)
Definition Meta := list (string * string).

(** The libraries behind the index: the sentence encoder (one vector per
    text, [None] when the call raises), the squared L2 distance that
    [faiss.IndexFlatL2] computes between two vectors, and the
    floating-point format in which the score is computed. *)
Record Backend (vec : Type) := mkBackend {
  encode : list string → option (list vec);
  l2sqr : vec → vec → Q;
  fmt : Float.Format
}.
Arguments encode {vec}.
Arguments l2sqr {vec}.
Arguments fmt {vec}.

(** The object: [index] is [None] or the vectors held by the FAISS
    index, in the order of their insertion. *)
Record Index (vec : Type) := mkIndex {
  index : option (list vec);
  texts : list string;
  metadata : list Meta
}.
Arguments mkIndex {vec}.
Arguments index {vec}.
Arguments texts {vec}.
Arguments metadata {vec}.

(** A result of [search]: text, metadata and score. *)
Definition Result : Type := string * Meta * Q.

Definition score_of (r : Result) : Q := r.2.

(** The largest number of [binary32], which FAISS reports as the
    distance of a missing neighbour. *)
Definition FLT_MAX : Q := inject_Z ((2 ^ 24 - 1) * 2 ^ 104).

(** [l[i]] with Python's negative positions; [None] is [IndexError]. *)
Definition getitem {A} (l : list A) (i : Z) : option A :=
  if (0 <=? i)%Z then l !! Z.to_nat i
  else if (- Z.of_nat (length l) <=? i)%Z then l !! Z.to_nat (Z.of_nat (length l) + i)
  else None.

Section Index.

Context {vec : Type} (B : Backend vec).

(** [__init__] *)
Definition init : Index vec := mkIndex None [] [].

(** [clear] *)
Definition clear (self : Index vec) : Index vec := mkIndex None [] [].

(** [add_texts]; [None] when the method raises, which leaves the
    object as it was.  [metadata_] is the optional argument, and
    [if metadata] is false for [None] and for the empty list. *)
Definition add_texts (self : Index vec) (texts_ : list string)
    (metadata_ : option (list Meta)) : option (Index vec) :=
  match encode B texts_ with
  | None => None
  | Some embeddings =>
      let vectors := default [] (index self) in
      Some (mkIndex (Some (vectors ++ embeddings))
              (texts self ++ texts_)
              (metadata self ++
               match metadata_ with
               | Some (m :: ms) => m :: ms
               | _ => (λ _, []) <$> texts_
               end))
  end.

(** [IndexFlatL2.search] for one query: the [k] stored vectors nearest
    to the query, nearest first, each with its distance and its
    position; places that no stored vector fills hold [FLT_MAX] and
    the position -1. *)
Fixpoint insert_nearest (x : Q * Z) (l : list (Q * Z)) : list (Q * Z) :=
  match l with
  | [] => [x]
  | y :: l' => if Qle_bool x.1 y.1 then x :: l else y :: insert_nearest x l'
  end.

Definition nearest_first (l : list (Q * Z)) : list (Q * Z) :=
  foldr insert_nearest [] l.

Definition faiss_search (vectors : list vec) (query : vec) (k : nat) : list (Q * Z) :=
  let found :=
    take k (nearest_first (imap (λ i v, (l2sqr B query v, Z.of_nat i)) vectors)) in
  found ++ replicate (k - length found)%nat (FLT_MAX, (-1)%Z).

(** [score = 1 / (1 + dist)] *)
Definition score (dist : Q) : Q :=
  Float.div (fmt B) 1 (Float.add (fmt B) 1 dist).

(** The loop that formats the results; [None] when an index is out
    of range. *)
Fixpoint collect (self : Index vec) (row : list (Q * Z)) (results : list Result)
  : option (list Result) :=
  match row with
  | [] => Some results
  | (dist, idx) :: row' =>
      if (idx <? Z.of_nat (length (texts self)))%Z then
        match getitem (texts self) idx, getitem (metadata self) idx with
        | Some t, Some m => collect self row' (results ++ [(t, m, score dist)])
        | _, _ => None
        end
      else collect self row' results
  end.

(** [search]: every exception is caught and gives the empty list.
    FAISS refuses a number of neighbours that is not positive. *)
Definition search (self : Index vec) (query : string) (k : Z) : list Result :=
  match encode B [query] with
  | None => []
  | Some query_embedding =>
      match index self with
      | None => []
      | Some vectors =>
          if (length (texts self) =? 0)%nat then []
          else
            let k := Z.min k (Z.of_nat (length (texts self))) in
            if (k <=? 0)%Z then []
            else
              match query_embedding with
              | [] => []
              | q :: _ =>
                  default [] (collect self (faiss_search vectors q (Z.to_nat k)) [])
              end
      end
  end.

End Index.

End SemanticSearch.

(* ===================================================================== *)
(** * src/main.py                                                         *)
(* ===================================================================== *)

Module Bot.

Import Session.

(** What a handler is given besides the stored data: the chat model and
    the clock of the database. *)
Record Env := mkEnv {
  llm : LLM.Oracle;
  now : string
}.

(** A message of the chat: the user, [update.message.text] and whether
    [update.message.document] is set. *)
Record Update := mkUpdate {
  user_id : string;
  text : option string;
  document : bool
}.

(** What a handler does to the outside: it calls the chat model and it
    sends texts to the user. *)
Inductive Event :=
| Invoke (request : LLM.Request)
| Reply (text : string).

(** The number of calls to the chat model among the events. *)
Definition is_invoke (e : Event) : bool :=
  match e with Invoke _ => true | Reply _ => false end.

Definition calls (events : list Event) : nat :=
  length (filter (λ e, is_invoke e = true) events).

(** ** Handlers as state transformers

    A handler works on the dictionary of the user, which
    [get_user_state] hands out and which stays in [user_states], on the
    database, and it leaves a trace of events. *)
Record Turn := mkTurn {
  state : State;
  db : Database.Db;
  events : list Event
}.

Definition M (A : Type) : Type := Turn → A * Turn.

#[export] Instance M_ret : MRet M := λ A a t, (a, t).

#[export] Instance M_bind : MBind M :=
  λ A B k m t, let '(a, t') := m t in k a t'.

Definition get : M State := λ t, (state t, t).

Definition get_db : M Database.Db := λ t, (db t, t).

(** An assignment [state[key] = v]. *)
Definition assign (f : State → State) : M unit :=
  λ t, (tt, mkTurn (f (state t)) (db t) (events t)).

Definition put_db (d : Database.Db) : M unit :=
  λ t, (tt, mkTurn (state t) d (events t)).

(** [update.message.reply_text(text)] *)
Definition reply_text (text : string) : M unit :=
  λ t, (tt, mkTurn (state t) (db t) (events t ++ [Reply text])).

(** A call of a service that asks the model for [request]. *)
Definition ask {A} (env : Env) (request : LLM.Request)
    (service : (LLM.Request → option string) → A) : M A :=
  λ t, (service (llm env (calls (events t))),
        mkTurn (state t) (db t) (events t ++ [Invoke request])).

Definition detect_inappropriate_content (env : Env) (message : string) : M (bool * string) :=
  ask env (LLM.Moderate message)
    (λ llm, Moderator.detect_inappropriate_content llm message).

Definition identify_course (env : Env) (user_input : option string)
    (available_courses : list string) : M string :=
  ask env (LLM.IdentifyCourse user_input available_courses)
    (λ llm, LLMService.identify_course llm user_input available_courses).

Definition identify_module (env : Env) (user_input : option string) : M string :=
  ask env (LLM.IdentifyModule user_input)
    (λ llm, LLMService.identify_module llm user_input).

Definition suggest_category (env : Env) (content : string) : M string :=
  ask env (LLM.SuggestCategory content)
    (λ llm, LLMService.suggest_category llm content).

Definition llm_process_query (env : Env) (query : string)
    (course_info : Database.CourseInfo) (language : option string) : M string :=
  ask env (LLM.ProcessQuery query course_info language)
    (λ llm, LLMService.process_query llm query course_info language).

(** ** Pieces shared by the handlers *)

Abbreviation nl := Messages.nl.

(** [list(db.get_courses().keys())] *)
Definition available_courses (d : Database.Db) : list string :=
  Database.keys (Database.get_courses d).

(** [message and message.lower() in ['menu', '/menu']] *)
Definition is_menu (message : option string) : bool :=
  match message with
  | Some m => Py.truthy m && Py.in_list (Py.lower m) ["menu"; "/menu"]
  | None => false
  end.

(** The reply that follows a reset. *)
Definition menu_text (messages : list (string * string)) (d : Database.Db) : string :=
  Messages.getitem messages "return_to_menu" +:+ nl +:+
  Messages.getitem messages "welcome" +:+
  Messages.courses_text_es (available_courses d) +:+
  Messages.getitem messages "disclaimer".

Definition welcome_text (messages : list (string * string)) (courses_text : string) : string :=
  Messages.getitem messages "welcome" +:+ courses_text +:+
  Messages.getitem messages "disclaimer".

Definition return_hint (messages : list (string * string)) : string :=
  "(" +:+ Messages.getitem messages "return_to_menu" +:+ ")".

(** ** [start] *)
Definition start : M unit :=
  state ← get ;
  if negb (Py.truthy_opt (language state)) then
    reply_text "Selecciona tu idioma / Simiykita akllay:"
  else
    let messages := Messages.get_translated_messages (language state) in
    d ← get_db ;
    let courses_text :=
      if decide (language state = Some "qu")
      then Messages.courses_text_qu (available_courses d)
      else Messages.courses_text_es (available_courses d) in
    reply_text (welcome_text messages courses_text) ;;
    assign (set_waiting_for_course true) ;;
    assign (set_can_return_to_menu true).

(** ** [update_course_command] *)
Definition update_course_command : M unit :=
  state ← get ;
  let messages := Messages.get_translated_messages (language state) in
  assign (set_updating_course (Some true)) ;;
  assign (set_update_step (Some "course_selection")) ;;
  d ← get_db ;
  reply_text (Messages.getitem messages "update_welcome" +:+ nl +:+ nl +:+
              Messages.getitem messages "course_selection" +:+
              Messages.courses_text_es (available_courses d)).

(** ** [language_callback]; [data] is [query.data]. *)
Definition language_callback (data : string) : M unit :=
  assign (set_language (Some data)) ;;
  assign (set_waiting_for_language false) ;;
  let messages := Messages.get_translated_messages (Some data) in
  d ← get_db ;
  let courses_text :=
    if decide (data = "qu")
    then Messages.courses_text_qu (available_courses d)
    else Messages.courses_text_es (available_courses d) in
  reply_text (welcome_text messages courses_text) ;;
  assign (set_waiting_for_course true) ;;
  assign (set_can_return_to_menu true).

(** ** [handle_update_flow]

    [get_user_state] is called a second time here; it returns the
    dictionary that [handle_message] already holds. *)

(** The fields that must be present when the update is saved, with the
    names under which a missing one is reported. *)
Definition required_fields (state : State) : list (string * option string) :=
  [ ("curso", update_course state);
    ("sección", section state);
    ("ciclo", update_ciclo state);
    ("módulo", update_modulo state);
    ("contenido", update_content state);
    ("categoría", update_category state) ].

Definition missing_fields (state : State) : list string :=
  (filter (λ fv, Py.truthy_opt fv.2 = false) (required_fields state)).*1.

(** The summary of a saved update: the content is cut after 100
    characters. *)
Definition summary_content (content : string) : string :=
  if (100 <? String.length content)%nat
  then String.substring 0 100 content +:+ "..."
  else content.

(** The last step: every field is checked, the update is inserted, the
    state is reset and the summary is sent.  An exception of the
    [try] block is answered with ["update_error"]. *)
Definition save_update (env : Env) (messages : list (string * string)) : M unit :=
  state ← get ;
  match missing_fields state with
  | _ :: _ as missing =>
      reply_text (Messages.format (Messages.getitem messages "update_error")
                    ["Faltan campos requeridos: " +:+ Py.join ", " missing])
  | [] =>
      d ← get_db ;
      let str := Messages.str in
      match Database.insert_update d (now env)
              (str (update_course state)) (str (update_content state))
              (str (update_category state)) (str (update_ciclo state))
              (str (update_modulo state)) (str (section state)) with
      | None =>
          reply_text (Messages.format (Messages.getitem messages "update_error")
                        ["'NoneType' object is not subscriptable"])
      | Some d' =>
          put_db d' ;;
          assign reset_state ;;
          reply_text
            (Messages.format (Messages.getitem messages "update_summary")
               [str (update_course state); str (section state);
                str (update_category state); str (update_ciclo state);
                str (update_modulo state);
                summary_content (str (update_content state))]
             +:+ nl +:+ nl +:+ return_hint messages)
      end
  end.

Definition handle_update_flow (env : Env) (update : Update) : M unit :=
  state ← get ;
  let message := text update in
  let messages := Messages.get_translated_messages (language state) in
  if negb (Py.truthy_flag (updating_course state)) then mret tt
  else if is_menu message then
    assign reset_state ;;
    d ← get_db ;
    reply_text (menu_text messages d)
  else if decide (update_step state = Some "course_selection") then
    d ← get_db ;
    matching_course ← identify_course env message (available_courses d) ;
    if negb (String.eqb matching_course "NO_MATCH") then
      assign (set_update_course (Some matching_course)) ;;
      assign (set_update_step (Some "content_input")) ;;
      reply_text (Messages.format (Messages.getitem messages "course_selected")
                    [matching_course] +:+ nl +:+ nl +:+
                  Messages.getitem messages "enter_update_content" +:+ nl +:+ nl +:+
                  return_hint messages)
    else reply_text (Messages.getitem messages "invalid_course")
  else if decide (update_step state = Some "content_input") then
    match message with
    | Some m =>
        if negb (Py.truthy m) || negb (Py.truthy (Py.strip m)) then
          reply_text (Messages.getitem messages "update_empty")
        else
          verdict ← detect_inappropriate_content env m ;
          if negb verdict.1 then reply_text verdict.2
          else
            assign (set_update_content (Some (Py.strip m))) ;;
            suggested_category ← suggest_category env m ;
            assign (set_update_category (Some suggested_category)) ;;
            reply_text (Messages.getitem messages "content_received" +:+ nl +:+ nl +:+
                        Messages.format (Messages.getitem messages "suggested_category")
                          [suggested_category] +:+ nl +:+ nl +:+
                        Messages.getitem messages "confirm_category" +:+ nl +:+ nl +:+
                        return_hint messages) ;;
            assign (set_update_step (Some "category_confirmation"))
    | None => reply_text (Messages.getitem messages "update_empty")
    end
  else if decide (update_step state = Some "category_confirmation") then
    match message with
    | Some m =>
        if Py.in_list (Py.lower m) ["sí"; "si"; "yes"; "y"; "arí"; "ari"] then
          assign (set_update_step (Some "ciclo_selection")) ;;
          reply_text (Messages.getitem messages "ciclo_selection")
        else
          assign (set_update_step (Some "category_input")) ;;
          reply_text (Messages.getitem messages "enter_category" +:+ nl +:+ nl +:+
                      return_hint messages)
    | None => reply_text (Messages.getitem messages "error_processing")
    end
  else if decide (update_step state = Some "category_input") then
    match message with
    | Some m =>
        if Py.in_list (Py.upper m)
             ["EVALUACIÓN"; "CLASE"; "TAREA"; "SÍLABO"; "CRONOGRAMA"; "GENERAL"] then
          assign (set_update_category (Some (Py.upper m))) ;;
          assign (set_update_step (Some "ciclo_selection")) ;;
          reply_text (Messages.getitem messages "ciclo_selection")
        else reply_text (Messages.getitem messages "invalid_category")
    | None => reply_text (Messages.getitem messages "error_processing")
    end
  else if decide (update_step state = Some "ciclo_selection") then
    match message with
    | Some m =>
        if Validators.validate_ciclo m then
          assign (set_update_ciclo (Some m)) ;;
          assign (set_update_step (Some "section_selection")) ;;
          reply_text (Messages.getitem messages "section_selection")
        else reply_text (Messages.getitem messages "invalid_ciclo")
    | None => reply_text (Messages.getitem messages "invalid_ciclo")
    end
  else if decide (update_step state = Some "section_selection") then
    match message with
    | Some m =>
        if Py.truthy m && Py.truthy (Py.strip m) then
          assign (set_section (Some (Py.strip m))) ;;
          assign (set_update_step (Some "modulo_selection")) ;;
          reply_text (Messages.getitem messages "modulo_selection")
        else reply_text (Messages.getitem messages "invalid_section")
    | None => reply_text (Messages.getitem messages "invalid_section")
    end
  else if decide (update_step state = Some "modulo_selection") then
    matching_modulo ← identify_module env message ;
    if negb (String.eqb matching_modulo "NO_MATCH") then
      assign (set_update_modulo (Some matching_modulo)) ;;
      save_update env messages
    else reply_text (Messages.getitem messages "invalid_modulo")
  else mret tt.

(** ** [handle_message] *)

(** The blocks that follow the selection of the course. *)
Definition after_course_selection (env : Env) (update : Update)
    (messages : list (string * string)) : M unit :=
  state ← get ;
  let message := text update in
  if Py.truthy_flag (waiting_for_section state) then
    match message with
    | Some m =>
        if Py.truthy m && Py.truthy (Py.strip m) then
          assign (set_section (Some (Py.strip m))) ;;
          assign (set_waiting_for_section (Some false)) ;;
          assign (set_waiting_for_ciclo (Some true)) ;;
          reply_text (Messages.getitem messages "ciclo_selection")
        else reply_text (Messages.getitem messages "invalid_section")
    | None => reply_text (Messages.getitem messages "invalid_section")
    end
  else if Py.truthy_flag (waiting_for_ciclo state) then
    match message with
    | Some m =>
        if Py.truthy m then
          if Validators.validate_ciclo m then
            assign (set_ciclo (Some m)) ;;
            assign (set_waiting_for_ciclo (Some false)) ;;
            assign (set_waiting_for_modulo (Some true)) ;;
            reply_text (Messages.getitem messages "modulo_selection")
          else reply_text (Messages.getitem messages "invalid_ciclo")
        else mret tt
    | None => mret tt
    end
  else if Py.truthy_flag (waiting_for_modulo state) then
    match message with
    | Some m =>
        if Py.truthy m then
          matching_modulo ← identify_module env (Some m) ;
          if negb (String.eqb matching_modulo "NO_MATCH") then
            assign (set_modulo (Some matching_modulo)) ;;
            assign (set_waiting_for_modulo (Some false)) ;;
            reply_text (Messages.getitem messages "ready_for_query")
          else reply_text (Messages.getitem messages "invalid_modulo")
        else mret tt
    | None => mret tt
    end
  else if document update then
    reply_text ("❌ Lo siento, la subida de documentos no está disponible en este momento." +:+ nl +:+
                "Por favor, contacta al administrador del curso para subir documentos.")
  else
    match message, course state with
    | Some m, Some c =>
        if Py.truthy m && Py.truthy c then
          d ← get_db ;
          match Database.get_course_info d c (ciclo state) (modulo state) (section state) with
          | Some course_info =>
              response ← llm_process_query env m course_info (language state) ;
              reply_text response
          | None =>
              reply_text (Messages.format (Messages.getitem messages "no_course_info")
                            [c; Messages.str (ciclo state); Messages.str (modulo state)])
          end
        else mret tt
    | _, _ => mret tt
    end.

Definition handle_message (env : Env) (update : Update) : M unit :=
  state ← get ;
  let message := text update in
  let messages := Messages.get_translated_messages (language state) in
  if is_menu message && can_return_to_menu state then
    assign reset_state ;;
    d ← get_db ;
    reply_text (menu_text messages d)
  else
    verdict ←
      match message with
      | Some m => if Py.truthy m then detect_inappropriate_content env m
                  else mret (true, "")
      | None => mret (true, "")
      end ;
    if negb verdict.1 then reply_text verdict.2
    else if Py.truthy_flag (updating_course state) then handle_update_flow env update
    else if waiting_for_language state then
      if decide (message ∈ Some <$> ["1"; "es"; "español"; "spanish"]) then
        assign (set_language (Some "es")) ;;
        assign (set_waiting_for_language false) ;;
        d ← get_db ;
        reply_text (welcome_text messages (Messages.courses_text_es (available_courses d))) ;;
        assign (set_waiting_for_course true)
      else if decide (message ∈ Some <$> ["2"; "qu"; "quechua"; "qichwa"]) then
        assign (set_language (Some "qu")) ;;
        assign (set_waiting_for_language false) ;;
        d ← get_db ;
        reply_text (welcome_text messages (Messages.courses_text_qu (available_courses d))) ;;
        assign (set_waiting_for_course true)
      else reply_text "Por favor, selecciona un idioma válido (1/2)"
    else
      match message with
      | Some m =>
          if waiting_for_course state && Py.truthy m then
            d ← get_db ;
            matching_course ← identify_course env (Some m) (available_courses d) ;
            if negb (String.eqb matching_course "NO_MATCH") then
              assign (set_course (Some matching_course)) ;;
              assign (set_waiting_for_course false) ;;
              assign (set_waiting_for_section (Some true)) ;;
              reply_text (Messages.format (Messages.getitem messages "course_selected")
                            [matching_course] +:+ nl +:+ nl +:+
                          Messages.getitem messages "section_selection")
            else
              reply_text ("❌ No pude encontrar el curso '" +:+ m +:+ "'." +:+ nl +:+ nl +:+
                          "Cursos disponibles:" +:+ nl +:+
                          Py.join nl ((λ course, "- " +:+ course) <$> available_courses d)
                          +:+ nl +:+ nl +:+
                          "Por favor, intenta escribir el nombre exacto de uno de estos cursos.")
          else after_course_selection env update messages
      | None => after_course_selection env update messages
      end.

(** ** The handlers on the states of all users

    [state_manager.user_states] and the database make the world that a
    turn changes. *)
Record World := mkWorld {
  user_states : gmap string State;
  database : Database.Db
}.

(** A handler run for [user_id]: the state comes from
    [get_user_state], and what the handler does to it is done to the
    dictionary held in [user_states]. *)
Definition run (user_id : string) (handler : M unit) (w : World) : World * list Event :=
  let '(user_states, state) := get_user_state (user_states w) user_id in
  let t := (handler (mkTurn state (database w) [])).2 in
  (mkWorld (<[user_id := Bot.state t]> user_states) (db t), events t).

(** What the application dispatches to its handlers. *)
Inductive Input :=
| Start (user_id : string)
| UpdateCommand (user_id : string)
| Message (update : Update)
| LanguageButton (user_id : string) (data : string).

Definition dispatch (env : Env) (input : Input) (w : World) : World * list Event :=
  match input with
  | Start u => run u start w
  | UpdateCommand u => run u update_course_command w
  | Message update => run (user_id update) (handle_message env update) w
  | LanguageButton u data => run u (language_callback data) w
  end.

(** The worlds that the application can be in: it starts with no user,
    and every turn may meet another answer of the chat model. *)
Inductive reachable : World → Prop :=
| reachable_init d : reachable (mkWorld ∅ d)
| reachable_step env input w :
    reachable w → reachable (dispatch env input w).1.

(** ** [process_query] *)

(** The storage of documents: [list_s3_documents] and
    [get_document_from_s3], which catch every exception, and the name
    of the bucket. *)
Record Storage := mkStorage {
  S3_BUCKET : option string;
  list_s3_documents : string → string → string → string → list string;
  get_document_from_s3 : string → string → string → string → string → string
}.

(** [format_updates] *)
Definition format_updates (updates : list Database.Update) : string :=
  match updates with
  | [] => "No hay actualizaciones disponibles."
  | _ =>
      Py.join nl
        ((λ u, "- " +:+ Database.category u +:+ " (" +:+ Database.timestamp u +:+ "):"
               +:+ nl +:+ "  " +:+ Database.content u) <$> updates)
  end.

(** [os.path.basename] *)
Fixpoint basename (path : string) : string :=
  match path with
  | EmptyString => EmptyString
  | String c r => if Py.contains r "/" then basename r
                  else if Ascii.eqb c "/" then r else path
  end.

(** [meta.get(key, default)] *)
Fixpoint meta_get (meta : SemanticSearch.Meta) (key default : string) : string :=
  match meta with
  | [] => default
  | (k, v) :: rest => if String.eqb k key then v else meta_get rest key default
  end.

(** One entry of the relevant information. *)
Definition relevant_entry (r : SemanticSearch.Result) : string :=
  let '(text, meta, score) := r in
  let source_type :=
    if String.eqb (meta_get meta "type" "") "update" then "Actualización" else "Documento" in
  let timestamp := meta_get meta "timestamp" "" in
  let title := meta_get meta "title" "" in
  nl +:+ "- " +:+ source_type +:+ " (" +:+ meta_get meta "category" "N/A" +:+ ")"
  +:+ (if Py.truthy timestamp then " del " +:+ timestamp else "")
  +:+ (if Py.truthy title then " - " +:+ title else "")
  +:+ ":" +:+ nl +:+ "  " +:+ String.substring 0 200 text +:+ "...".

(** [score > 0.5] *)
Definition relevant (r : SemanticSearch.Result) : bool :=
  negb (Qle_bool (SemanticSearch.score_of r) (1 # 2)).

Definition append_message (content : string) (state : State) : State :=
  set_messages (messages state ++ [mkMessage "assistant" content]) state.

Definition error_answer : string :=
  "Lo siento, hubo un error al procesar tu consulta. Por favor, intenta de nuevo.".

Section ProcessQuery.

Context {vec : Type}.
Variable llm : LLM.Request → option string.
Variable storage : Storage.
Variable backend : SemanticSearch.Backend vec.
Variable d : Database.Db.

(** The texts and metadata handed to the index: the updates, the
    documents found in the storage, the documents of the database. *)
Definition gather (state : State) (course_ ciclo_ modulo_ section_ : string)
    (filtered_updates : list Database.Update)
    (filtered_documents : list Database.Document)
  : list (string * SemanticSearch.Meta) :=
  ((λ u, (Database.content u,
          [("type", "update"); ("category", Database.category u);
           ("timestamp", Database.timestamp u)])) <$> filtered_updates)
  ++
  omap (λ doc_key,
          let s3_url := "s3://" +:+ Messages.str (S3_BUCKET storage) +:+ "/" +:+ doc_key in
          let content := get_document_from_s3 storage s3_url course_ ciclo_ modulo_ section_ in
          if Py.truthy content
          then Some (content, [("type", "document"); ("title", basename doc_key);
                               ("category", "S3_DOCUMENT"); ("source", s3_url)])
          else None)
       (list_s3_documents storage course_ ciclo_ modulo_ section_)
  ++
  omap (λ doc,
          if Py.startswith (Database.file_path doc) "s3://" then
            let content := get_document_from_s3 storage (Database.file_path doc)
                             course_ ciclo_ modulo_ section_ in
            if Py.truthy content
            then Some (content, [("type", "document"); ("title", Database.title doc);
                                 ("category", Database.doc_category doc)])
            else None
          else None)
       filtered_documents.

(** [process_query]: the state with the answer appended to its
    messages, the index as the function leaves it, and the calls made
    to the chat model.  Every exception is answered with
    [error_answer]. *)
Definition process_query (index : SemanticSearch.Index vec) (state : State)
  : State * SemanticSearch.Index vec * list Event :=
  match last (messages state) with
  | None => (append_message error_answer state, index, [])
  | Some last_message =>
      let consulta := content last_message in
      let messages := Messages.get_translated_messages (language state) in
      if negb (Py.truthy_opt (course state)) then
        (append_message (Messages.getitem messages "please_start") state, index, [])
      else if negb (Py.truthy_opt (ciclo state)) || negb (Py.truthy_opt (modulo state))
              || negb (Py.truthy_opt (section state)) then
        (append_message (Messages.getitem messages "complete_info") state, index, [])
      else
        let course_name := Messages.str (course state) in
        let ciclo_ := Messages.str (ciclo state) in
        let modulo_ := Messages.str (modulo state) in
        let section_ := Messages.str (section state) in
        match Database.get_course_info d course_name None None None with
        | None =>
            (append_message
               (Messages.format (Messages.getitem messages "no_course_info")
                  [course_name; ciclo_; modulo_]
                +:+ Messages.courses_text_es (available_courses d)) state,
             index, [])
        | Some course_info =>
            let filtered_updates :=
              filter (λ u, Database.ciclo u = Some ciclo_ ∧ Database.modulo u = Some modulo_)
                (Database.info_updates course_info) in
            let filtered_documents :=
              filter (λ doc, Database.doc_ciclo doc = Some ciclo_ ∧
                             Database.doc_modulo doc = Some modulo_)
                (Database.info_documents course_info) in
            let index := SemanticSearch.clear index in
            let gathered :=
              gather state course_name ciclo_ modulo_ section_
                filtered_updates filtered_documents in
            let searched :=
              match gathered with
              | [] => Some (index, nl +:+ nl +:+ "No se encontró información relevante.")
              | _ =>
                  match SemanticSearch.add_texts backend index gathered.*1
                          (Some gathered.*2) with
                  | None => None
                  | Some index' =>
                      let search_results := SemanticSearch.search backend index' consulta 5 in
                      Some (index',
                            nl +:+ nl +:+ "Información más relevante encontrada:" +:+ nl
                            +:+ String.concat ""
                                  (relevant_entry <$> filter (λ r, relevant r = true)
                                                        search_results))
                  end
              end in
            match searched with
            | None => (append_message error_answer state, index, [])
            | Some (index', relevant_info) =>
                let info_curso :=
                  Messages.format (Messages.getitem messages "course_info")
                    [Database.name course_info;
                     Messages.str (Database.info_section course_info);
                     ciclo_; modulo_;
                     Py.join ", " (Database.categories course_info);
                     Messages.str (Database.last_update course_info);
                     pretty (length filtered_updates);
                     format_updates filtered_updates]
                  +:+ relevant_info in
                let language_response :=
                  if decide (language state = Some "qu") then "quechua" else "español" in
                let request := LLM.AnswerFromContext info_curso consulta language_response in
                match llm request with
                | None => (append_message error_answer state, index', [Invoke request])
                | Some content => (append_message content state, index', [Invoke request])
                end
            end
        end
  end.

End ProcessQuery.

End Bot.

(* ===================================================================== *)
(** * src/main.py: the documents kept in S3                               *)
(* ===================================================================== *)

Module S3.

(** What the functions use of the outside: the name of the bucket (an
    environment variable, which may be unset), [unidecode],
    [os.path.exists], and the two calls of the client of S3, which
    answer [None] when they raise; [list_objects_v2] answers with the
    keys of the contents. *)
Record Client := mkClient {
  S3_BUCKET : option string;
  unidecode : string → string;
  path_exists : string → bool;
  upload_file : string → option string → string → option unit;
  list_objects_v2 : option string → string → option (list string)
}.

(** The calls made to the client. *)
Inductive Request :=
| Upload (file_path key : string)
| List (prefix : string).

(** [s.replace(" ", "_")] *)
Fixpoint replace_spaces (s : string) : string :=
  match s with
  | EmptyString => EmptyString
  | String c r => String (if Ascii.eqb c " " then "_"%char else c) (replace_spaces r)
  end.

(** [unidecode(s).replace(" ", "_").lower()] *)
Definition sanitize (client : Client) (s : string) : string :=
  Py.lower (replace_spaces (unidecode client s)).

Definition s3_path (course ciclo modulo section file_name : string) : string :=
  course +:+ "/" +:+ ciclo +:+ "/" +:+ modulo +:+ "/" +:+ section +:+ "/" +:+ file_name.

(** [os.path.basename] *)
Fixpoint basename (path : string) : string :=
  match path with
  | EmptyString => EmptyString
  | String c r => if Py.contains r "/" then basename r
                  else if Ascii.eqb c "/" then r else path
  end.

(** [upload_to_s3]: the address of the uploaded file, [None] when the
    function raises, and the calls made to the client. *)
Definition upload_to_s3 (client : Client) (file_path course ciclo modulo section : string)
  : option string * list Request :=
  if negb (Py.truthy file_path && Py.truthy course && Py.truthy ciclo &&
           Py.truthy modulo && Py.truthy section) then (None, [])
  else if negb (Validators.validate_ciclo ciclo) then (None, [])
  else if negb (Py.in_list (Py.upper modulo) ["A"; "B"]) then (None, [])
  else
    let course := sanitize client course in
    let section := sanitize client section in
    let modulo := Py.upper modulo in
    let key := s3_path course ciclo modulo section (basename file_path) in
    if negb (path_exists client file_path) then (None, [])
    else
      match upload_file client file_path (S3_BUCKET client) key with
      | None => (None, [Upload file_path key])
      | Some _ =>
          (Some ("s3://" +:+ Messages.str (S3_BUCKET client) +:+ "/" +:+ key),
           [Upload file_path key])
      end.

(** [list_s3_documents]: the keys found, the empty list when anything
    raises, and the calls made to the client. *)
Definition list_s3_documents (client : Client) (course ciclo modulo section : string)
  : list string * list Request :=
  let course := sanitize client course in
  let section := sanitize client section in
  let modulo := Py.upper modulo in
  if negb (Validators.validate_ciclo ciclo) then ([], [])
  else if negb (Py.in_list modulo ["A"; "B"]) then ([], [])
  else
    let prefix := course +:+ "/" +:+ ciclo +:+ "/" +:+ modulo +:+ "/" +:+ section +:+ "/" in
    match list_objects_v2 client (S3_BUCKET client) prefix with
    | None => ([], [List prefix])
    | Some keys => (keys, [List prefix])
    end.

End S3.

(* ===================================================================== *)
(** * Notions used by the statements *)
(* ===================================================================== *)

Import Session Bot SemanticSearch.

(** ** The format of a cycle *)

(** Decimal digits *)
Definition is_digit (c : ascii) : bool := (48 <=? Py.ord c) && (Py.ord c <=? 57).

Fixpoint count_digits (s : string) : nat :=
  match s with
  | EmptyString => 0
  | String c r => (if is_digit c then 1 else 0) + count_digits r
  end.


(** ** The moderation gate *)



(** ** Sessions of the bot *)

Definition session (w : World) (user_id : string) : State :=
  default create_initial_state (user_states w !! user_id).

Definition session_inv (st : State) : Prop :=
  can_return_to_menu st = true ∧
  messages st = [] ∧
  (update_step st ≠ None ↔ Py.truthy_flag (updating_course st) = true) ∧
  (waiting_for_language st = true →
     Py.truthy_flag (waiting_for_section st) = false ∧
     Py.truthy_flag (waiting_for_ciclo st) = false ∧
     Py.truthy_flag (waiting_for_modulo st) = false).

(** Running a handler: the monad is unfolded, the texts of the replies
    are left alone. *)
Ltac step_handler :=
  cbv beta iota zeta delta
      [mbind mret M_bind M_ret get get_db assign put_db reply_text ask
       detect_inappropriate_content identify_course identify_module
       suggest_category llm_process_query] in *;
  cbn [fst snd state db events] in *.

Ltac run_handler :=
  repeat (step_handler;
          first [ case_decide | case_match ];
          simplify_eq/=; step_handler).

Ltac solve_inv Hinv :=
  destruct Hinv as (? & ? & ? & ?); repeat split; simpl in *;
  rewrite ?negb_false_iff, ?negb_true_iff in *;
  try done; try tauto; try (intros; simplify_eq; tauto); try congruence.

#[local] Arguments save_update : simpl never.

#[local] Arguments handle_update_flow : simpl never.

#[local] Arguments after_course_selection : simpl never.

Definition world_inv (w : World) : Prop :=
  ∀ user_id st, user_states w !! user_id = Some st → session_inv st.

(** ** Modes of a session *)

(** The flags that make the mode of a session, and the states in which
    at most one of them is set. *)
Definition mode_flags (st : State) : list bool :=
  [ waiting_for_language st; waiting_for_course st;
    Py.truthy_flag (waiting_for_section st); Py.truthy_flag (waiting_for_ciclo st);
    Py.truthy_flag (waiting_for_modulo st); Py.truthy_flag (updating_course st) ].

Definition at_most_one_mode (st : State) : Prop :=
  (length (filter (λ b, b = true) (mode_flags st)) ≤ 1)%nat.

Definition in_update_flow (st : State) : Prop :=
  Py.truthy_flag (updating_course st) = true.

(** An environment whose model lets every message through. *)
Definition quiet_env : Env := mkEnv (λ _ _, Some "APPROPRIATE") "2024-03-01 10:00:00".

Definition empty_db : Database.Db := Database.mkDb [] [] [].

(** ** The update flow *)

(** One of the two moderation checks of a turn rejects the message: the
    check of [handle_message] is the first call to the model, the check
    of [handle_update_flow] the second. *)
Definition moderation_rejects (env : Env) (m : string) : Prop :=
  (Moderator.detect_inappropriate_content (llm env 0%nat) m).1 = false ∨
  (Moderator.detect_inappropriate_content (llm env 1%nat) m).1 = false.

Definition moderation_approves (env : Env) (m : string) : Prop :=
  (Moderator.detect_inappropriate_content (llm env 0%nat) m).1 = true ∧
  (Moderator.detect_inappropriate_content (llm env 1%nat) m).1 = true.

Definition affirmative_tokens : list string := ["sí"; "si"; "yes"; "y"; "arí"; "ari"].

Definition closed_categories : list string :=
  ["EVALUACIÓN"; "CLASE"; "TAREA"; "SÍLABO"; "CRONOGRAMA"; "GENERAL"].

Definition is_suggest (e : Event) : bool :=
  match e with Invoke (LLM.SuggestCategory _) => true | _ => false end.

Definition strict_env : Env := mkEnv (λ _ _, Some "INAPPROPRIATE: odio") "2024-03-01 10:00:00".

Definition awaiting_update_content : State :=
  set_update_step (Some "content_input")
    (set_update_course (Some "Algoritmos")
       (set_updating_course (Some true) create_initial_state)).

Definition suggesting_env : Env :=
  mkEnv (λ _ request,
           match request with
           | LLM.SuggestCategory _ => Some " PARCIAL "
           | _ => Some "APPROPRIATE"
           end) "2024-03-01 10:00:00".

(** ** Questions about courses *)



Definition one_course_db : Database.Db :=
  Database.mkDb [Database.mkCourseRow 1 "Algoritmos" (Some "G1")] [] [].


(** ** Floating-point scores *)

(** A format has at least one bit of precision, and 1 is not below its
    least positive number. *)
Definition valid_format (fmt : Float.Format) : Prop :=
  1 ≤ Float.prec fmt ∧ Float.emin fmt ≤ 0.

(** The exponent of the unit in the last place of a number of the
    format near [x]. *)
Definition quantum (fmt : Float.Format) (x : Q) : Z :=
  Z.max (Float.floor_log2 x - Float.prec fmt + 1) (Float.emin fmt).

(** [1 / (1 + dist)] computed in a format. *)
Definition fscore (fmt : Float.Format) (dist : Q) : Q :=
  Float.div fmt 1 (Float.add fmt 1 dist).

(** ** The content index *)

(** The call passes no metadata, or as many as texts. *)
Definition aligned_call (texts_ : list string) (metadata_ : option (list Meta)) : Prop :=
  match metadata_ with
  | Some (m :: ms) => length (m :: ms) = length texts_
  | _ => True
  end.

(** The metadata that [add_texts] stores for a call. *)
Definition stored_metadata (texts_ : list string) (metadata_ : option (list Meta)) : list Meta :=
  match metadata_ with
  | Some (m :: ms) => m :: ms
  | _ => (λ _, []) <$> texts_
  end.

(** The three lists of the index have one length. *)
Definition aligned {vec} (self : Index vec) : Prop :=
  length (texts self) = length (metadata self) ∧
  length (default [] (index self)) = length (texts self).

(** The encoder gives one vector per text, and distances are not
    negative. *)
Definition encodes_each_text {vec} (B : Backend vec) : Prop :=
  ∀ ts vs, encode B ts = Some vs → length vs = length ts.

Definition distances_nonneg {vec} (B : Backend vec) : Prop :=
  ∀ q v, (0 <= l2sqr B q v)%Q.

Definition non_increasing (scores : list Q) : Prop :=
  StronglySorted (λ a b, b <= a)%Q scores.

(** The order of the rows of FAISS. *)
Definition by_distance (a b : Q * Z) : Prop := (a.1 <= b.1)%Q.

(** The distance from the query to every stored vector, with the
    position of the vector. *)
Definition entries {vec} (B : Backend vec) (vectors : list vec) (q : vec) : list (Q * Z) :=
  imap (λ i v, (l2sqr B q v, Z.of_nat i)) vectors.

(** The result that the loop of [search] makes of an entry. *)
Definition result_at {vec} (B : Backend vec) (self : Index vec) (e : Q * Z) : Result :=
  (default "" (getitem (texts self) e.2), default [] (getitem (metadata self) e.2),
   score B e.1).

Inductive Op :=
| OpClear
| OpAddTexts (texts_ : list string) (metadata_ : option (list Meta)).

(** An operation applied to the object; [add_texts] leaves the object as
    it was when it raises. *)
Definition apply_op {vec} (B : Backend vec) (self : Index vec) (op : Op) : Index vec :=
  match op with
  | OpClear => clear self
  | OpAddTexts texts_ metadata_ => default self (add_texts B self texts_ metadata_)
  end.

Definition aligned_op (op : Op) : Prop :=
  match op with
  | OpClear => True
  | OpAddTexts texts_ metadata_ => aligned_call texts_ metadata_
  end.

(** The fragments supplied since the last [clear] by the calls that did
    not raise: each text with the metadata passed alongside it, the empty
    dictionary when none was passed. *)
Definition supplied {vec} (B : Backend vec) (ops : list Op) : list (string * Meta) :=
  foldl (λ acc op,
           match op with
           | OpClear => []
           | OpAddTexts texts_ metadata_ =>
               match encode B texts_ with
               | Some _ => acc ++ zip texts_ (stored_metadata texts_ metadata_)
               | None => acc
               end
           end) [] ops.

(** ** Concrete instances *)

(** A backend with embeddings of one dimension: a text is encoded by its
    length, in units of [2^-30], and the distance is the square of the
    difference. *)
Definition toy_encode (ts : list string) : option (list Q) :=
  Some ((λ t, Z.of_nat (String.length t) # 2 ^ 30) <$> ts).

Definition toy_l2sqr (x y : Q) : Q := ((x - y) * (x - y))%Q.

Definition toy_backend (fmt : Float.Format) : Backend Q :=
  mkBackend Q toy_encode toy_l2sqr fmt.


(** The value of a number of the Standard Library's specification of
    IEEE 754. *)
Definition SF2Q (f : spec_float) : option Q :=
  match f with
  | S754_zero _ => Some 0%Q
  | S754_finite s m e =>
      Some (Qred ((if s then -1 else 1) * inject_Z (Z.pos m) * 2 ^ e))%Q
  | _ => None
  end.

(** [1 / (1 + m * 2^e)] in [binary32], by the operations of the
    Standard Library. *)
Definition spec_score32 (m e : Z) : option Q :=
  let one := binary_normalize 24 128 1 0 false in
  SF2Q (SFdiv 24 128 one (SFadd 24 128 one (binary_normalize 24 128 m e false))).

Definition spec_score64 (m e : Z) : option Q :=
  let one := binary_normalize 53 1024 1 0 false in
  SF2Q (SFdiv 53 1024 one (SFadd 53 1024 one (binary_normalize 53 1024 m e false))).


(** ** The fields of an update *)

(** The keys that [validate_update_fields] reads. *)
Definition update_field_keys : list string :=
  ["update_course"; "section"; "update_ciclo"; "update_modulo"; "update_content";
   "update_category"].

(** ** The rows of the database *)

(** The first update is not older than the second one. *)
Definition newest_first (u v : Database.Update) : Prop :=
  String.leb (Database.timestamp v) (Database.timestamp u) = true.

(** A column passes a filter of [get_course_info]: the filter is
    absent or empty, or the column holds its value. *)
Definition passes (filter_ column : option string) : Prop :=
  Py.truthy_opt filter_ = true → column = filter_.

(** The order of [ORDER BY key DESC]. *)
Definition descending {A} (key : A → string) (a b : A) : Prop :=
  String.leb (key b) (key a) = true.

(** The database keeps its keys: the ids and the names of the courses
    are pairwise distinct, and every update and document belongs to a
    course. *)
Definition well_formed (d : Database.Db) : Prop :=
  NoDup (Database.course_id <$> Database.courses d) ∧
  NoDup (Database.course_name <$> Database.courses d) ∧
  (∀ r, r ∈ Database.updates d →
        Database.update_course_id r ∈ Database.course_id <$> Database.courses d) ∧
  (∀ r, r ∈ Database.documents d →
        Database.document_course_id r ∈ Database.course_id <$> Database.courses d).

(** The writes that the code makes to the database: [add_update],
    [add_document], and the insertion of the update flow. *)
Inductive Write :=
| WriteUpdate (now course_name_ section_ content_ category_ ciclo_ modulo_ : string)
| WriteDocument (now course_name_ section_ file_path_ title_ category_ ciclo_ modulo_ : string)
| WriteFlow (now course_name_ content_ category_ ciclo_ modulo_ section_ : string).

Definition apply_write (d : Database.Db) (w : Write) : Database.Db :=
  match w with
  | WriteUpdate now c sec content cat ciclo modulo =>
      (Database.add_update d now c sec content cat ciclo modulo).1
  | WriteDocument now c sec path title cat ciclo modulo =>
      (Database.add_document d now c sec path title cat ciclo modulo).1
  | WriteFlow now c content cat ciclo modulo sec =>
      default d (Database.insert_update d now c content cat ciclo modulo sec)
  end.

(** ** The events of a turn *)

(** The number of texts sent to the user among the events. *)
Definition replies (events : list Event) : nat :=
  length (filter (λ e, is_invoke e = false) events).

(** What a handler adds to the events of a turn: at most [n] calls of
    the model and at most [m] replies. *)
Definition emits (handler : M unit) (n m : nat) : Prop :=
  ∀ t, ∃ new, events (handler t).2 = events t ++ new ∧
              (calls new ≤ n)%nat ∧ (replies new ≤ m)%nat.

Ltac count_events :=
  unfold calls, replies in *; rewrite ?filter_app, ?length_app; simpl; lia.

Ltac solve_emits :=
  first
    [ exists []; rewrite app_nil_r; split; [reflexivity | split; count_events]
    | eexists; split; [rewrite <- ?app_assoc; reflexivity | split; count_events] ].

(** A handler that ends with another one. *)
Ltac emits_with H :=
  let new' := fresh "new" in
  let Hc := fresh "Hc" in
  let Hr := fresh "Hr" in
  destruct H as (new' & -> & Hc & Hr); cbn [events];
  eexists; split; [rewrite <- ?app_assoc; reflexivity | split; count_events].

(** The handler leaves the courses and the documents alone, and adds
    at most one update, for a course of the database. *)
Definition appends_an_update_at_most (d d' : Database.Db) : Prop :=
  Database.courses d' = Database.courses d ∧
  Database.documents d' = Database.documents d ∧
  (Database.updates d' = Database.updates d ∨
   ∃ row, Database.updates d' = Database.updates d ++ [row] ∧
          Database.update_course_id row ∈ Database.course_id <$> Database.courses d).

(** ** Steps of the two flows *)

(** The session is at the last step of the update flow, with every
    field of the update filled in. *)
Definition awaiting_module (st : State) (c sec content cat ciclo : string) : Prop :=
  Py.truthy_flag (updating_course st) = true ∧
  update_step st = Some "modulo_selection" ∧
  update_course st = Some c ∧ Py.truthy c = true ∧
  section st = Some sec ∧ Py.truthy sec = true ∧
  update_content st = Some content ∧ Py.truthy content = true ∧
  update_category st = Some cat ∧ Py.truthy cat = true ∧
  update_ciclo st = Some ciclo ∧ Py.truthy ciclo = true.

(** The message goes through the reset keyword and the moderation of
    [handle_message]. *)
Definition accepted (env : Env) (st : State) (update : Update) (m : string) : Prop :=
  text update = Some m ∧ Py.truthy m = true ∧
  is_menu (Some m) = false ∧
  (Moderator.detect_inappropriate_content (llm env 0%nat) m).1 = true.

(** The session waits for the name of a course. *)
Definition awaiting_course (st : State) : Prop :=
  Py.truthy_flag (updating_course st) = false ∧
  waiting_for_language st = false ∧
  waiting_for_course st = true.

(** ** The data of the sessions *)






(** ** More concrete instances *)

(** A database with two courses. *)
Definition sample_db : Database.Db :=
  Database.mkDb
    [Database.mkCourseRow 1 "Algoritmos" (Some "G1");
     Database.mkCourseRow 2 "Fisica" (Some "G2")]
    [Database.mkUpdateRow 1 "Examen parcial el lunes" "EVALUACIÓN" (Some "20241") (Some "A")
       (Some "G1") "2024-03-01 10:00:00";
     Database.mkUpdateRow 1 "Tarea 2 publicada" "TAREA" (Some "20241") (Some "B")
       (Some "G3") "2024-03-05 09:00:00";
     Database.mkUpdateRow 2 "Clase suspendida" "GENERAL" (Some "20242") (Some "A")
       (Some "G2") "2024-02-01 08:00:00"]
    [Database.mkDocumentRow 1 "Silabo" "s3://cursos/algoritmos/20241/A/g1/silabo.pdf"
       "SÍLABO" (Some "20241") (Some "A") None "2024-01-10 12:00:00"].

(** A model that lets every message through, finds no course and
    answers [A] for the module. *)
Definition helpful_env : Env :=
  mkEnv (λ _ request,
           match request with
           | LLM.IdentifyModule _ => Some " A "
           | LLM.IdentifyCourse _ _ => Some "NO_MATCH"
           | _ => Some "APPROPRIATE"
           end) "2024-03-06 11:00:00".

(** A session at the last step of the update flow. *)
Definition at_module_step (c : string) : State :=
  set_update_ciclo (Some "20241")
    (set_section (Some "G1")
       (set_update_category (Some "TAREA")
          (set_update_content (Some "Tarea 3 publicada")
             (set_update_step (Some "modulo_selection")
                (set_update_course (Some c)
                   (set_updating_course (Some true) create_initial_state)))))).

Definition at_course_step : State :=
  set_waiting_for_course true (set_waiting_for_language false create_initial_state).

(** A client of S3 that accepts every request. *)
Definition sample_client : S3.Client :=
  S3.mkClient (Some "cursos") (λ s, s) (λ _, true) (λ _ _ _, Some tt)
    (λ _ _, Some ["algoritmos/20241/A/g_1/silabo.pdf"]).

(* ===================================================================== *)
(** * Properties *)
(* ===================================================================== *)

(** ** The format of a cycle *)




Lemma count_digits_length s : (count_digits s ≤ String.length s)%nat.
Proof. induction s as [|c r IH]; simpl; [lia|]. destruct (is_digit c); lia. Qed.












(** ** The moderation gate *)

Lemma append_nil s : "" +:+ s = s.
Proof. reflexivity. Qed.

Lemma append_cons c s t : String c s +:+ t = String c (s +:+ t).
Proof. reflexivity. Qed.




Lemma warning_message_nonempty reason : Moderator.warning_message reason ≠ "".
Proof. done. Qed.



(** ** Sessions of the bot *)

Lemma save_update_inv env messages t :
  session_inv (state t) → session_inv (state (save_update env messages t).2).
Proof.
  unfold save_update. intros Hinv. run_handler; try done.
  all: destruct Hinv as (? & ? & ? & ?); repeat split; simpl in *; try done; try tauto. 
Qed.

Lemma handle_update_flow_inv env update t :
  session_inv (state t) → session_inv (state (handle_update_flow env update t).2).
Proof.
  unfold handle_update_flow. intros Hinv. run_handler; try done.
  all: try (apply save_update_inv).
  all: solve_inv Hinv.
Qed.

Lemma after_course_selection_inv env update messages t :
  waiting_for_language (state t) = false →
  session_inv (state t) →
  session_inv (state (after_course_selection env update messages t).2).
Proof.
  unfold after_course_selection. intros HL Hinv. run_handler; try done.
  all: solve_inv Hinv.
Qed.

Lemma handle_message_inv env update t :
  session_inv (state t) → session_inv (state (handle_message env update t).2).
Proof.
  unfold handle_message. intros Hinv. run_handler; try done.
  all: try (apply handle_update_flow_inv).
  all: try (apply after_course_selection_inv; [done|]).
  all: solve_inv Hinv.
Qed.

Lemma start_inv t : session_inv (state t) → session_inv (state (start t).2).
Proof. unfold start. intros Hinv. run_handler; solve_inv Hinv. Qed.

Lemma update_course_command_inv t :
  session_inv (state t) → session_inv (state (update_course_command t).2).
Proof. unfold update_course_command. intros Hinv. run_handler; solve_inv Hinv. Qed.

Lemma language_callback_inv data t :
  session_inv (state t) → session_inv (state (language_callback data t).2).
Proof. unfold language_callback. intros Hinv. run_handler; solve_inv Hinv. Qed.

Lemma create_initial_state_inv : session_inv create_initial_state.
Proof. by repeat split. Qed.

Lemma get_user_state_session us user_id :
  (∀ u st, us !! u = Some st → session_inv st) →
  let st := default create_initial_state (us !! user_id) in
  get_user_state us user_id = (<[user_id := st]> us, st) ∧ session_inv st.
Proof.
  intros Hus st. assert (Hst : session_inv st).
  { unfold st. destruct (us !! user_id) eqn:E; simpl; eauto using create_initial_state_inv. }
  split; [|done]. unfold get_user_state.
  assert (Hlook : (match us !! user_id with
                   | Some _ => us
                   | None => <[user_id := create_initial_state]> us
                   end) !! user_id = Some st).
  { unfold st. destruct (us !! user_id) eqn:E; simpl; [done|]. by rewrite lookup_insert_eq. }
  rewrite Hlook. simpl.
  destruct Hst as (_ & Hm & _). rewrite Hm. simpl.
  f_equal. destruct (us !! user_id) eqn:E; [done|]. by rewrite insert_insert_eq.
Qed.

Lemma run_session user_id handler w :
  world_inv w →
  let st := session w user_id in
  let t := (handler (mkTurn st (database w) [])).2 in
  run user_id handler w = (mkWorld (<[user_id := state t]> (user_states w)) (db t), events t).
Proof.
  intros Hw st t. unfold run.
  destruct (get_user_state_session (user_states w) user_id Hw) as [-> _].
  fold (session w user_id). fold st. fold t. by rewrite insert_insert_eq.
Qed.

Lemma run_inv user_id handler w :
  world_inv w →
  (∀ t, session_inv (state t) → session_inv (state (handler t).2)) →
  world_inv (run user_id handler w).1.
Proof.
  intros Hw Hh. rewrite run_session by done.
  intros u st. simpl. destruct (decide (user_id = u)) as [->|Hne].
  - rewrite lookup_insert_eq. intros [= <-]. apply Hh. simpl.
    unfold session. destruct (user_states w !! u) eqn:E; simpl; eauto using create_initial_state_inv.
  - rewrite lookup_insert_ne by done. apply Hw.
Qed.

Lemma dispatch_inv env input w : world_inv w → world_inv (dispatch env input w).1.
Proof.
  intros Hw. destruct input; cbn [dispatch]; apply run_inv; try done.
  - apply start_inv.
  - apply update_course_command_inv.
  - apply handle_message_inv.
  - apply language_callback_inv.
Qed.

Lemma reachable_inv w : reachable w → world_inv w.
Proof.
  induction 1 as [d|env input w _ IH].
  - intros u st. simpl. by rewrite lookup_empty.
  - by apply dispatch_inv.
Qed.

Lemma session_reachable_inv w user_id : reachable w → session_inv (session w user_id).
Proof.
  intros Hw. unfold session.
  destruct (user_states w !! user_id) eqn:E; simpl.
  - by eapply reachable_inv.
  - apply create_initial_state_inv.
Qed.


(** ** Modes of a session *)




(** Claim C3 does not hold as stated: the command /update, sent to a
    session in its initial state, leads to a state in which both
    [waiting_for_language] and [updating_course] are set. *)
Lemma update_command_leaves_language_flag_set :
  let w := (dispatch quiet_env (UpdateCommand "u1") (mkWorld ∅ empty_db)).1 in
  reachable w ∧
  ∃ st, user_states w !! "u1" = Some st ∧
        waiting_for_language st = true ∧
        Py.truthy_flag (updating_course st) = true ∧
        ¬ at_most_one_mode st.
Proof.
  intros w. split; [apply reachable_step, reachable_init|].
  eexists. split; [by vm_compute|].
  split; [done|]. split; [done|].
  unfold at_most_one_mode. vm_compute. lia.
Qed.

(** Claim C3, amended.  In every session of a world reached from the
    initial one by any sequence of /start, /update, language buttons and
    messages, [update_step] is set if and only if the session is in the
    update flow, and a session that waits for a language waits neither
    for a section, nor for a cycle, nor for a module.  (The flags
    [waiting_for_language], [waiting_for_course] and [updating_course]
    may be set together.) *)
Theorem reachable_session_modes (w : World) (user_id : string) (st : State) :
  reachable w →
  user_states w !! user_id = Some st →
  (update_step st ≠ None ↔ in_update_flow st) ∧
  (waiting_for_language st = true →
     Py.truthy_flag (waiting_for_section st) = false ∧
     Py.truthy_flag (waiting_for_ciclo st) = false ∧
     Py.truthy_flag (waiting_for_modulo st) = false).
Proof.
  intros Hw Hst. destruct (reachable_inv w Hw user_id st Hst) as (_ & _ & H1 & H2).
  done.
Qed.

Lemma reachable_session_modes_witness :
  let w := (dispatch quiet_env (UpdateCommand "u1") (mkWorld ∅ empty_db)).1 in
  ∃ st, reachable w ∧ user_states w !! "u1" = Some st ∧
        (update_step st ≠ None ↔ in_update_flow st) ∧
        update_step st = Some "course_selection".
Proof.
  intros w. eexists.
  assert (Hw : reachable w) by (apply reachable_step, reachable_init).
  assert (Hst : user_states w !! "u1" = Some _) by (vm_compute; reflexivity).
  split; [exact Hw|]. split; [exact Hst|].
  split; [exact (proj1 (reachable_session_modes w "u1" _ Hw Hst)) | reflexivity].
Defined.

(** ** The update flow *)

(** Claim C7.  When a session of the update flow is at the step
    [content_input] and the moderation check rejects the message of the
    turn, the turn leaves the session as it was (so [update_step] is
    still [content_input] and [update_content] is what it was), leaves
    the database as it was, and never asks for a category suggestion. *)
Theorem rejected_update_content_stays_in_place
    (env : Env) (st : State) (d : Database.Db) (update : Update) (m : string) :
  in_update_flow st →
  update_step st = Some "content_input" →
  text update = Some m →
  is_menu (Some m) = false →
  moderation_rejects env m →
  let t := (handle_message env update (mkTurn st d [])).2 in
  state t = st ∧
  db t = d ∧
  update_step (state t) = Some "content_input" ∧
  update_content (state t) = update_content st ∧
  forallb (λ e, negb (is_suggest e)) (events t) = true.
Proof.
  intros Hflow Hstep Htext Hmenu Hrej t.
  unfold in_update_flow, moderation_rejects in *.
  assert (H : state t = st ∧ db t = d ∧ forallb (λ e, negb (is_suggest e)) (events t) = true).
  { unfold t, handle_message, handle_update_flow. step_handler.
    rewrite ?Htext, ?Hmenu, ?Hflow, ?Hstep. run_handler; try done.
    all: rewrite ?negb_false_iff in *.
    all: change (calls []) with 0%nat in *.
    all: change (calls [Invoke (LLM.Moderate m)]) with 1%nat in *.
    all: destruct Hrej; congruence. }
  destruct H as (-> & -> & ->). done.
Qed.

Lemma rejected_update_content_stays_in_place_witness :
  let update := mkUpdate "u1" (Some "texto ofensivo") false in
  in_update_flow awaiting_update_content ∧
  update_step awaiting_update_content = Some "content_input" ∧
  text update = Some "texto ofensivo" ∧
  is_menu (Some "texto ofensivo") = false ∧
  moderation_rejects strict_env "texto ofensivo" ∧
  state (handle_message strict_env update (mkTurn awaiting_update_content empty_db [])).2
  = awaiting_update_content.
Proof.
  intros update.
  assert (Hrej : moderation_rejects strict_env "texto ofensivo") by (left; reflexivity).
  split; [reflexivity|]. split; [reflexivity|]. split; [reflexivity|].
  split; [reflexivity|]. split; [exact Hrej|].
  exact (proj1 (rejected_update_content_stays_in_place strict_env awaiting_update_content
                  empty_db update "texto ofensivo" eq_refl eq_refl eq_refl eq_refl Hrej)).
Defined.

Lemma in_list_elem x l : Py.in_list x l = true ↔ x ∈ l.
Proof.
  unfold Py.in_list. induction l as [|y l IH]; simpl.
  - split; [done|]. by intros ?%not_elem_of_nil.
  - rewrite orb_true_iff, IH, String.eqb_eq, elem_of_cons. done.
Qed.

Lemma affirmative_not_menu m :
  Py.in_list (Py.lower m) affirmative_tokens = true → is_menu (Some m) = false.
Proof.
  intros H. apply in_list_elem in H. unfold is_menu.
  assert (Py.in_list (Py.lower m) ["menu"; "/menu"] = false) as ->; [|by rewrite andb_false_r].
  unfold affirmative_tokens in H. set_unfold in H.
  destruct_or! H; try done; rewrite H; reflexivity.
Qed.

(** Claim C9.  When the content of an update is accepted, the session
    goes to the step [category_confirmation] with the suggestion of the
    model as pending category; a reply that is one of sí, si, yes, y,
    arí, ari (in any case of letters) then keeps this suggestion, exactly
    as the model gave it, as the category of the update and goes on to
    the cycle: nothing compares it with the closed set of categories.
    The step [category_input], on the contrary, goes on to the cycle only
    with a category of the closed set. *)
Theorem confirmed_suggestion_is_stored_verbatim :
  (∀ (env env' : Env) (st : State) (d d' : Database.Db) (update update' : Update)
     (m m' : string),
     in_update_flow st →
     update_step st = Some "content_input" →
     text update = Some m →
     is_menu (Some m) = false →
     Py.truthy (Py.strip m) = true →
     moderation_approves env m →
     text update' = Some m' →
     Py.in_list (Py.lower m') affirmative_tokens = true →
     (Moderator.detect_inappropriate_content (llm env' 0%nat) m').1 = true →
     let suggestion := LLMService.suggest_category (llm env 2%nat) m in
     let st1 := state (handle_message env update (mkTurn st d [])).2 in
     let st2 := state (handle_message env' update' (mkTurn st1 d' [])).2 in
     update_step st1 = Some "category_confirmation" ∧
     update_category st1 = Some suggestion ∧
     update_step st2 = Some "ciclo_selection" ∧
     update_category st2 = Some suggestion) ∧
  (∀ (env : Env) (st : State) (d : Database.Db) (update : Update),
     in_update_flow st →
     update_step st = Some "category_input" →
     let st' := state (handle_message env update (mkTurn st d [])).2 in
     update_step st' = Some "ciclo_selection" →
     ∃ category, update_category st' = Some category ∧ category ∈ closed_categories).
Proof.
  split.
  - intros env env' st d d' update update' m m' Hflow Hstep Htext Hmenu Hstrip
      [Hgate Hcheck] Htext' Hyes Hgate' suggestion st1 st2.
    unfold in_update_flow in *.
    assert (Hm : Py.truthy m = true) by (by destruct m).
    assert (Hst1 : st1 = set_update_step (Some "category_confirmation")
                           (set_update_category (Some suggestion)
                              (set_update_content (Some (Py.strip m)) st))).
    { unfold st1, suggestion, handle_message, handle_update_flow. step_handler.
      rewrite ?Htext, ?Hmenu, ?Hflow, ?Hstep. run_handler.
      all: rewrite ?negb_true_iff, ?negb_false_iff in *.
      all: change (calls []) with 0%nat in *.
      all: change (calls [Invoke (LLM.Moderate m)]) with 1%nat in *.
      all: try congruence.
      done. }
    assert (Hst2 : st2 = set_update_step (Some "ciclo_selection") st1).
    { pose proof (affirmative_not_menu m' Hyes) as Hmenu'.
      unfold st2, handle_message, handle_update_flow. step_handler.
      rewrite ?Htext', ?Hmenu'. rewrite Hst1. cbn [updating_course update_step language
        set_update_step set_update_category set_update_content can_return_to_menu].
      rewrite Hflow. fold affirmative_tokens. rewrite Hyes. run_handler.
      all: rewrite ?negb_true_iff, ?negb_false_iff in *.
      all: change (calls []) with 0%nat in *.
      all: try congruence.
      all: try (destruct m'; [by vm_compute in Hyes | done]). }
    rewrite Hst2, Hst1. done.
  - intros env st d update Hflow Hstep st' Hnext.
    unfold in_update_flow in *.
    unfold st', handle_message, handle_update_flow in *. step_handler.
    rewrite ?Hflow, ?Hstep in *.
    revert Hnext. run_handler; try done; try congruence.
    all: intros _; eexists; split; [done|].
    all: by apply in_list_elem.
Qed.

Lemma confirmed_suggestion_is_stored_verbatim_witness :
  let update := mkUpdate "u1" (Some "Examen parcial el lunes") false in
  let update' := mkUpdate "u1" (Some "SÍ") false in
  let st1 := state (handle_message suggesting_env update
                      (mkTurn awaiting_update_content empty_db [])).2 in
  let st2 := state (handle_message suggesting_env update' (mkTurn st1 empty_db [])).2 in
  in_update_flow awaiting_update_content ∧
  update_step awaiting_update_content = Some "content_input" ∧
  moderation_approves suggesting_env "Examen parcial el lunes" ∧
  Py.in_list (Py.lower "SÍ") affirmative_tokens = true ∧
  LLMService.suggest_category (llm suggesting_env 2%nat) "Examen parcial el lunes" = "PARCIAL" ∧
  ("PARCIAL" ∉ closed_categories) ∧
  update_category st2
  = Some (LLMService.suggest_category (llm suggesting_env 2%nat) "Examen parcial el lunes").
Proof.
  intros update update' st1 st2.
  assert (Happ : moderation_approves suggesting_env "Examen parcial el lunes")
    by (split; reflexivity).
  split; [reflexivity|]. split; [reflexivity|]. split; [exact Happ|].
  split; [reflexivity|]. split; [reflexivity|].
  split; [by intros ?%in_list_elem|].
  exact (proj2 (proj2 (proj2
    (proj1 confirmed_suggestion_is_stored_verbatim suggesting_env suggesting_env
       awaiting_update_content empty_db empty_db update update'
       "Examen parcial el lunes" "SÍ"
       eq_refl eq_refl eq_refl eq_refl eq_refl Happ eq_refl eq_refl eq_refl)))).
Defined.

(** ** Questions about courses *)

(** ** Substrings *)

Lemma append_assoc (s t u : string) : (s +:+ t) +:+ u = s +:+ (t +:+ u).
Proof. induction s as [|c s IH]; rewrite ?append_nil, ?append_cons; congruence. Qed.

Lemma prefix_append (needle rest : string) : String.prefix needle (needle +:+ rest) = true.
Proof.
  induction needle as [|c n IH]; [by destruct ("" +:+ rest)|].
  rewrite append_cons. cbn [String.prefix]. by destruct (ascii_dec c c).
Qed.

Lemma contains_here hay needle : String.prefix needle hay = true → Py.contains hay needle = true.
Proof. intros H. destruct hay; cbn [Py.contains]; rewrite H; done. Qed.

Lemma contains_append_r pre hay needle :
  Py.contains hay needle = true → Py.contains (pre +:+ hay) needle = true.
Proof.
  intros H. induction pre as [|c p IH]; [done|].
  rewrite append_cons. cbn [Py.contains]. rewrite IH. apply orb_true_r.
Qed.

Lemma contains_middle pre needle suf : Py.contains (pre +:+ needle +:+ suf) needle = true.
Proof. apply contains_append_r, contains_here, prefix_append. Qed.

Lemma append_nil_r (s : string) : s +:+ "" = s.
Proof. induction s as [|c s IH]; rewrite ?append_nil, ?append_cons; congruence. Qed.

Lemma contains_self s : Py.contains s s = true.
Proof. rewrite <- (append_nil_r s) at 1. apply contains_here, prefix_append. Qed.



(** ** The names of the courses *)

Lemma keys_setitem {V} (d : list (string * V)) k v x :
  x ∈ Database.keys (Database.setitem d k v) ↔ x = k ∨ x ∈ Database.keys d.
Proof.
  unfold Database.keys. induction d as [|[k' v'] d IH]; simpl.
  - rewrite elem_of_cons. split; [intros [?|?%not_elem_of_nil]; tauto | tauto].
  - destruct (String.eqb k' k) eqn:E; simpl.
    + apply String.eqb_eq in E as ->. rewrite !elem_of_cons. tauto.
    + rewrite !elem_of_cons, IH. tauto.
Qed.

Lemma keys_foldl_setitem {V} (entry : Database.CourseRow → V) rows acc x :
  x ∈ Database.keys
        (foldl (λ d row, Database.setitem d (Database.course_name row) (entry row)) acc rows)
  ↔ x ∈ Database.keys acc ∨ x ∈ Database.course_name <$> rows.
Proof.
  revert acc. induction rows as [|row rows IH]; intros acc; simpl.
  - split; [tauto | intros [?|?%not_elem_of_nil]; tauto].
  - rewrite IH, keys_setitem, elem_of_cons. tauto.
Qed.

Lemma available_courses_names d x :
  x ∈ available_courses d ↔ x ∈ Database.course_name <$> Database.courses d.
Proof.
  unfold available_courses, Database.get_courses.
  rewrite keys_foldl_setitem. split; [intros [?%not_elem_of_nil|?]; tauto | tauto].
Qed.




(** ** Floating-point scores *)

Section FloatFacts.

Local Open Scope Q_scope.

Lemma pow2_pos (e : Z) : 0 < 2 ^ e.
Proof. by apply Qpower_0_lt. Qed.

Lemma pow2_le (a b : Z) : (a ≤ b)%Z → 2 ^ a <= 2 ^ b.
Proof. intros H. by apply Qpower_le_compat_l. Qed.

Lemma pow2_lt (a b : Z) : (a < b)%Z → 2 ^ a < 2 ^ b.
Proof. intros H. by apply Qpower_lt_compat_l. Qed.

Lemma pow2_plus (a b : Z) : 2 ^ (a + b) == 2 ^ a * 2 ^ b.
Proof. by apply Qpower_plus. Qed.

Lemma pow2_inject (n : Z) : (0 ≤ n)%Z → inject_Z (2 ^ n) == 2 ^ n.
Proof. intros H. by rewrite Zpower_Qpower. Qed.

Lemma pow2_lt_inv (a b : Z) : 2 ^ a < 2 ^ b → (a < b)%Z.
Proof. intros H. by apply (Qpower_lt_compat_l_inv 2). Qed.

(** ** The exponent of a positive number *)

Lemma floor_log2_bounds (x : Q) :
  0 < x → 2 ^ Float.floor_log2 x <= x ∧ x < 2 ^ (Float.floor_log2 x + 1).
Proof.
  intros Hx. unfold Float.floor_log2.
  destruct x as [n d]. unfold Qlt in Hx. simpl in Hx. rewrite Z.mul_1_r in Hx.
  cbn [Qnum Qden].
  set (ln := Z.log2 n). set (ld := Z.log2 (Z.pos d)).
  assert (Hn : (2 ^ ln ≤ n < 2 ^ (ln + 1))%Z).
  { unfold ln. pose proof (Z.log2_spec n Hx). lia. }
  assert (Hd : (2 ^ ld ≤ Z.pos d < 2 ^ (ld + 1))%Z).
  { unfold ld. pose proof (Z.log2_spec (Z.pos d) ltac:(lia)). lia. }
  assert (Hln : (0 ≤ ln)%Z) by apply Z.log2_nonneg.
  assert (Hld : (0 ≤ ld)%Z) by apply Z.log2_nonneg.
  assert (Hq : n # d == inject_Z n / inject_Z (Z.pos d)) by apply Qmake_Qdiv.
  assert (Hdpos : 0 < inject_Z (Z.pos d)) by (unfold Qlt; simpl; lia).
  (* n / d < 2 ^ (ln - ld + 1) *)
  assert (Hup : n # d < 2 ^ (ln - ld + 1)).
  { rewrite Hq. apply Qlt_shift_div_r; [done|].
    apply Qlt_le_trans with (2 ^ (ln - ld + 1) * 2 ^ ld).
    - rewrite <- pow2_plus. replace (ln - ld + 1 + ld)%Z with (ln + 1)%Z by lia.
      rewrite <- pow2_inject by lia. rewrite <- Zlt_Qlt. lia.
    - apply Qmult_le_l; [apply pow2_pos|].
      rewrite <- pow2_inject by lia. rewrite <- Zle_Qle. lia. }
  (* 2 ^ (ln - ld - 1) <= n / d *)
  assert (Hlow : 2 ^ (ln - ld - 1) <= n # d).
  { rewrite Hq. apply Qle_shift_div_l; [done|].
    apply Qle_trans with (2 ^ (ln - ld - 1) * 2 ^ (ld + 1)).
    - apply Qmult_le_l; [apply pow2_pos|].
      rewrite <- pow2_inject by lia. rewrite <- Zle_Qle. lia.
    - rewrite <- pow2_plus. replace (ln - ld - 1 + (ld + 1))%Z with ln by lia.
      rewrite <- pow2_inject by lia. rewrite <- Zle_Qle. lia. }
  destruct (Qle_bool (2 ^ (ln - ld)) (n # d)) eqn:E.
  - apply Qle_bool_iff in E. done.
  - assert (Hlt : n # d < 2 ^ (ln - ld)).
    { apply Qnot_le_lt. intros H. apply Qle_bool_iff in H. congruence. }
    split; [done|]. by replace (ln - ld - 1 + 1)%Z with (ln - ld)%Z by lia.
Qed.

Lemma floor_log2_unique (x : Q) (e : Z) :
  2 ^ e <= x → x < 2 ^ (e + 1) → Float.floor_log2 x = e.
Proof.
  intros H1 H2.
  assert (Hx : 0 < x) by (eapply Qlt_le_trans; [apply (pow2_pos e)|done]).
  destruct (floor_log2_bounds x Hx) as [H3 H4].
  assert (Float.floor_log2 x < e + 1)%Z.
  { apply pow2_lt_inv. eapply Qle_lt_trans; done. }
  assert (e < Float.floor_log2 x + 1)%Z.
  { apply pow2_lt_inv. eapply Qle_lt_trans; done. }
  lia.
Qed.

Lemma floor_log2_mono (x y : Q) :
  0 < x → x <= y → (Float.floor_log2 x ≤ Float.floor_log2 y)%Z.
Proof.
  intros Hx Hxy.
  assert (Hy : 0 < y) by (eapply Qlt_le_trans; done).
  destruct (floor_log2_bounds x Hx) as [H1 _].
  destruct (floor_log2_bounds y Hy) as [_ H2].
  assert (Float.floor_log2 x < Float.floor_log2 y + 1)%Z; [|lia].
  apply pow2_lt_inv. eapply Qle_lt_trans; [done|]. eapply Qle_lt_trans; done.
Qed.

(** ** Rounding to the nearest integer *)

Lemma rne_floor (x : Q) :
  Float.rne x = Qfloor x ∨ Float.rne x = (Qfloor x + 1)%Z.
Proof. unfold Float.rne. destruct (Qcompare _ _); [destruct (Z.even _)| |]; auto. Qed.

Lemma rne_integer (n : Z) : Float.rne (inject_Z n) = n.
Proof.
  unfold Float.rne. rewrite Qfloor_Z.
  destruct (Qcompare_spec (inject_Z n - inject_Z n) (1 # 2)) as [E|E|E];
    [exfalso; lra | done | exfalso; lra].
Qed.

Lemma rne_mono (x y : Q) : x <= y → (Float.rne x ≤ Float.rne y)%Z.
Proof.
  intros Hxy. pose proof (Qfloor_resp_le x y Hxy) as Hf.
  destruct (Z.eq_dec (Qfloor x) (Qfloor y)) as [Heq|Hne].
  - unfold Float.rne. rewrite <- Heq.
    assert (Hfrac : x - inject_Z (Qfloor x) <= y - inject_Z (Qfloor x)) by lra.
    destruct (Qcompare_spec (x - inject_Z (Qfloor x)) (1 # 2)) as [E1|E1|E1];
    destruct (Qcompare_spec (y - inject_Z (Qfloor x)) (1 # 2)) as [E2|E2|E2];
      try destruct (Z.even (Qfloor x)); try lia; exfalso; lra.
  - destruct (rne_floor x) as [->| ->]; destruct (rne_floor y) as [->| ->]; try lia.
    (* rne x = floor x + 1 and rne y = floor y with floor x < floor y *)
  Qed.

Lemma rne_le (x : Q) (n : Z) : x <= inject_Z n → (Float.rne x ≤ n)%Z.
Proof. intros H. rewrite <- (rne_integer n). by apply rne_mono. Qed.

Lemma rne_ge (x : Q) (n : Z) : inject_Z n <= x → (n ≤ Float.rne x)%Z.
Proof. intros H. rewrite <- (rne_integer n). by apply rne_mono. Qed.

(** ** Rounding to a format *)

Lemma round_pos_quantum fmt x :
  Float.round_pos fmt x = inject_Z (Float.rne (x / 2 ^ quantum fmt x)) * 2 ^ quantum fmt x.
Proof. reflexivity. Qed.

Lemma div_pow2_le (x y : Q) (q : Z) : x <= y → x / 2 ^ q <= y / 2 ^ q.
Proof.
  intros H. unfold Qdiv. apply Qmult_le_compat_r; [done|].
  apply Qlt_le_weak, Qinv_lt_0_compat, pow2_pos.
Qed.

Lemma div_pow2 (a q : Z) : 2 ^ a / 2 ^ q == 2 ^ (a - q).
Proof.
  unfold Qdiv. rewrite <- Qpower_opp, <- pow2_plus. by replace (a + - q)%Z with (a - q)%Z by lia.
Qed.

Lemma round_pos_nonneg fmt x : 0 <= x → 0 <= Float.round_pos fmt x.
Proof.
  intros Hx. rewrite round_pos_quantum.
  apply Qmult_le_0_compat; [|apply Qlt_le_weak, pow2_pos].
  change 0 with (inject_Z 0). rewrite <- Zle_Qle. apply rne_ge.
  apply Qle_shift_div_l; [apply pow2_pos|]. by rewrite Qmult_0_l.
Qed.

(** A number below [2^(e+1)] is rounded to at most [2^(e+1)], or to
    at most the least positive number when that is larger. *)
Lemma round_pos_upper fmt x (b : Z) :
  0 < x → x <= 2 ^ b → (quantum fmt x ≤ b)%Z → Float.round_pos fmt x <= 2 ^ b.
Proof.
  intros Hx Hb Hq. rewrite round_pos_quantum. set (q := quantum fmt x) in *.
  apply Qle_trans with (inject_Z (2 ^ (b - q)) * 2 ^ q).
  - apply Qmult_le_compat_r; [|apply Qlt_le_weak, pow2_pos].
    rewrite <- Zle_Qle. apply rne_le. rewrite pow2_inject by lia.
    rewrite <- div_pow2. by apply div_pow2_le.
  - rewrite pow2_inject by lia. rewrite <- pow2_plus.
    replace (b - q + q)%Z with b by lia. apply Qle_refl.
Qed.

Lemma round_pos_lower fmt x (b : Z) :
  2 ^ b <= x → (quantum fmt x ≤ b)%Z → 2 ^ b <= Float.round_pos fmt x.
Proof.
  intros Hb Hq. rewrite round_pos_quantum. set (q := quantum fmt x) in *.
  apply Qle_trans with (inject_Z (2 ^ (b - q)) * 2 ^ q).
  - rewrite pow2_inject by lia. rewrite <- pow2_plus.
    replace (b - q + q)%Z with b by lia. apply Qle_refl.
  - apply Qmult_le_compat_r; [|apply Qlt_le_weak, pow2_pos].
    rewrite <- Zle_Qle. apply rne_ge. rewrite pow2_inject by lia.
    rewrite <- div_pow2. by apply div_pow2_le.
Qed.

Lemma round_pos_mono fmt x y :
  valid_format fmt → 0 < x → x <= y → Float.round_pos fmt x <= Float.round_pos fmt y.
Proof.
  intros [Hprec Hemin] Hx Hxy.
  assert (Hy : 0 < y) by (eapply Qlt_le_trans; done).
  pose proof (floor_log2_mono x y Hx Hxy) as He.
  destruct (floor_log2_bounds x Hx) as [Hx1 Hx2].
  destruct (floor_log2_bounds y Hy) as [Hy1 Hy2].
  destruct (Z.eq_dec (quantum fmt x) (quantum fmt y)) as [Heq|Hne].
  - rewrite !round_pos_quantum, Heq.
    apply Qmult_le_compat_r; [|apply Qlt_le_weak, pow2_pos].
    rewrite <- Zle_Qle. apply rne_mono. by apply div_pow2_le.
  - assert (Hlt : (quantum fmt x < quantum fmt y)%Z) by (unfold quantum in *; lia).
    apply Qle_trans with (2 ^ Float.floor_log2 y).
    + apply round_pos_upper; [done| |unfold quantum in *; lia].
      apply Qle_trans with (2 ^ (Float.floor_log2 x + 1)); [by apply Qlt_le_weak|].
      apply pow2_le. unfold quantum in *. lia.
    + apply round_pos_lower; [done|unfold quantum in *; lia].
Qed.

Lemma round_zero fmt x : x == 0 → Float.round fmt x = 0.
Proof.
  intros H. unfold Float.round.
  destruct (Qcompare_spec x 0) as [E|E|E]; [done|exfalso; lra|exfalso; lra].
Qed.

Lemma round_positive fmt x : 0 < x → Float.round fmt x = Float.round_pos fmt x.
Proof.
  intros H. unfold Float.round.
  destruct (Qcompare_spec x 0) as [E|E|E]; [exfalso; lra|exfalso; lra|done].
Qed.

Lemma round_nonneg fmt x : 0 <= x → 0 <= Float.round fmt x.
Proof.
  intros H. destruct (Qlt_le_dec 0 x) as [Hpos|Hle].
  - rewrite round_positive by done. by apply round_pos_nonneg.
  - rewrite round_zero by lra. apply Qle_refl.
Qed.

(** Rounding is monotone on the numbers that are not negative. *)
Lemma round_mono fmt x y :
  valid_format fmt → 0 <= x → x <= y → Float.round fmt x <= Float.round fmt y.
Proof.
  intros Hfmt Hx Hxy. destruct (Qlt_le_dec 0 x) as [Hpos|Hle].
  - rewrite !round_positive by lra. by apply round_pos_mono.
  - rewrite (round_zero fmt x) by lra. apply round_nonneg. lra.
Qed.


(** 1 is a number of every format. *)
Lemma round_one fmt : valid_format fmt → Float.round fmt 1 == 1.
Proof.
  intros [Hprec Hemin]. rewrite round_positive by reflexivity.
  apply Qle_antisym.
  - rewrite <- (Qpower_0_r 2) at 2. apply round_pos_upper; [reflexivity|apply Qle_refl|].
    unfold quantum. rewrite (floor_log2_unique 1 0); [lia|apply Qle_refl|reflexivity].
  - rewrite <- (Qpower_0_r 2) at 1. apply round_pos_lower; [apply Qle_refl|].
    unfold quantum. rewrite (floor_log2_unique 1 0); [lia|apply Qle_refl|reflexivity].
Qed.

(** ** The score [1 / (1 + dist)] *)

Lemma add_one_ge fmt d : valid_format fmt → 0 <= d → 1 <= Float.add fmt 1 d.
Proof.
  intros Hfmt Hd. unfold Float.add. rewrite <- (round_one fmt Hfmt) at 1.
  apply round_mono; [done| |]; lra.
Qed.



Lemma fscore_antitone fmt d1 d2 :
  valid_format fmt → 0 <= d1 → d1 <= d2 → fscore fmt d2 <= fscore fmt d1.
Proof.
  intros Hfmt Hd1 Hd12.
  pose proof (add_one_ge fmt d1 Hfmt Hd1) as Hr1.
  assert (Hr12 : Float.add fmt 1 d1 <= Float.add fmt 1 d2).
  { unfold Float.add. apply round_mono; [done| |]; lra. }
  unfold fscore, Float.div.
  set (r1 := Float.add fmt 1 d1) in *. set (r2 := Float.add fmt 1 d2) in *.
  apply round_mono; [done| |].
  - apply Qle_shift_div_l; lra.
  - apply Qle_shift_div_l; [lra|].
    assert (E : 1 / r2 * r1 == r1 / r2) by (field; lra).
    rewrite E. apply Qle_shift_div_r; lra.
Qed.

End FloatFacts.

(** ** The content index *)

Section IndexFacts.

Context {vec : Type} (B : Backend vec).

Lemma insert_nearest_elem x l y :
  y ∈ insert_nearest x l ↔ y = x ∨ y ∈ l.
Proof.
  induction l as [|z l IH]; simpl.
  - rewrite elem_of_cons. split; [intros [?|?%not_elem_of_nil]; tauto | tauto].
  - destruct (Qle_bool x.1 z.1); rewrite !elem_of_cons; [tauto|]. rewrite IH. tauto.
Qed.

Lemma insert_nearest_length x l : length (insert_nearest x l) = S (length l).
Proof. induction l as [|z l IH]; simpl; [done|]. destruct (Qle_bool _ _); simpl; lia. Qed.

Lemma insert_nearest_sorted x l :
  StronglySorted by_distance l → StronglySorted by_distance (insert_nearest x l).
Proof.
  induction 1 as [|z l Hs IH Hz]; simpl.
  - repeat constructor.
  - destruct (Qle_bool x.1 z.1) eqn:E.
    + apply Qle_bool_iff in E. constructor; [by constructor|].
      constructor; [done|]. eapply Forall_impl; [exact Hz|].
      intros w Hw. unfold by_distance in *. lra.
    + assert (Hzx : (z.1 <= x.1)%Q).
      { apply Qlt_le_weak, Qnot_le_lt. intros H. apply Qle_bool_iff in H. congruence. }
      constructor; [done|]. apply list.Forall_forall. intros w Hw.
      apply insert_nearest_elem in Hw as [->|Hw]; [done|].
      rewrite list.Forall_forall in Hz. by apply Hz.
Qed.

Lemma nearest_first_elem l y : y ∈ nearest_first l ↔ y ∈ l.
Proof.
  unfold nearest_first. induction l as [|x l IH]; simpl; [done|].
  rewrite insert_nearest_elem, elem_of_cons, IH. done.
Qed.

Lemma nearest_first_length l : length (nearest_first l) = length l.
Proof.
  unfold nearest_first. induction l as [|x l IH]; simpl; [done|].
  by rewrite insert_nearest_length, IH.
Qed.

Lemma nearest_first_sorted l : StronglySorted by_distance (nearest_first l).
Proof.
  unfold nearest_first. induction l as [|x l IH]; simpl; [constructor|].
  by apply insert_nearest_sorted.
Qed.

(** ** The rows of [faiss_search] *)

Lemma entries_elem vectors q e :
  e ∈ entries B vectors q →
  ∃ n v, vectors !! n = Some v ∧ e = (l2sqr B q v, Z.of_nat n).
Proof.
  unfold entries. intros (n & v & -> & Hv)%elem_of_lookup_imap. eauto.
Qed.

Lemma faiss_search_full vectors q k :
  (k ≤ length vectors)%nat →
  faiss_search B vectors q k = take k (nearest_first (entries B vectors q)).
Proof.
  intros Hk. unfold faiss_search. fold (entries B vectors q).
  rewrite length_take_le by (rewrite nearest_first_length; unfold entries;
                             by rewrite length_imap).
  rewrite Nat.sub_diag. simpl. by rewrite app_nil_r.
Qed.

Lemma faiss_search_length vectors q k : length (faiss_search B vectors q k) = k.
Proof.
  unfold faiss_search. rewrite length_app, length_replicate, length_take. lia.
Qed.

Lemma faiss_search_elem vectors q k e :
  e ∈ faiss_search B vectors q k →
  (∃ n v, vectors !! n = Some v ∧ e = (l2sqr B q v, Z.of_nat n)) ∨
  e = (FLT_MAX, (-1)%Z).
Proof.
  unfold faiss_search. fold (entries B vectors q).
  intros [He|He]%elem_of_app.
  - left. apply entries_elem. apply nearest_first_elem.
    by eapply subseteq_take.
  - right. by apply elem_of_replicate in He as [-> _].
Qed.

Lemma FLT_MAX_nonneg : (0 <= FLT_MAX)%Q.
Proof. by vm_compute. Qed.

Lemma faiss_search_nonneg vectors q k e :
  distances_nonneg B → e ∈ faiss_search B vectors q k → (0 <= e.1)%Q.
Proof.
  intros Hd [(n & v & _ & ->)| ->]%faiss_search_elem; simpl; [apply Hd|apply FLT_MAX_nonneg].
Qed.

Lemma take_sorted {A} (R : A → A → Prop) (l : list A) k :
  StronglySorted R l → StronglySorted R (take k l).
Proof.
  intros H. revert k. induction H as [|x l Hs IH Hx]; intros [|k]; simpl; try constructor.
  - apply IH.
  - apply list.Forall_forall. intros y Hy.
    rewrite list.Forall_forall in Hx. apply Hx. by eapply subseteq_take.
Qed.

Lemma faiss_search_sorted vectors q k :
  (k ≤ length vectors)%nat → StronglySorted by_distance (faiss_search B vectors q k).
Proof.
  intros Hk. rewrite faiss_search_full by done. apply take_sorted, nearest_first_sorted.
Qed.

(** ** The loop of [search] *)

Lemma getitem_nat {A} (l : list A) (n : nat) : getitem l (Z.of_nat n) = l !! n.
Proof.
  unfold getitem. destruct (Z.leb_spec 0 (Z.of_nat n)); [|lia]. by rewrite Nat2Z.id.
Qed.

Lemma collect_valid self row results :
  (∀ e, e ∈ row → ∃ n : nat, e.2 = Z.of_nat n ∧
                   (n < length (texts self))%nat ∧ (n < length (metadata self))%nat) →
  collect B self row results = Some (results ++ (result_at B self <$> row)).
Proof.
  revert results. induction row as [|[d i] row IH]; intros results Hrow; simpl.
  - by rewrite app_nil_r.
  - destruct (Hrow (d, i)) as (n & Hi & Ht & Hm); [left|]. simpl in Hi. subst i.
    destruct (Z.ltb_spec (Z.of_nat n) (Z.of_nat (length (texts self)))); [|lia].
    unfold result_at. simpl. rewrite !getitem_nat.
    destruct (lookup_lt_is_Some_2 (texts self) n Ht) as [t ->].
    destruct (lookup_lt_is_Some_2 (metadata self) n Hm) as [m ->].
    rewrite IH; [|intros e He; apply Hrow; by right].
    simpl. by rewrite <- app_assoc.
Qed.

(** Whatever the loop returns comes from an entry of the row: the text
    and the metadata are found under the position of the entry, and
    the score is computed from its distance. *)
Lemma collect_entries self row results rs :
  collect B self row results = Some rs →
  ∀ r, r ∈ rs → r ∈ results ∨
    ∃ e, e ∈ row ∧
         getitem (texts self) e.2 = Some r.1.1 ∧
         getitem (metadata self) e.2 = Some r.1.2 ∧
         r.2 = score B e.1.
Proof.
  revert results. induction row as [|[d i] row IH]; intros results Hc r Hr; simpl in Hc.
  - left. by simplify_eq.
  - assert (Hnext : ∀ res, collect B self row res = Some rs →
              r ∈ res ∨ ∃ e, e ∈ (d, i) :: row ∧
                getitem (texts self) e.2 = Some r.1.1 ∧
                getitem (metadata self) e.2 = Some r.1.2 ∧ r.2 = score B e.1).
    { intros res Hres. destruct (IH _ Hres r Hr) as [?|(e & He & ?)]; [by left|].
      right. exists e. split; [by right|done]. }
    destruct (i <? Z.of_nat (length (texts self)))%Z; [|by apply Hnext].
    destruct (getitem (texts self) i) as [t|] eqn:Et; [|done].
    destruct (getitem (metadata self) i) as [m|] eqn:Em; [|done].
    destruct (Hnext _ Hc) as [Hin|?]; [|by right].
    apply elem_of_app in Hin as [?|Hin]; [by left|].
    right. apply list_elem_of_singleton in Hin as ->.
    exists (d, i). split; [left|done].
Qed.

Lemma search_entries self query k r :
  r ∈ search B self query k →
  ∃ q vectors e,
    e ∈ faiss_search B vectors q (Z.to_nat (Z.min k (Z.of_nat (length (texts self))))) ∧
    getitem (texts self) e.2 = Some r.1.1 ∧
    getitem (metadata self) e.2 = Some r.1.2 ∧
    r.2 = score B e.1.
Proof.
  unfold search. intros Hr.
  destruct (encode B [query]) as [[|q qs]|]; try by apply not_elem_of_nil in Hr.
  { destruct (index self); [|by apply not_elem_of_nil in Hr].
    destruct (length (texts self) =? 0)%nat; [by apply not_elem_of_nil in Hr|].
    destruct (_ <=? 0)%Z; by apply not_elem_of_nil in Hr. }
  destruct (index self) as [vectors|]; [|by apply not_elem_of_nil in Hr].
  destruct (length (texts self) =? 0)%nat; [by apply not_elem_of_nil in Hr|].
  destruct (_ <=? 0)%Z; [by apply not_elem_of_nil in Hr|].
  destruct (collect B self _ []) as [rs|] eqn:Hc; [|by apply not_elem_of_nil in Hr].
  simpl in Hr. destruct (collect_entries _ _ _ _ Hc r Hr) as [?%not_elem_of_nil|Hex]; [done|].
  destruct Hex as (e & He & ?). eauto 6.
Qed.

Lemma scores_sorted row :
  valid_format (fmt B) →
  (∀ e, e ∈ row → (0 <= e.1)%Q) →
  StronglySorted by_distance row →
  non_increasing ((λ e, score B e.1) <$> row).
Proof.
  intros Hfmt Hpos Hs. unfold non_increasing.
  induction Hs as [|e row Hs IH He]; simpl; constructor.
  - apply IH. intros e' He'. apply Hpos. by right.
  - apply list.Forall_forall. intros s (e' & -> & He')%list_elem_of_fmap.
    rewrite list.Forall_forall in He. apply fscore_antitone; [done| |by apply He].
    apply Hpos. left.
Qed.

(** Claim C5.  After [clear] and a call of [add_texts] with N texts that
    returns, [search] with any query that the encoder accepts and any
    [k] not below N returns exactly N results, and their scores are in
    non-increasing order.  The encoder is supposed to give one vector
    per text, and FAISS distances that are not negative. *)
Theorem search_returns_every_fragment_by_score
    (self self' : Index vec) (texts_ : list string) (metadata_ : option (list Meta))
    (query : string) (k : Z) :
  valid_format (fmt B) →
  distances_nonneg B →
  encodes_each_text B →
  aligned_call texts_ metadata_ →
  add_texts B (clear self) texts_ metadata_ = Some self' →
  is_Some (encode B [query]) →
  (Z.of_nat (length texts_) ≤ k)%Z →
  length (search B self' query k) = length texts_ ∧
  non_increasing (score_of <$> search B self' query k).
Proof.
  intros Hfmt Hdist Henc Hcall Hadd [qe Hq] Hk.
  unfold add_texts, clear in Hadd. simpl in Hadd.
  destruct (encode B texts_) as [embeddings|] eqn:Hemb; [|done].
  apply Henc in Hemb. injection Hadd as <-.
  assert (Hmeta : length (stored_metadata texts_ metadata_) = length texts_).
  { unfold stored_metadata, aligned_call in *.
    destruct metadata_ as [[|m ms]|]; rewrite ?length_fmap; done. }
  fold (stored_metadata texts_ metadata_).
  unfold search. rewrite Hq. cbn [index texts metadata].
  pose proof (Henc _ _ Hq) as Hqe. destruct qe as [|q [|? ?]]; try done.
  destruct (Nat.eqb_spec (length texts_) 0) as [H0|H0].
  { rewrite H0. split; [done|constructor]. }
  rewrite Z.min_r by lia.
  destruct (Z.leb_spec (Z.of_nat (length texts_)) 0); [lia|].
  rewrite Nat2Z.id.
  set (self' := mkIndex (Some embeddings) texts_ (stored_metadata texts_ metadata_)).
  set (row := faiss_search B embeddings q (length texts_)).
  assert (Hrow : collect B self' row [] = Some ([] ++ (result_at B self' <$> row))).
  { apply collect_valid. intros e He. unfold row in He.
    rewrite faiss_search_full in He by lia.
    apply subseteq_take, nearest_first_elem, entries_elem in He as (n & v & Hv & ->).
    exists n. apply lookup_lt_Some in Hv. simpl. rewrite Hmeta. split; [done|lia]. }
  rewrite Hrow. simpl. split.
  - unfold row. by rewrite length_fmap, faiss_search_length.
  - rewrite <- list_fmap_compose.
    apply (scores_sorted row); [done| |].
    + intros e He. by eapply faiss_search_nonneg.
    + apply faiss_search_sorted. lia.
Qed.


(** ** Alignment of the index *)

Lemma add_texts_aligned self self' texts_ metadata_ :
  encodes_each_text B → aligned self → aligned_call texts_ metadata_ →
  add_texts B self texts_ metadata_ = Some self' → aligned self'.
Proof.
  intros Henc [H1 H2] Hcall Hadd. unfold add_texts in Hadd.
  destruct (encode B texts_) as [embeddings|] eqn:Hemb; [|done].
  apply Henc in Hemb. injection Hadd as <-. unfold aligned. simpl.
  fold (stored_metadata texts_ metadata_).
  assert (Hmeta : length (stored_metadata texts_ metadata_) = length texts_).
  { unfold stored_metadata, aligned_call in *.
    destruct metadata_ as [[|m ms]|]; rewrite ?length_fmap; done. }
  rewrite !length_app, Hmeta, Hemb. lia.
Qed.

Lemma getitem_aligned {A C} (l : list A) (l' : list C) i x y :
  length l = length l' → getitem l i = Some x → getitem l' i = Some y →
  ∃ n, l !! n = Some x ∧ l' !! n = Some y.
Proof.
  unfold getitem. intros Hlen. rewrite Hlen.
  destruct (0 <=? i)%Z; [eauto|]. destruct (_ <=? i)%Z; [eauto|done].
Qed.

End IndexFacts.

(** ** Sequences of operations on the index *)

Section Alignment.

Context {vec : Type} (B : Backend vec).

Lemma stored_metadata_length texts_ metadata_ :
  aligned_call texts_ metadata_ →
  length (stored_metadata texts_ metadata_) = length texts_.
Proof.
  unfold stored_metadata, aligned_call.
  destruct metadata_ as [[|m ms]|]; rewrite ?length_fmap; done.
Qed.

Lemma run_ops_supplied (ops : list Op) :
  encodes_each_text B →
  Forall aligned_op ops →
  let self := foldl (apply_op B) init ops in
  aligned self ∧
  texts self = (supplied B ops).*1 ∧
  metadata self = (supplied B ops).*2.
Proof.
  intros Henc Hops. simpl. unfold supplied.
  induction ops as [|op ops IH] using rev_ind.
  { by repeat split. }
  apply Forall_app in Hops as [Hops Hop]. apply Forall_inv in Hop.
  rewrite !foldl_app. simpl.
  destruct (IH Hops) as (Hal & Ht & Hm).
  destruct op as [|texts_ metadata_]; simpl.
  { by repeat split. }
  simpl in Hop.
  destruct (add_texts B _ texts_ metadata_) as [self'|] eqn:Hadd; simpl.
  - pose proof (add_texts_aligned B _ _ _ _ Henc Hal Hop Hadd) as Hal'.
    unfold add_texts in Hadd.
    destruct (encode B texts_) as [embeddings|] eqn:Hemb; [|done].
    injection Hadd as <-. simpl.
    pose proof (stored_metadata_length _ _ Hop) as Hlen.
    split; [done|]. fold (stored_metadata texts_ metadata_).
    rewrite !fmap_app, fst_zip, snd_zip by lia. by rewrite Ht, Hm.
  - unfold add_texts in Hadd. destruct (encode B texts_); done.
Qed.

(** Claim C10.  After any sequence of [clear] and [add_texts] in which
    every call of [add_texts] passes no metadata, an empty list, or as
    many metadata as texts, the texts, the metadata and the vectors of
    the index are equally many, and every result of [search] pairs a
    text with the metadata that was supplied alongside it.  A call of
    [add_texts] on an aligned index with a non-empty list of metadata of
    another length than its texts leaves more (or fewer) texts than
    metadata. *)
Theorem aligned_calls_keep_texts_and_metadata_paired :
  encodes_each_text B →
  (∀ ops : list Op,
     Forall aligned_op ops →
     let self := foldl (apply_op B) init ops in
     length (texts self) = length (metadata self) ∧
     length (default [] (index self)) = length (texts self) ∧
     ∀ query k r, r ∈ search B self query k → (r.1.1, r.1.2) ∈ supplied B ops) ∧
  (∀ (self self' : Index vec) texts_ m ms,
     aligned self →
     length (m :: ms) ≠ length texts_ →
     add_texts B self texts_ (Some (m :: ms)) = Some self' →
     length (texts self') ≠ length (metadata self')).
Proof.
  intros Henc. split.
  - intros ops Hops self.
    destruct (run_ops_supplied ops Henc Hops) as ([H1 H2] & Ht & Hm).
    fold self in H1, H2, Ht, Hm. split; [done|]. split; [done|].
    intros query k r (q & vectors & e & _ & Hte & Hme & _)%search_entries.
    destruct (getitem_aligned _ _ _ _ _ H1 Hte Hme) as (n & Hn1 & Hn2).
    rewrite Ht in Hn1. rewrite Hm in Hn2.
    rewrite list_lookup_fmap in Hn1. rewrite list_lookup_fmap in Hn2.
    destruct (supplied B ops !! n) as [[t m']|] eqn:E; [|done].
    simpl in Hn1, Hn2. injection Hn1 as <-. injection Hn2 as <-.
    by eapply list_elem_of_lookup_2.
  - intros self self' texts_ m ms [H1 _] Hne Hadd. unfold add_texts in Hadd.
    destruct (encode B texts_); [|done]. injection Hadd as <-. simpl.
    rewrite !length_app. simpl in *. lia.
Qed.

End Alignment.

(** ** Concrete instances *)

Lemma valid_binary32 : valid_format Float.binary32.
Proof. split; simpl; lia. Qed.

Lemma valid_binary64 : valid_format Float.binary64.
Proof. split; simpl; lia. Qed.

Lemma toy_distances_nonneg fmt : distances_nonneg (toy_backend fmt).
Proof.
  intros q v. simpl. unfold toy_l2sqr.
  destruct (Qlt_le_dec (q - v) 0) as [Hneg|Hpos].
  - assert (E : ((q - v) * (q - v) == (v - q) * (v - q))%Q) by ring.
    rewrite E. apply Qmult_le_0_compat; lra.
  - by apply Qmult_le_0_compat.
Qed.

Lemma toy_encodes_each_text fmt : encodes_each_text (toy_backend fmt).
Proof. intros ts vs [= <-]. by rewrite length_fmap. Qed.

(** The rounding of module [Float] gives the scores that the Standard
    Library's specification of IEEE 754 gives. *)
Lemma score_agrees_with_SpecFloat :
  Forall (λ '(m, e),
            spec_score32 m e = Some (Qred (fscore Float.binary32 (inject_Z m * 2 ^ e))) ∧
            spec_score64 m e = Some (Qred (fscore Float.binary64 (inject_Z m * 2 ^ e))))
    [(0, 0); (1, -60); (1, -24); (3, -25); (1, -23); (1, 0); (3, 0); (12345, -10);
     (7, 100); (16777215, 104); (1, -149)].
Proof. repeat constructor; vm_compute; reflexivity. Qed.


Lemma search_returns_every_fragment_by_score_witness :
  let B := toy_backend Float.binary32 in
  let self := mkIndex (Some [1%Q]) ["viejo"] [[]] in
  let self' := mkIndex (Some [3 # 2 ^ 30; 5 # 2 ^ 30]) ["uno"; "dos y"] [[]; []] in
  valid_format (fmt B) ∧
  distances_nonneg B ∧
  encodes_each_text B ∧
  aligned_call ["uno"; "dos y"] None ∧
  add_texts B (clear self) ["uno"; "dos y"] None = Some self' ∧
  is_Some (encode B ["abcd"]) ∧
  (Z.of_nat (length ["uno"; "dos y"]) ≤ 5)%Z ∧
  length (search B self' "abcd" 5) = length ["uno"; "dos y"] ∧
  non_increasing (score_of <$> search B self' "abcd" 5).
Proof.
  intros B self self'.
  assert (Hq : is_Some (encode B ["abcd"])) by (eexists; reflexivity).
  assert (Hk : (Z.of_nat (length ["uno"; "dos y"]) ≤ 5)%Z) by (simpl; lia).
  split; [exact valid_binary32|]. split; [exact (toy_distances_nonneg _)|].
  split; [exact (toy_encodes_each_text _)|]. split; [exact I|].
  split; [reflexivity|]. split; [exact Hq|]. split; [exact Hk|].
  exact (search_returns_every_fragment_by_score B self self' ["uno"; "dos y"] None "abcd" 5
           valid_binary32 (toy_distances_nonneg _) (toy_encodes_each_text _) I
           eq_refl Hq Hk).
Defined.


Lemma aligned_calls_keep_texts_and_metadata_paired_witness :
  let B := toy_backend Float.binary32 in
  let ops := [OpAddTexts ["viejo"] None; OpClear;
              OpAddTexts ["uno"; "dos y"] (Some [[("type", "update")]; [("type", "document")]])] in
  let self := foldl (apply_op B) init ops in
  encodes_each_text B ∧
  Forall aligned_op ops ∧
  length (texts self) = length (metadata self) ∧
  length (default [] (index self)) = length (texts self).
Proof.
  intros B ops self.
  assert (Hops : Forall aligned_op ops) by (repeat constructor).
  split; [exact (toy_encodes_each_text _)|]. split; [exact Hops|].
  pose proof (proj1 (aligned_calls_keep_texts_and_metadata_paired B
                       (toy_encodes_each_text _)) ops Hops) as H.
  exact (conj (proj1 H) (proj1 (proj2 H))).
Defined.


(* ===================================================================== *)
(** * Further properties of the code *)
(* ===================================================================== *)

(** ** The validators of modules, sections and updates *)

Lemma upper_nonempty c r : Py.upper (String c r) ≠ "".
Proof.
  cbn [Py.upper]. repeat case_match; done.
Qed.

Lemma validate_modulo_one_char c :
  Validators.validate_modulo (String c "")
  = Py.in_list (String c "") ["A"; "a"; "B"; "b"].
Proof.
  destruct c as [[] [] [] [] [] [] [] []]; vm_compute; reflexivity.
Qed.

Lemma upper_two_chars c d r x : Py.upper (String c (String d r)) ≠ String x "".
Proof.
  cbn [Py.upper]. pose proof (upper_nonempty d r) as H. cbn [Py.upper] in H.
  repeat case_match; simplify_eq; try done; intros [= ? ?]; done.
Qed.

Lemma upper_is_A_or_B (modulo : string) :
  Py.in_list (Py.upper modulo) ["A"; "B"] = true ↔ modulo ∈ ["A"; "a"; "B"; "b"].
Proof.
  change (Py.in_list (Py.upper modulo) ["A"; "B"]) with (Validators.validate_modulo modulo).
  rewrite <- in_list_elem.
  destruct modulo as [|c [|d r]].
  - done.
  - by rewrite validate_modulo_one_char.
  - assert (Validators.validate_modulo (String c (String d r)) = false) as ->.
    { unfold Validators.validate_modulo, Py.in_list. cbn [existsb].
      pose proof (upper_two_chars c d r "A") as HA.
      pose proof (upper_two_chars c d r "B") as HB.
      apply String.eqb_neq in HA, HB. by rewrite HA, HB. }
    split; [done|]. unfold Py.in_list. cbn [existsb String.eqb].
    by destruct (Ascii.eqb c "A"), (Ascii.eqb c "a"), (Ascii.eqb c "B"), (Ascii.eqb c "b").
Qed.

(** X1.  [validate_modulo] accepts exactly the four strings A, a, B and b:
    no other text, however it is written, is upper-cased to A or B. *)
Theorem validate_modulo_accepts_the_two_letters (modulo : string) :
  Validators.validate_modulo modulo = true ↔ modulo ∈ ["A"; "a"; "B"; "b"].
Proof. apply upper_is_A_or_B. Qed.

Lemma lstrip_empty s :
  Py.lstrip s = "" ↔ Forall (λ c, Py.isspace c = true) (String.list_ascii_of_string s).
Proof.
  induction s as [|c r IH]; simpl.
  - split; [constructor|done].
  - destruct (Py.isspace c) eqn:E.
    + rewrite IH. split; [by constructor|by inversion 1].
    + split; [done|]. inversion 1; congruence.
Qed.





(** X3.  [validate_update_fields] answers [True] exactly when each of the
    six fields of an update is present, is not [None] and is not empty;
    then its message is empty, and otherwise its message starts with
    the words Missing required fields. *)
Theorem validate_update_fields_wants_every_field (fields : list (string * option string)) :
  let result := Validators.validate_update_fields fields in
  (result.1 = true ↔
   ∀ key, key ∈ update_field_keys → Py.truthy_opt (Validators.get fields key) = true) ∧
  (result.1 = true → result.2 = "") ∧
  (result.1 = false → Py.startswith result.2 "Missing required fields: " = true).
Proof.
  intros result. unfold result, Validators.validate_update_fields, update_field_keys.
  rewrite !filter_cons, filter_nil. cbn [snd].
  repeat case_decide; cbn [fmap list_fmap fst snd].
  all: split; [|split; done].
  all: split; [|try (by intros Hall;
                     match goal with
                     | Hi : Py.truthy_opt (Validators.get _ ?k) = false |- _ =>
                         rewrite (Hall k) in Hi by (repeat constructor)
                     end)].
  all: try done.
  intros _ key Hkey.
  repeat (apply elem_of_cons in Hkey as [->|Hkey]); [..|by apply not_elem_of_nil in Hkey];
    by apply not_false_iff_true.
Qed.

(** ** The states of the users *)

Lemma set_messages_same st : set_messages (messages st) st = st.
Proof. by destruct st. Qed.

Lemma last_n_all {A} (n : nat) (l : list A) : (length l ≤ n)%nat → last_n n l = l.
Proof. intros H. unfold last_n. by replace (length l - n)%nat with 0%nat by lia. Qed.

Lemma last_n_length {A} (n : nat) (l : list A) : (length (last_n n l) ≤ n)%nat.
Proof. unfold last_n. rewrite length_drop. lia. Qed.

Lemma get_user_state_eq us user_id :
  let stored := default create_initial_state (us !! user_id) in
  let state := set_messages (last_n 50 (messages stored)) stored in
  get_user_state us user_id = (<[user_id := state]> us, state).
Proof.
  intros stored state. unfold get_user_state.
  assert (Hlook : (match us !! user_id with
                   | Some _ => us
                   | None => <[user_id := create_initial_state]> us
                   end) !! user_id = Some stored).
  { unfold stored. destruct (us !! user_id) eqn:E; simpl; [done|]. by rewrite lookup_insert_eq. }
  rewrite Hlook. simpl.
  assert (Hstate : (if (50 <? length (messages stored))%nat
                    then set_messages (last_n 50 (messages stored)) stored
                    else stored) = state).
  { unfold state. destruct (Nat.ltb_spec 50 (length (messages stored))); [done|].
    by rewrite last_n_all, set_messages_same by done. }
  rewrite Hstate. f_equal.
  destruct (us !! user_id) eqn:E; [done|]. by rewrite insert_insert_eq.
Qed.

(** X4.  [get_user_state] hands out the state kept for the user (the
    initial state when there is none) with its history cut to the last
    50 messages and nothing else changed; it keeps that state in
    [user_states], and leaves the states of the other users alone. *)
Theorem get_user_state_keeps_the_last_fifty_messages
    (user_states : gmap string State) (user_id : string) :
  let stored := default create_initial_state (user_states !! user_id) in
  let result := get_user_state user_states user_id in
  result.1 !! user_id = Some result.2 ∧
  (∀ other, other ≠ user_id → result.1 !! other = user_states !! other) ∧
  result.2 = set_messages (last_n 50 (messages stored)) stored ∧
  (length (messages result.2) ≤ 50)%nat ∧
  ((length (messages stored) ≤ 50)%nat → result.2 = stored).
Proof.
  intros stored result. unfold result. rewrite get_user_state_eq. fold stored. simpl.
  split; [by rewrite lookup_insert_eq|]. split; [by intros; rewrite lookup_insert_ne|].
  split; [done|]. split.
  - destruct stored. simpl. apply last_n_length.
  - intros H. by rewrite last_n_all, set_messages_same.
Qed.

Lemma get_user_state_stable us user_id st :
  us !! user_id = Some st → (length (messages st) ≤ 50)%nat →
  get_user_state us user_id = (us, st).
Proof.
  intros Hst Hlen. rewrite get_user_state_eq, Hst. simpl.
  rewrite last_n_all, set_messages_same by done. by rewrite insert_id.
Qed.

(** X5.  Asking for the state of a user a second time changes nothing:
    the same state is handed out and [user_states] stays as the first
    call left it. *)
Theorem get_user_state_twice (user_states : gmap string State) (user_id : string) :
  let result := get_user_state user_states user_id in
  get_user_state result.1 user_id = result.
Proof.
  intros result. unfold result. rewrite (get_user_state_eq user_states user_id). cbn [fst].
  apply get_user_state_stable; [by rewrite lookup_insert_eq|].
  destruct (default create_initial_state (user_states !! user_id)). simpl.
  apply last_n_length.
Qed.

Section DatabaseFacts.

Import Database.

(** ** The order of strings *)

Lemma ascii_compare_N a b : Ascii.compare a b = N.compare (N_of_ascii a) (N_of_ascii b).
Proof. reflexivity. Qed.

Lemma ascii_compare_eq a b : Ascii.compare a b = Eq ↔ a = b.
Proof.
  rewrite ascii_compare_N, N.compare_eq_iff. split; [|by intros ->].
  intros H. by rewrite <- (ascii_N_embedding a), <- (ascii_N_embedding b), H.
Qed.

Lemma string_compare_trans_lt a : ∀ b c,
  String.compare a b = Lt → String.compare b c = Lt → String.compare a c = Lt.
Proof.
  induction a as [|x a IH]; intros [|y b] [|z c]; simpl; try done.
  destruct (Ascii.compare x y) eqn:Exy; try done.
  - apply ascii_compare_eq in Exy as ->.
    destruct (Ascii.compare y z) eqn:Eyz; try done. apply IH.
  - destruct (Ascii.compare y z) eqn:Eyz; try done.
    + apply ascii_compare_eq in Eyz as ->. by rewrite Exy.
    + rewrite ascii_compare_N in *. rewrite N.compare_lt_iff in *.
      assert (N_of_ascii x < N_of_ascii z)%N as ->%N.compare_lt_iff by lia. done.
Qed.

Lemma string_leb_trans a b c :
  String.leb a b = true → String.leb b c = true → String.leb a c = true.
Proof.
  unfold String.leb.
  destruct (String.compare a b) eqn:Eab; try done;
    destruct (String.compare b c) eqn:Ebc; try done; intros _ _.
  - apply String.compare_eq_iff in Eab as ->. by rewrite Ebc.
  - apply String.compare_eq_iff in Eab as ->. by rewrite Ebc.
  - apply String.compare_eq_iff in Ebc as <-. by rewrite Eab.
  - by rewrite (string_compare_trans_lt a b c).
Qed.

Lemma string_ltb_false a b : String.ltb a b = false → String.leb b a = true.
Proof.
  unfold String.ltb, String.leb. rewrite (String.compare_antisym a b).
  by destruct (String.compare b a).
Qed.

Lemma string_ltb_true a b : String.ltb a b = true → String.leb a b = true.
Proof. unfold String.ltb, String.leb. by destruct (String.compare a b). Qed.

(** ** [ORDER BY ... DESC] *)

Section OrderBy.

Context {A : Type} (key : A → string).

Lemma insert_desc_perm x l : insert_desc key x l ≡ₚ x :: l.
Proof.
  induction l as [|y l IH]; simpl; [done|].
  destruct (String.ltb (key y) (key x)); [done|].
  rewrite IH. apply Permutation_swap.
Qed.

Lemma order_by_desc_perm l : order_by_desc key l ≡ₚ l.
Proof.
  induction l as [|x l IH]; simpl; [done|].
  unfold order_by_desc in *. simpl. by rewrite insert_desc_perm, IH.
Qed.

Lemma order_by_desc_elem x l : x ∈ order_by_desc key l ↔ x ∈ l.
Proof. by rewrite order_by_desc_perm. Qed.

Lemma insert_desc_sorted x l :
  StronglySorted (descending key) l → StronglySorted (descending key) (insert_desc key x l).
Proof.
  induction 1 as [|y l Hs IH Hy]; simpl.
  - repeat constructor.
  - destruct (String.ltb (key y) (key x)) eqn:E.
    + constructor; [by constructor|].
      apply string_ltb_true in E. constructor; [done|].
      eapply Forall_impl; [exact Hy|]. intros z Hz. unfold descending in *.
      by eapply string_leb_trans.
    + constructor; [done|]. rewrite insert_desc_perm. constructor; [|done].
      by apply string_ltb_false.
Qed.

Lemma order_by_desc_sorted l : StronglySorted (descending key) (order_by_desc key l).
Proof.
  induction l as [|x l IH]; simpl; [constructor|]. by apply insert_desc_sorted.
Qed.

End OrderBy.

(** ** Reading the courses *)

Lemma StronglySorted_fmap_2 {A B} (R : B → B → Prop) (f : A → B) l :
  StronglySorted (λ a b, R (f a) (f b)) l → StronglySorted R (f <$> l).
Proof.
  induction 1 as [|x l Hs IH Hx]; simpl; constructor; [done|].
  apply list.Forall_forall. intros y (a & -> & Ha)%list_elem_of_fmap.
  rewrite list.Forall_forall in Hx. by apply Hx.
Qed.

Lemma and_eq_passes filter_ column : and_eq filter_ column = true ↔ passes filter_ column.
Proof.
  unfold and_eq, passes, sql_eq. destruct filter_ as [v|]; simpl; [|done].
  destruct (Py.truthy v) eqn:Hv; [|done].
  destruct column as [c|]; simpl.
  - rewrite String.eqb_eq. split; [by intros -> _|]. intros H. by injection (H eq_refl).
  - split; [done|]. intros H. by specialize (H eq_refl).
Qed.

Lemma find_course_Some d c row :
  find_course d c = Some row → row ∈ courses d ∧ course_name row = c.
Proof.
  unfold find_course. intros H%head_Some_elem_of. by apply list_elem_of_filter in H as [? ?].
Qed.

Lemma find_course_None d c :
  find_course d c = None ↔ c ∉ course_name <$> courses d.
Proof.
  unfold find_course. rewrite head_None. split.
  - intros H (row & -> & Hin)%list_elem_of_fmap.
    assert (Hrow : row ∈ filter (λ r, course_name r = course_name row) (courses d))
      by (by apply list_elem_of_filter).
    rewrite H in Hrow. by apply not_elem_of_nil in Hrow.
  - intros H. destruct (filter _ (courses d)) as [|row rest] eqn:E; [done|].
    exfalso. apply H.
    assert (Hrow : row ∈ filter (λ r, course_name r = c) (courses d)) by (rewrite E; left).
    apply list_elem_of_filter in Hrow as [<- Hin]. by apply list_elem_of_fmap_2.
Qed.

Lemma get_course_info_find d c f1 f2 f3 :
  is_Some (get_course_info d c f1 f2 f3) ↔ is_Some (find_course d c).
Proof.
  unfold get_course_info, find_course.
  destruct (filter _ (courses d)) as [|row rest]; simpl.
  - split; intros [? ?]; done.
  - split; intros _; eauto.
Qed.

Lemma keys_setitem_NoDup {V} (d : list (string * V)) k v :
  NoDup (keys d) → NoDup (keys (setitem d k v)).
Proof.
  unfold keys. induction d as [|[k' v'] d IH]; simpl.
  - intros _. repeat constructor. apply not_elem_of_nil.
  - intros [Hk' Hd]%NoDup_cons. destruct (String.eqb_spec k' k) as [->|Hne]; simpl.
    + by constructor.
    + constructor; [|by apply IH].
      change (k' ∉ keys (setitem d k v)). rewrite keys_setitem.
      intros [Heq | Hin]; [congruence|done].
Qed.

(** X6.  [get_courses] lists every name of the table of courses once, and
    [get_course_info] finds a course, whatever the filters, exactly when
    [get_courses] lists it. *)
Theorem get_courses_and_get_course_info_know_the_same_courses
    (d : Db) (c : string) (ciclo_ modulo_ section_ : option string) :
  NoDup (available_courses d) ∧
  (c ∈ available_courses d ↔ c ∈ course_name <$> courses d) ∧
  (is_Some (get_course_info d c ciclo_ modulo_ section_) ↔ c ∈ available_courses d).
Proof.
  split; [|split].
  - unfold available_courses, get_courses.
    assert (H : ∀ rows acc, NoDup (keys acc) →
              NoDup (keys (foldl (λ d' row, setitem d' (course_name row) (course_entry d row))
                             acc rows))).
    { induction rows as [|row rows IH]; intros acc Hacc; simpl; [done|].
      apply IH. by apply keys_setitem_NoDup. }
    apply H. constructor.
  - apply available_courses_names.
  - rewrite get_course_info_find, available_courses_names.
    destruct (find_course d c) eqn:E.
    + split; [|by eauto]. intros _. apply find_course_Some in E as [Hin <-].
      by apply list_elem_of_fmap_2.
    + split; [by intros [? ?]|]. intros Hin. by apply find_course_None in E.
Qed.

Lemma get_course_info_Some d c f1 f2 f3 info :
  get_course_info d c f1 f2 f3 = Some info →
  ∃ row, find_course d c = Some row ∧
    info_updates info
    = (λ r, Database.mkUpdate (update_content r) (update_category r) (update_ciclo r)
              (update_modulo r) (update_section r) (update_created_at r))
      <$> order_by_desc update_created_at
            (filter (λ r, update_course_id r = course_id row)
               (filter (λ r, and_eq f1 (update_ciclo r) && and_eq f2 (update_modulo r) &&
                             and_eq f3 (update_section r) = true) (updates d))) ∧
    info_documents info
    = (λ r, mkDocument (document_title r) (document_file_path r) (document_category r)
              (document_ciclo r) (document_modulo r) (document_section r)
              (document_uploaded_at r))
      <$> order_by_desc document_uploaded_at
            (filter (λ r, document_course_id r = course_id row)
               (filter (λ r, and_eq f1 (document_ciclo r) && and_eq f2 (document_modulo r) &&
                             and_eq f3 (document_section r) = true) (documents d))) ∧
    name info = c ∧
    info_section info = (if Py.truthy_opt f3 then f3 else course_section row) ∧
    categories info = unique (category <$> info_updates info) ∧
    last_update info = timestamp <$> head (info_updates info).
Proof.
  unfold get_course_info, find_course.
  destruct (filter _ (courses d)) as [|row rest]; [done|].
  intros [= <-]. exists row. by repeat split.
Qed.

(** X7.  The updates that [get_course_info] returns are ordered from the
    newest to the oldest; [last_update] is the time of the first one, so
    no update is newer than it, and it is [None] when there is none. *)
Theorem get_course_info_lists_the_newest_update_first
    (d : Db) (c : string) (ciclo_ modulo_ section_ : option string) (info : CourseInfo) :
  get_course_info d c ciclo_ modulo_ section_ = Some info →
  StronglySorted newest_first (info_updates info) ∧
  (info_updates info = [] → last_update info = None) ∧
  (∀ u, u ∈ info_updates info →
     ∃ latest, last_update info = Some latest ∧ String.leb (timestamp u) latest = true).
Proof.
  intros (row & _ & Hups & _ & _ & _ & _ & Hlast)%get_course_info_Some.
  assert (Hsorted : StronglySorted newest_first (info_updates info)).
  { rewrite Hups. apply StronglySorted_fmap_2. apply (order_by_desc_sorted update_created_at). }
  split; [done|]. rewrite Hlast. split; [by intros ->|].
  destruct (info_updates info) as [|u0 ups]; [by intros u ?%not_elem_of_nil|].
  intros u Hu. exists (timestamp u0). split; [done|].
  apply elem_of_cons in Hu as [->|Hu].
  - destruct (String.leb_total (timestamp u0) (timestamp u0)); done.
  - apply StronglySorted_inv in Hsorted as [_ Hall].
    rewrite list.Forall_forall in Hall. by apply Hall.
Qed.

Lemma get_course_info_elem d c f1 f2 f3 row info :
  find_course d c = Some row →
  get_course_info d c f1 f2 f3 = Some info →
  (∀ u, u ∈ info_updates info ↔
     ∃ r, r ∈ updates d ∧ update_course_id r = course_id row ∧
          passes f1 (update_ciclo r) ∧ passes f2 (update_modulo r) ∧
          passes f3 (update_section r) ∧
          u = Database.mkUpdate (update_content r) (update_category r) (update_ciclo r)
                (update_modulo r) (update_section r) (update_created_at r)) ∧
  (∀ doc, doc ∈ info_documents info ↔
     ∃ r, r ∈ documents d ∧ document_course_id r = course_id row ∧
          passes f1 (document_ciclo r) ∧ passes f2 (document_modulo r) ∧
          passes f3 (document_section r) ∧
          doc = mkDocument (document_title r) (document_file_path r) (document_category r)
                  (document_ciclo r) (document_modulo r) (document_section r)
                  (document_uploaded_at r)).
Proof.
  intros Hrow (row' & Hrow' & Hups & Hdocs & _)%get_course_info_Some.
  rewrite Hrow in Hrow'. injection Hrow' as <-.
  split.
  - intros u. rewrite Hups, list_elem_of_fmap. split.
    + intros (r & -> & Hr). exists r. rewrite order_by_desc_elem in Hr.
      apply list_elem_of_filter in Hr as [Hid Hr].
      apply list_elem_of_filter in Hr as [Hf Hr].
      rewrite !andb_true_iff, !and_eq_passes in Hf. tauto.
    + intros (r & Hr & Hid & H1 & H2 & H3 & ->). exists r. split; [done|].
      rewrite order_by_desc_elem. apply list_elem_of_filter. split; [done|].
      apply list_elem_of_filter. split; [|done].
      rewrite !andb_true_iff, !and_eq_passes. tauto.
  - intros doc. rewrite Hdocs, list_elem_of_fmap. split.
    + intros (r & -> & Hr). exists r. rewrite order_by_desc_elem in Hr.
      apply list_elem_of_filter in Hr as [Hid Hr].
      apply list_elem_of_filter in Hr as [Hf Hr].
      rewrite !andb_true_iff, !and_eq_passes in Hf. tauto.
    + intros (r & Hr & Hid & H1 & H2 & H3 & ->). exists r. split; [done|].
      rewrite order_by_desc_elem. apply list_elem_of_filter. split; [done|].
      apply list_elem_of_filter. split; [|done].
      rewrite !andb_true_iff, !and_eq_passes. tauto.
Qed.

(** X8.  [get_course_info] returns the updates and the documents of the
    first course that has the name, and of them exactly those that pass
    the filters: a filter that is absent or empty lets every row
    through, another one lets through the rows whose column holds its
    value.  It never returns more rows than the tables hold. *)
Theorem get_course_info_returns_what_passes_the_filters
    (d : Db) (c : string) (ciclo_ modulo_ section_ : option string)
    (row : CourseRow) (info : CourseInfo) :
  find_course d c = Some row →
  get_course_info d c ciclo_ modulo_ section_ = Some info →
  (∀ u, u ∈ info_updates info ↔
     ∃ r, r ∈ updates d ∧ update_course_id r = course_id row ∧
          passes ciclo_ (update_ciclo r) ∧ passes modulo_ (update_modulo r) ∧
          passes section_ (update_section r) ∧
          u = Database.mkUpdate (update_content r) (update_category r) (update_ciclo r)
                (update_modulo r) (update_section r) (update_created_at r)) ∧
  (∀ doc, doc ∈ info_documents info ↔
     ∃ r, r ∈ documents d ∧ document_course_id r = course_id row ∧
          passes ciclo_ (document_ciclo r) ∧ passes modulo_ (document_modulo r) ∧
          passes section_ (document_section r) ∧
          doc = mkDocument (document_title r) (document_file_path r) (document_category r)
                  (document_ciclo r) (document_modulo r) (document_section r)
                  (document_uploaded_at r)) ∧
  (length (info_updates info) ≤ length (updates d))%nat ∧
  (length (info_documents info) ≤ length (documents d))%nat.
Proof.
  intros Hrow Hinfo.
  destruct (get_course_info_elem d c _ _ _ row info Hrow Hinfo) as [Hu Hd].
  split; [done|]. split; [done|].
  apply get_course_info_Some in Hinfo as (row' & _ & Hups & Hdocs & _).
  split.
  - rewrite Hups, length_fmap, order_by_desc_perm.
    etrans; [apply length_filter|]. apply length_filter.
  - rewrite Hdocs, length_fmap, order_by_desc_perm.
    etrans; [apply length_filter|]. apply length_filter.
Qed.

Lemma get_courses_entries (d : Db) k info :
  (k, info) ∈ get_courses d →
  ∃ row, row ∈ courses d ∧ k = course_name row ∧ info = course_entry d row.
Proof.
  unfold get_courses.
  assert (H : ∀ rows acc,
            (k, info) ∈ foldl (λ d' row, setitem d' (course_name row) (course_entry d row))
                          acc rows →
            (k, info) ∈ acc ∨
            ∃ row, row ∈ rows ∧ k = course_name row ∧ info = course_entry d row).
  { induction rows as [|row rows IH]; intros acc; simpl; [by left|].
    intros [Hin | (r & Hr & ? & ?)]%IH.
    - assert (Hset : ∀ (acc : list (string * CourseInfo)) k' v,
                (k, info) ∈ setitem acc k' v → (k, info) ∈ acc ∨ (k = k' ∧ info = v)).
      { clear. induction acc as [|[k0 v0] acc IH]; intros k' v; simpl.
        - intros [[= -> ->]|?%not_elem_of_nil]%elem_of_cons; [by right|done].
        - destruct (String.eqb_spec k0 k') as [->|Hne].
          + intros [[= -> ->]|Hin]%elem_of_cons; [by right|]. left. by right.
          + intros [[= -> ->]|Hin]%elem_of_cons; [left; left|].
            apply IH in Hin as [?|?]; [left; by right|by right]. }
      apply Hset in Hin as [?|[-> ->]]; [by left|].
      right. exists row. split; [left|done].
    - right. exists r. split; [by right|done]. }
  intros [?%not_elem_of_nil|?]%H; done.
Qed.

(** X9.  In the result of [get_courses], every update of a course is
    reported under the section of the course, whatever its own section
    column holds; the updates are those of the rows of the course. *)
Theorem get_courses_reports_updates_under_the_section_of_the_course
    (d : Db) (c : string) (info : CourseInfo) :
  (c, info) ∈ get_courses d →
  ∃ row, row ∈ courses d ∧ course_name row = c ∧
    info_section info = course_section row ∧
    (∀ u, u ∈ info_updates info → Database.section u = course_section row) ∧
    (∀ u, u ∈ info_updates info ↔
       ∃ r, r ∈ updates d ∧ update_course_id r = course_id row ∧
            u = Database.mkUpdate (update_content r) (update_category r) (update_ciclo r)
                  (update_modulo r) (course_section row) (update_created_at r)).
Proof.
  intros (row & Hrow & -> & ->)%get_courses_entries. exists row.
  split; [done|]. split; [done|]. split; [done|]. simpl. unfold course_updates. split.
  - intros u (r & -> & _)%list_elem_of_fmap. done.
  - intros u. rewrite list_elem_of_fmap. split.
    + intros (r & -> & Hr). exists r. rewrite order_by_desc_elem in Hr.
      by apply list_elem_of_filter in Hr as [Hid Hr].
    + intros (r & Hr & Hid & ->). exists r. split; [done|].
      rewrite order_by_desc_elem. by apply list_elem_of_filter.
Qed.

(** ** Writing to the database *)

Lemma foldr_max_ge i ids : i ≤ foldr Z.max i ids.
Proof. induction ids as [|j ids IH]; simpl; lia. Qed.

Lemma foldr_max_elem i ids j : j ∈ ids → j ≤ foldr Z.max i ids.
Proof.
  induction ids as [|k ids IH]; [by intros ?%not_elem_of_nil|].
  intros [->|Hin]%elem_of_cons; simpl; [lia|]. specialize (IH Hin). lia.
Qed.

Lemma lastrowid_fresh ids i : i ∈ ids → i < lastrowid ids.
Proof.
  destruct ids as [|j ids]; [by intros ?%not_elem_of_nil|].
  intros [->|Hin]%elem_of_cons; simpl.
  - pose proof (foldr_max_ge j ids). lia.
  - pose proof (foldr_max_elem j ids i Hin). lia.
Qed.

Lemma lastrowid_not_elem ids : lastrowid ids ∉ ids.
Proof. intros H%lastrowid_fresh. lia. Qed.

Lemma find_course_app_new d c row :
  find_course d c = None → course_name row = c →
  head (filter (λ r, course_name r = c) (courses d ++ [row])) = Some row.
Proof.
  unfold find_course. intros Hnone%head_None Hname.
  rewrite filter_app, Hnone. simpl. rewrite filter_cons. by case_decide.
Qed.

Lemma head_filter_fmap {A} (P : A → Prop) `{∀ x, Decision (P x)} (g : A → A) (l : list A) :
  (∀ x, P (g x) ↔ P x) →
  head (filter P (g <$> l)) = g <$> head (filter P l).
Proof.
  intros Hg. induction l as [|x l IH]; [done|].
  rewrite fmap_cons, !filter_cons.
  destruct (decide (P (g x))) as [Hp|Hp], (decide (P x)) as [Hq|Hq]; simpl; try done.
  - exfalso. by apply Hq, Hg.
  - exfalso. by apply Hp, Hg.
Qed.

(** What [add_update] leaves: the course that has the name, with the
    section given, and the new row under its id. *)
Lemma add_update_spec d now c sec content cat ciclo modulo :
  let d' := (add_update d now c sec content cat ciclo modulo).1 in
  ∃ row',
    find_course d' c = Some row' ∧
    course_name row' = c ∧
    course_section row' = Some sec ∧
    updates d' = updates d ++
                 [mkUpdateRow (course_id row') content cat (Some ciclo) (Some modulo)
                    (Some sec) now] ∧
    documents d' = documents d ∧
    ((∃ row, find_course d c = Some row ∧ course_id row' = course_id row ∧
             course_id <$> courses d' = course_id <$> courses d ∧
             course_name <$> courses d' = course_name <$> courses d) ∨
     (find_course d c = None ∧ courses d' = courses d ++ [row'] ∧
      course_id row' = lastrowid (course_id <$> courses d))).
Proof.
  intros d'. unfold d', add_update.
  destruct (find_course d c) as [row|] eqn:Hfind; simpl.
  - set (g := λ r, if decide (course_id r = course_id row)
                   then mkCourseRow (course_id r) (course_name r) (Some sec) else r).
    exists (g row).
    assert (Hid : ∀ r, course_id (g r) = course_id r).
    { intros r. unfold g. by case_decide. }
    assert (Hname : ∀ r, course_name (g r) = course_name r).
    { intros r. unfold g. by case_decide. }
    destruct (find_course_Some _ _ _ Hfind) as [Hin Hc].
    split.
    { unfold find_course. simpl.
      rewrite (head_filter_fmap (λ r, course_name r = c) g).
      - unfold find_course in Hfind. by rewrite Hfind.
      - intros r. by rewrite Hname. }
    split; [by rewrite Hname|].
    split; [unfold g; by rewrite decide_True|].
    split; [by rewrite Hid|]. split; [done|].
    left. exists row. split; [done|]. split; [apply Hid|].
    split; rewrite <- list_fmap_compose; apply list_fmap_ext; intros; simpl; auto.
  - eexists. split; [by apply find_course_app_new|].
    split; [done|]. split; [done|]. split; [done|]. split; [done|].
    right. done.
Qed.

Lemma add_document_spec d now c sec path title cat ciclo modulo :
  let d' := (add_document d now c sec path title cat ciclo modulo).1 in
  ∃ row',
    find_course d' c = Some row' ∧
    course_name row' = c ∧
    updates d' = updates d ∧
    documents d' = documents d ++
                   [mkDocumentRow (course_id row') title path cat (Some ciclo) (Some modulo)
                      None now] ∧
    ((find_course d c = Some row' ∧ courses d' = courses d) ∨
     (find_course d c = None ∧ courses d' = courses d ++ [row'] ∧
      course_id row' = lastrowid (course_id <$> courses d))).
Proof.
  intros d'. unfold d', add_document.
  destruct (find_course d c) as [row|] eqn:Hfind; simpl.
  - exists row. destruct (find_course_Some _ _ _ Hfind) as [Hin Hc].
    split; [done|]. split; [done|]. split; [done|]. split; [done|]. by left.
  - eexists. split; [by apply find_course_app_new|].
    split; [done|]. split; [done|]. split; [done|]. right. done.
Qed.

Lemma insert_update_spec d now c content cat ciclo modulo sec d' :
  insert_update d now c content cat ciclo modulo sec = Some d' →
  ∃ row, find_course d c = Some row ∧
    courses d' = courses d ∧ documents d' = documents d ∧
    updates d' = updates d ++
                 [mkUpdateRow (course_id row) content cat (Some ciclo) (Some modulo)
                    (Some sec) now].
Proof.
  unfold insert_update, find_course.
  destruct (filter _ (courses d)) as [|row rest]; [done|].
  intros [= <-]. by exists row.
Qed.

Lemma well_formed_add_update d now c sec content cat ciclo modulo :
  well_formed d → well_formed (add_update d now c sec content cat ciclo modulo).1.
Proof.
  intros (Hids & Hnames & Hups & Hdocs).
  destruct (add_update_spec d now c sec content cat ciclo modulo)
    as (row' & Hfind' & Hname & _ & Hu & Hd & Hcase).
  unfold well_formed. rewrite Hu, Hd.
  destruct Hcase as [(row & Hfind & Hid & Eids & Enames) | (Hfind & Ec & Hid)].
  - rewrite Eids, Enames. split; [done|]. split; [done|]. split; [|done].
    intros r [Hr | ->%list_elem_of_singleton]%elem_of_app; [by apply Hups|].
    simpl. rewrite Hid. apply find_course_Some in Hfind as [Hin _].
    by apply list_elem_of_fmap_2.
  - rewrite Ec, !fmap_app. simpl. split; [|split; [|split]].
    + apply NoDup_app. split; [done|]. split; [|apply NoDup_singleton].
      intros i Hi ->%list_elem_of_singleton. rewrite Hid in Hi.
      by apply lastrowid_not_elem in Hi.
    + apply NoDup_app. split; [done|]. split; [|apply NoDup_singleton].
      intros n Hn ->%list_elem_of_singleton. rewrite Hname in Hn.
      by apply find_course_None in Hfind.
    + intros r [Hr | ->%list_elem_of_singleton]%elem_of_app.
      * apply elem_of_app. left. by apply Hups.
      * apply elem_of_app. right. simpl. left.
    + intros r Hr. apply elem_of_app. left. by apply Hdocs.
Qed.

Lemma well_formed_add_document d now c sec path title cat ciclo modulo :
  well_formed d → well_formed (add_document d now c sec path title cat ciclo modulo).1.
Proof.
  intros (Hids & Hnames & Hups & Hdocs).
  destruct (add_document_spec d now c sec path title cat ciclo modulo)
    as (row' & Hfind' & Hname & Hu & Hd & Hcase).
  unfold well_formed. rewrite Hu, Hd.
  destruct Hcase as [(Hfind & Ec) | (Hfind & Ec & Hid)].
  - rewrite Ec. split; [done|]. split; [done|]. split; [done|].
    intros r [Hr | ->%list_elem_of_singleton]%elem_of_app; [by apply Hdocs|].
    simpl. apply find_course_Some in Hfind as [Hin _]. by apply list_elem_of_fmap_2.
  - rewrite Ec, !fmap_app. simpl. split; [|split; [|split]].
    + apply NoDup_app. split; [done|]. split; [|apply NoDup_singleton].
      intros i Hi ->%list_elem_of_singleton. rewrite Hid in Hi.
      by apply lastrowid_not_elem in Hi.
    + apply NoDup_app. split; [done|]. split; [|apply NoDup_singleton].
      intros n Hn ->%list_elem_of_singleton. rewrite Hname in Hn.
      by apply find_course_None in Hfind.
    + intros r Hr. apply elem_of_app. left. by apply Hups.
    + intros r [Hr | ->%list_elem_of_singleton]%elem_of_app.
      * apply elem_of_app. left. by apply Hdocs.
      * apply elem_of_app. right. simpl. left.
Qed.

Lemma well_formed_insert_update d now c content cat ciclo modulo sec d' :
  well_formed d → insert_update d now c content cat ciclo modulo sec = Some d' →
  well_formed d'.
Proof.
  intros (Hids & Hnames & Hups & Hdocs) (row & Hfind & Ec & Ed & Eu)%insert_update_spec.
  unfold well_formed. rewrite Ec, Ed, Eu. split; [done|]. split; [done|]. split; [|done].
  intros r [Hr | ->%list_elem_of_singleton]%elem_of_app; [by apply Hups|].
  simpl. apply find_course_Some in Hfind as [Hin _]. by apply list_elem_of_fmap_2.
Qed.

(** X11.  [add_update], [add_document] and the insertion of the update flow
    keep the keys of the database: after any sequence of them the ids
    and the names of the courses are pairwise distinct, and every update
    and every document belongs to a course of the table. *)
Theorem writes_keep_the_keys_of_the_database (d : Db) (writes : list Write) :
  well_formed d → well_formed (foldl apply_write d writes).
Proof.
  revert d. induction writes as [|w writes IH]; intros d Hd; simpl; [done|].
  apply IH. destruct w; simpl.
  - by apply well_formed_add_update.
  - by apply well_formed_add_document.
  - destruct (insert_update _ _ _ _ _ _ _ _) eqn:E; simpl; [|done].
    by eapply well_formed_insert_update.
Qed.

Lemma passes_same filter_ value :
  filter_ = None ∨ filter_ = Some value → passes filter_ (Some value).
Proof. intros [->| ->] H; done. Qed.

(** X10.  After [add_update], the course is listed, and [get_course_info],
    asked with the cycle, the module and the section of the update or
    without some of them, finds the course under the section given and
    returns the new update, with the time of its insertion. *)
Theorem add_update_is_found_by_get_course_info
    (d : Db) (now c sec content cat ciclo modulo : string)
    (ciclo_ modulo_ section_ : option string) :
  (ciclo_ = None ∨ ciclo_ = Some ciclo) →
  (modulo_ = None ∨ modulo_ = Some modulo) →
  (section_ = None ∨ section_ = Some sec) →
  let result := add_update d now c sec content cat ciclo modulo in
  result.2 = true ∧
  c ∈ available_courses result.1 ∧
  ∃ info,
    get_course_info result.1 c ciclo_ modulo_ section_ = Some info ∧
    info_section info = Some sec ∧
    Database.mkUpdate content cat (Some ciclo) (Some modulo) (Some sec) now
      ∈ info_updates info.
Proof.
  intros H1 H2 H3 result.
  split; [unfold result, add_update; by destruct (find_course d c)|].
  destruct (add_update_spec d now c sec content cat ciclo modulo)
    as (row' & Hfind' & Hname & Hsec & Hu & _ & _).
  fold result in Hfind', Hu.
  assert (Hsome : is_Some (get_course_info result.1 c ciclo_ modulo_ section_)).
  { apply get_course_info_find. by rewrite Hfind'. }
  split.
  { apply available_courses_names. apply find_course_Some in Hfind' as [Hin <-].
    by apply list_elem_of_fmap_2. }
  destruct Hsome as [info Hinfo]. exists info. split; [done|].
  destruct (get_course_info_elem _ _ _ _ _ _ _ Hfind' Hinfo) as [Helem _].
  apply get_course_info_Some in Hinfo as (row'' & Hrow'' & _ & _ & _ & Hsection & _).
  rewrite Hfind' in Hrow''. injection Hrow'' as <-.
  split.
  - rewrite Hsection, Hsec. destruct H3 as [-> | ->]; simpl; [done|].
    by destruct (Py.truthy sec).
  - apply Helem. eexists. rewrite Hu. split; [apply elem_of_app; right; left|].
    simpl. split; [done|]. by repeat split; try apply passes_same.
Qed.

(** X12.  A document stored by [add_document] has no section.
    [get_course_info] returns it when it is asked with the cycle and
    the module of the document and no section, and never when it is
    asked with a section. *)
Theorem add_document_is_hidden_by_a_section_filter
    (d : Db) (now c sec path title cat ciclo modulo : string) :
  let d' := (add_document d now c sec path title cat ciclo modulo).1 in
  let doc := mkDocument title path cat (Some ciclo) (Some modulo) None now in
  (∃ info, get_course_info d' c (Some ciclo) (Some modulo) None = Some info ∧
           doc ∈ info_documents info) ∧
  (∀ ciclo_ modulo_ s info,
     Py.truthy s = true →
     get_course_info d' c ciclo_ modulo_ (Some s) = Some info →
     doc ∉ info_documents info).
Proof.
  intros d' doc.
  destruct (add_document_spec d now c sec path title cat ciclo modulo)
    as (row' & Hfind' & Hname & _ & Hd & _).
  fold d' in Hfind', Hd. split.
  - assert (Hsome : is_Some (get_course_info d' c (Some ciclo) (Some modulo) None)).
    { apply get_course_info_find. by rewrite Hfind'. }
    destruct Hsome as [info Hinfo]. exists info. split; [done|].
    destruct (get_course_info_elem _ _ _ _ _ _ _ Hfind' Hinfo) as [_ Helem].
    apply Helem. eexists. rewrite Hd. split; [apply elem_of_app; right; left|].
    simpl. split; [done|]. by repeat split; try (apply passes_same; by right).
  - intros ciclo_ modulo_ s info Hs Hinfo Hdoc.
    destruct (get_course_info_elem _ _ _ _ _ _ _ Hfind' Hinfo) as [_ Helem].
    apply Helem in Hdoc as (r & _ & _ & _ & _ & Hpass & Heq).
    unfold doc in Heq. injection Heq as _ _ _ _ _ Hnone _.
    specialize (Hpass Hs). congruence.
Qed.

(** X13.  Whatever the model answers, [detect_category] returns one of the
    six categories; it returns exactly when the model answers; and when
    a file name is given, the content plays no part. *)
Theorem detect_category_answers_within_the_categories
    (llm : string → option string) (content content' : string) (file_name : option string) :
  (∀ category_, detect_category llm content file_name = Some category_ →
                category_ ∈ valid_categories) ∧
  (is_Some (detect_category llm content file_name)
   ↔ is_Some (llm (detect_category_subject content file_name))) ∧
  (Py.truthy_opt file_name = true →
   detect_category llm content file_name = detect_category llm content' file_name).
Proof.
  unfold detect_category. split; [|split].
  - intros category_. destruct (llm _) as [response|]; [|done].
    intros [= <-]. case_match eqn:E.
    + by apply in_list_elem.
    + unfold valid_categories. repeat constructor.
  - destruct (llm _); split; intros [? ?]; eauto; done.
  - intros Hf. unfold detect_category_subject.
    destruct file_name as [f|]; [|done]. simpl in Hf. by rewrite Hf.
Qed.

(** X14.  After [add_document] with a title that no document has yet,
    [get_document_content] for the course and the title reads the file
    of the new document; for a course that is not listed it returns
    [None]. *)
Theorem get_document_content_reads_the_added_document
    (read_document_content : string → string) (d : Db)
    (now c sec path title cat ciclo modulo : string) :
  (∀ r, r ∈ documents d → document_title r ≠ title) →
  let d' := (add_document d now c sec path title cat ciclo modulo).1 in
  get_document_content read_document_content d' c title
  = Some (read_document_content path) ∧
  (∀ other, other ∉ available_courses d' →
     get_document_content read_document_content d' other title = None).
Proof.
  intros Hfresh d'.
  destruct (add_document_spec d now c sec path title cat ciclo modulo)
    as (row' & Hfind' & Hname & _ & Hd & _).
  fold d' in Hfind', Hd. split.
  - unfold get_document_content. rewrite Hfind', Hd, filter_app.
    assert (E : filter (λ r, document_course_id r = course_id row' ∧ document_title r = title)
                  (documents d) = []).
    { destruct (filter _ (documents d)) as [|r rest] eqn:E; [done|].
      assert (Hr : r ∈ filter (λ r, document_course_id r = course_id row' ∧
                                    document_title r = title) (documents d))
        by (rewrite E; left).
      apply list_elem_of_filter in Hr as [[_ Ht] Hr]. by apply Hfresh in Hr. }
    rewrite E. simpl. rewrite filter_cons. simpl. by rewrite decide_True.
  - intros other Hother. unfold get_document_content.
    assert (find_course d' other = None) as ->; [|done].
    apply find_course_None. by rewrite <- available_courses_names.
Qed.

End DatabaseFacts.

(** ** What a turn says and asks *)

Lemma calls_app a b : calls (a ++ b) = (calls a + calls b)%nat.
Proof. unfold calls. by rewrite filter_app, length_app. Qed.

Lemma replies_app a b : replies (a ++ b) = (replies a + replies b)%nat.
Proof. unfold replies. by rewrite filter_app, length_app. Qed.

Lemma save_update_emits env messages : emits (save_update env messages) 0 1.
Proof.
  intros t. unfold save_update. run_handler; solve_emits.
Qed.

Lemma handle_update_flow_emits env update : emits (handle_update_flow env update) 2 1.
Proof.
  intros t. unfold handle_update_flow. run_handler; try solve_emits.
  match goal with
  | |- ∃ new, events (save_update ?env ?m ?T).2 = _ ∧ _ =>
      emits_with (save_update_emits env m T)
  end.
Qed.

Lemma after_course_selection_emits env update messages :
  emits (after_course_selection env update messages) 1 1.
Proof.
  intros t. unfold after_course_selection. run_handler; solve_emits.
Qed.

Lemma handle_message_emits env update : emits (handle_message env update) 3 1.
Proof.
  intros t. unfold handle_message. run_handler; try solve_emits.
  all: match goal with
       | |- ∃ new, events (handle_update_flow ?env ?u ?T).2 = _ ∧ _ =>
           emits_with (handle_update_flow_emits env u T)
       | |- ∃ new, events (after_course_selection ?env ?u ?m ?T).2 = _ ∧ _ =>
           emits_with (after_course_selection_emits env u m T)
       end.
Qed.

Lemma start_emits : emits start 0 1.
Proof. intros t. unfold start. run_handler; solve_emits. Qed.

Lemma update_course_command_emits : emits update_course_command 0 1.
Proof. intros t. unfold update_course_command. run_handler; solve_emits. Qed.

Lemma language_callback_emits data : emits (language_callback data) 0 1.
Proof. intros t. unfold language_callback. run_handler; solve_emits. Qed.

Lemma run_events user_id handler w :
  ∃ t, (run user_id handler w).2 = events (handler t).2 ∧ events t = [].
Proof.
  unfold run. destruct (get_user_state _ _) as [us st]. by eexists (mkTurn st _ []).
Qed.

(** X15.  Whatever the states and the answers of the model, a turn of any
    handler sends at most one reply and calls the model at most three
    times. *)
Theorem a_turn_sends_one_reply_and_asks_the_model_thrice_at_most
    (env : Env) (input : Input) (w : World) :
  (calls (dispatch env input w).2 ≤ 3)%nat ∧ (replies (dispatch env input w).2 ≤ 1)%nat.
Proof.
  assert (H : ∀ user_id handler n m, emits handler n m → (n ≤ 3)%nat → (m ≤ 1)%nat →
              (calls (run user_id handler w).2 ≤ 3)%nat ∧
              (replies (run user_id handler w).2 ≤ 1)%nat).
  { intros user_id handler n m Hem Hn Hm.
    destruct (run_events user_id handler w) as (t & -> & Ht).
    destruct (Hem t) as (new & -> & Hc & Hr). rewrite Ht. simpl. lia. }
  destruct input; cbn [dispatch].
  - apply (H _ _ _ _ start_emits); lia.
  - apply (H _ _ _ _ update_course_command_emits); lia.
  - apply (H _ _ _ _ (handle_message_emits env update)); lia.
  - apply (H _ _ _ _ (language_callback_emits data)); lia.
Qed.

(** ** The moderation of messages *)

(** X16.  In every state, a message that is not the reset keyword and that
    the moderation check of [handle_message] rejects leaves the session
    and the database as they were; the turn calls the model once, for
    the check, and replies with the warning. *)
Theorem a_rejected_message_changes_nothing
    (env : Env) (st : State) (d : Database.Db) (update : Update) (m : string) :
  text update = Some m →
  Py.truthy m = true →
  is_menu (Some m) && can_return_to_menu st = false →
  (Moderator.detect_inappropriate_content (llm env 0%nat) m).1 = false →
  handle_message env update (mkTurn st d [])
  = (tt, mkTurn st d
           [Invoke (LLM.Moderate m);
            Reply (Moderator.detect_inappropriate_content (llm env 0%nat) m).2]).
Proof.
  intros Htext Hm Hmenu Hrej. unfold handle_message. step_handler.
  rewrite Htext, Hmenu, Hm. step_handler.
  change (calls []) with 0%nat. by rewrite Hrej.
Qed.

(** ** What a turn does to the database *)

Lemma appends_refl d : appends_an_update_at_most d d.
Proof. split; [done|]. split; [done|]. by left. Qed.

Lemma save_update_db env messages t :
  appends_an_update_at_most (db t) (db (save_update env messages t).2).
Proof.
  unfold save_update. run_handler; try apply appends_refl.
  match goal with H : Database.insert_update _ _ _ _ _ _ _ _ = Some _ |- _ =>
    apply insert_update_spec in H as (row & Hfind & Ec & Ed & Eu) end.
  split; [done|]. split; [done|]. right. eexists. split; [done|].
  simpl. apply find_course_Some in Hfind as [Hin _]. by apply list_elem_of_fmap_2.
Qed.

Lemma handle_update_flow_db env update t :
  appends_an_update_at_most (db t) (db (handle_update_flow env update t).2).
Proof.
  unfold handle_update_flow. run_handler; try apply appends_refl.
  match goal with
  | |- appends_an_update_at_most _ (db (save_update ?env ?m ?T).2) =>
      apply (save_update_db env m T)
  end.
Qed.

Lemma after_course_selection_db env update messages t :
  db (after_course_selection env update messages t).2 = db t.
Proof. unfold after_course_selection. by run_handler. Qed.

Lemma handle_message_db env update t :
  appends_an_update_at_most (db t) (db (handle_message env update t).2).
Proof.
  unfold handle_message. run_handler; try apply appends_refl.
  all: match goal with
       | |- appends_an_update_at_most _ (db (handle_update_flow ?env ?u ?T).2) =>
           apply (handle_update_flow_db env u T)
       | |- appends_an_update_at_most _ (db (after_course_selection ?env ?u ?m ?T).2) =>
           rewrite (after_course_selection_db env u m T); apply appends_refl
       end.
Qed.

Lemma run_db user_id handler w :
  ∃ t, database (run user_id handler w).1 = db (handler t).2 ∧ db t = database w.
Proof.
  unfold run. destruct (get_user_state _ _) as [us st]. by eexists (mkTurn st _ []).
Qed.

(** X17.  No turn changes the courses or the documents of the database; a
    turn leaves the updates as they were or adds one update, for a
    course of the table. *)
Theorem a_turn_adds_one_update_at_most (env : Env) (input : Input) (w : World) :
  appends_an_update_at_most (database w) (database (dispatch env input w).1).
Proof.
  destruct input; cbn [dispatch];
    match goal with |- context [run ?u ?h w] =>
      destruct (run_db u h w) as (t & -> & <-) end.
  - unfold start. run_handler; apply appends_refl.
  - unfold update_course_command. run_handler; apply appends_refl.
  - apply handle_message_db.
  - unfold language_callback. run_handler; apply appends_refl.
Qed.

(** ** The last step of the update flow *)

Lemma insert_update_found d now c content cat ciclo modulo sec row :
  Database.find_course d c = Some row →
  Database.insert_update d now c content cat ciclo modulo sec
  = Some (Database.mkDb (Database.courses d)
            (Database.updates d ++
             [Database.mkUpdateRow (Database.course_id row) content cat (Some ciclo)
                (Some modulo) (Some sec) now])
            (Database.documents d)).
Proof.
  unfold Database.find_course, Database.insert_update.
  destruct (filter _ (Database.courses d)) as [|row' rest]; [done|]. by intros [= ->].
Qed.

Lemma insert_update_missing d now c content cat ciclo modulo sec :
  Database.find_course d c = None →
  Database.insert_update d now c content cat ciclo modulo sec = None.
Proof.
  unfold Database.find_course, Database.insert_update.
  by destruct (filter _ (Database.courses d)) as [|row' rest].
Qed.

(** X18.  At the step [modulo_selection] of the update flow, with every
    field filled in and a course of the database, an accepted message for
    which the model names a module stores the update with that module,
    the time of the turn and the id of the course, resets the session,
    and sends the summary; [get_course_info], asked with the cycle, the
    module and the section, then returns the update. *)
Theorem the_last_step_stores_the_update
    (env : Env) (st : State) (d : Database.Db) (update : Update)
    (m c sec content cat ciclo : string) (row : Database.CourseRow) :
  awaiting_module st c sec content cat ciclo →
  accepted env st update m →
  let modulo := LLMService.identify_module (llm env 1%nat) (Some m) in
  modulo ≠ "NO_MATCH" →
  Py.truthy modulo = true →
  Database.find_course d c = Some row →
  let d' := Database.mkDb (Database.courses d)
              (Database.updates d ++
               [Database.mkUpdateRow (Database.course_id row) content cat (Some ciclo)
                  (Some modulo) (Some sec) (now env)])
              (Database.documents d) in
  (∃ summary,
     handle_message env update (mkTurn st d [])
     = (tt, mkTurn (reset_state st) d'
              [Invoke (LLM.Moderate m); Invoke (LLM.IdentifyModule (Some m));
               Reply summary])) ∧
  ∃ info,
    Database.get_course_info d' c (Some ciclo) (Some modulo) (Some sec) = Some info ∧
    Database.mkUpdate content cat (Some ciclo) (Some modulo) (Some sec) (now env)
      ∈ Database.info_updates info.
Proof.
  intros Hst Hacc modulo Hmatch Hmod Hrow d'.
  destruct Hst as (Hup & Hstep & Hc & Hct & Hs & Hsect & Hco & Hcot & Hca & Hcat & Hci & Hcit).
  pose proof Hacc as (Htext & Hm & Hmenu & Happ).
  split.
  - eexists. unfold handle_message. step_handler.
    rewrite Htext, Hmenu, Hm. cbn [andb]. step_handler.
    change (calls []) with 0%nat. rewrite Happ, Hup. cbn [negb].
    unfold handle_update_flow. step_handler. rewrite Hup, Htext, Hmenu, Hstep. cbn [negb].
    repeat (case_decide; [done|]). rewrite decide_True by done.
    step_handler. change (calls ([] ++ [Invoke (LLM.Moderate m)])) with 1%nat. fold modulo.
    apply String.eqb_neq in Hmatch. rewrite Hmatch. cbn [negb].
    unfold save_update. step_handler.
    unfold missing_fields, required_fields. cbn [state update_course section update_ciclo
      update_modulo update_content update_category set_update_modulo].
    rewrite Hc, Hs, Hci, Hco, Hca. rewrite !filter_cons, filter_nil. cbn [snd Py.truthy_opt].
    rewrite Hct, Hsect, Hcit, Hmod, Hcot, Hcat.
    repeat (rewrite decide_False by done). step_handler. cbn [fmap list_fmap].
    cbn [Messages.str]. rewrite (insert_update_found _ _ _ _ _ _ _ _ _ Hrow).
    step_handler. reflexivity.
  - assert (Hfind : Database.find_course d' c = Some row) by done.
    assert (Hsome : is_Some (Database.get_course_info d' c (Some ciclo) (Some modulo) (Some sec))).
    { apply get_course_info_find. by rewrite Hfind. }
    destruct Hsome as [info Hinfo]. exists info. split; [done|].
    destruct (get_course_info_elem _ _ _ _ _ _ _ Hfind Hinfo) as [Helem _].
    apply Helem. eexists. split; [apply elem_of_app; right; left|].
    simpl. split; [done|]. by repeat split; try (apply passes_same; by right).
Qed.

(** X19.  At the same step, when no course of the database has the name
    kept in the session, nothing is stored: the database is as it was,
    the session keeps its fields and the module just identified, and
    the reply is the error message of the update. *)
Theorem the_last_step_fails_for_an_unknown_course
    (env : Env) (st : State) (d : Database.Db) (update : Update)
    (m c sec content cat ciclo : string) :
  awaiting_module st c sec content cat ciclo →
  accepted env st update m →
  let modulo := LLMService.identify_module (llm env 1%nat) (Some m) in
  modulo ≠ "NO_MATCH" →
  Py.truthy modulo = true →
  c ∉ available_courses d →
  handle_message env update (mkTurn st d [])
  = (tt, mkTurn (set_update_modulo (Some modulo) st) d
           [Invoke (LLM.Moderate m); Invoke (LLM.IdentifyModule (Some m));
            Reply (Messages.format
                     (Messages.getitem (Messages.get_translated_messages (language st))
                        "update_error")
                     ["'NoneType' object is not subscriptable"])]).
Proof.
  intros Hst Hacc modulo Hmatch Hmod Hno.
  destruct Hst as (Hup & Hstep & Hc & Hct & Hs & Hsect & Hco & Hcot & Hca & Hcat & Hci & Hcit).
  pose proof Hacc as (Htext & Hm & Hmenu & Happ).
  assert (Hrow : Database.find_course d c = None).
  { apply find_course_None. by rewrite <- available_courses_names. }
  unfold handle_message. step_handler.
  rewrite Htext, Hmenu, Hm. cbn [andb]. step_handler.
  change (calls []) with 0%nat. rewrite Happ, Hup. cbn [negb].
  unfold handle_update_flow. step_handler. rewrite Hup, Htext, Hmenu, Hstep. cbn [negb].
  repeat (case_decide; [done|]). rewrite decide_True by done.
  step_handler. change (calls ([] ++ [Invoke (LLM.Moderate m)])) with 1%nat. fold modulo.
  apply String.eqb_neq in Hmatch. rewrite Hmatch. cbn [negb].
  unfold save_update. step_handler.
  unfold missing_fields, required_fields. cbn [state update_course section update_ciclo
    update_modulo update_content update_category set_update_modulo].
  rewrite Hc, Hs, Hci, Hco, Hca. rewrite !filter_cons, filter_nil. cbn [snd Py.truthy_opt].
  rewrite Hct, Hsect, Hcit, Hmod, Hcot, Hcat.
  repeat (rewrite decide_False by done). step_handler. cbn [fmap list_fmap].
  cbn [Messages.str]. rewrite (insert_update_missing _ _ _ _ _ _ _ _ Hrow).
  step_handler. reflexivity.
Qed.

(** ** The selection of the course *)

Lemma prefix_append_l needle : ∀ hay suf,
  String.prefix needle hay = true → String.prefix needle (hay +:+ suf) = true.
Proof.
  induction needle as [|c n IH]; intros hay suf; [by destruct (hay +:+ suf)|].
  destruct hay as [|x h]; [done|]. rewrite append_cons. cbn [String.prefix].
  destruct (ascii_dec c x); [apply IH|done].
Qed.

Lemma contains_append_l hay suf needle :
  Py.contains hay needle = true → Py.contains (hay +:+ suf) needle = true.
Proof.
  induction hay as [|c h IH].
  - cbn [Py.contains]. rewrite orb_false_r. intros H.
    apply contains_here. by apply (prefix_append_l needle "" suf).
  - rewrite append_cons. cbn [Py.contains].
    intros [H|H]%orb_true_iff.
    + apply orb_true_iff. left. by apply (prefix_append_l needle (String c h) suf).
    + apply orb_true_iff. right. by apply IH.
Qed.

Lemma contains_join_elem sep l x name :
  x ∈ l → Py.contains x name = true → Py.contains (Py.join sep l) name = true.
Proof.
  unfold Py.join. induction l as [|y l IH]; [by intros ?%not_elem_of_nil|].
  intros [->|Hin]%elem_of_cons Hx.
  - destruct l as [|z l]; cbn [String.concat]; [done|]. by apply contains_append_l.
  - destruct l as [|z l]; [by apply not_elem_of_nil in Hin|].
    cbn [String.concat]. do 2 apply contains_append_r. by apply IH.
Qed.

(** X20.  While a session waits for a course, an accepted message never
    changes the database.  Any answer of the model other than [NO_MATCH]
    becomes the course of the session, which then waits for the section;
    on [NO_MATCH] the session stays as it was and the reply shows the
    text of the user and every course of the database. *)
Theorem the_course_is_what_the_model_answers
    (env : Env) (st : State) (d : Database.Db) (update : Update) (m : string) :
  awaiting_course st →
  accepted env st update m →
  let answer := LLMService.identify_course (llm env 1%nat) (Some m) (available_courses d) in
  let t := (handle_message env update (mkTurn st d [])).2 in
  db t = d ∧
  (answer ≠ "NO_MATCH" →
     state t = set_waiting_for_section (Some true)
                 (set_waiting_for_course false (set_course (Some answer) st))) ∧
  (answer = "NO_MATCH" →
     state t = st ∧
     ∃ reply,
       events t = [Invoke (LLM.Moderate m);
                   Invoke (LLM.IdentifyCourse (Some m) (available_courses d));
                   Reply reply] ∧
       Py.contains reply m = true ∧
       ∀ name, name ∈ available_courses d → Py.contains reply name = true).
Proof.
  intros (Hup & Hlang & Hwait) (Htext & Hm & Hmenu & Happ) answer t.
  assert (Ht : t = (if negb (String.eqb answer "NO_MATCH")
                    then mkTurn (set_waiting_for_section (Some true)
                                   (set_waiting_for_course false (set_course (Some answer) st)))
                           d [Invoke (LLM.Moderate m);
                              Invoke (LLM.IdentifyCourse (Some m) (available_courses d));
                              Reply (Messages.format
                                       (Messages.getitem
                                          (Messages.get_translated_messages (language st))
                                          "course_selected") [answer] +:+ nl +:+ nl +:+
                                     Messages.getitem
                                       (Messages.get_translated_messages (language st))
                                       "section_selection")]
                    else mkTurn st d
                           [Invoke (LLM.Moderate m);
                            Invoke (LLM.IdentifyCourse (Some m) (available_courses d));
                            Reply ("❌ No pude encontrar el curso '" +:+ m +:+ "'." +:+ nl
                                   +:+ nl +:+ "Cursos disponibles:" +:+ nl +:+
                                   Py.join nl ((λ course, "- " +:+ course)
                                               <$> available_courses d)
                                   +:+ nl +:+ nl +:+
                                   "Por favor, intenta escribir el nombre exacto de uno de estos cursos.")])).
  { unfold t, handle_message. step_handler.
    rewrite Htext, Hmenu, Hm. cbn [andb]. step_handler.
    change (calls []) with 0%nat. rewrite Happ, Hup, Hlang, Hwait. cbn [negb andb].
    step_handler. change (calls ([] ++ [Invoke (LLM.Moderate m)])) with 1%nat.
    fold answer. by destruct (String.eqb answer "NO_MATCH"). }
  rewrite Ht. destruct (String.eqb_spec answer "NO_MATCH") as [Heq|Hne]; cbn [negb].
  - split; [done|]. split; [done|]. intros _. split; [done|].
    eexists. split; [done|]. split.
    + apply contains_middle.
    + intros name Hname. do 7 apply contains_append_r. apply contains_append_l.
      apply (contains_join_elem _ _ ("- " +:+ name)).
      * by apply (list_elem_of_fmap_2 (λ course, "- " +:+ course)).
      * apply contains_append_r, contains_self.
  - split; [done|]. split; [done|]. done.
Qed.

(** ** The choice of the language *)

(** X21.  While a session waits for a language, the words 1, es, español and
    spanish choose Spanish and the words 2, qu, quechua and qichwa choose
    Quechua, written exactly so; the session then waits for a course.
    Any other accepted message leaves the session as it was and is
    answered with the request for a valid language. *)
Theorem the_language_is_chosen_by_exact_words
    (env : Env) (st : State) (d : Database.Db) (update : Update) (m : string) :
  Py.truthy_flag (updating_course st) = false →
  waiting_for_language st = true →
  accepted env st update m →
  let t := (handle_message env update (mkTurn st d [])).2 in
  db t = d ∧
  (m ∈ ["1"; "es"; "español"; "spanish"] →
     state t = set_waiting_for_course true
                 (set_waiting_for_language false (set_language (Some "es") st))) ∧
  (m ∈ ["2"; "qu"; "quechua"; "qichwa"] →
     state t = set_waiting_for_course true
                 (set_waiting_for_language false (set_language (Some "qu") st))) ∧
  (m ∉ ["1"; "es"; "español"; "spanish"; "2"; "qu"; "quechua"; "qichwa"] →
     state t = st ∧
     events t = [Invoke (LLM.Moderate m);
                 Reply "Por favor, selecciona un idioma válido (1/2)"]).
Proof.
  intros Hup Hlang (Htext & Hm & Hmenu & Happ) t.
  unfold t, handle_message. step_handler.
  rewrite Htext, Hmenu, Hm. cbn [andb]. step_handler.
  change (calls []) with 0%nat. rewrite Happ, Hup, Hlang. cbn [negb].
  destruct (decide (Some m ∈ Some <$> ["1"; "es"; "español"; "spanish"])) as [H1|H1];
    [|destruct (decide (Some m ∈ Some <$> ["2"; "qu"; "quechua"; "qichwa"])) as [H2|H2]].
  - step_handler. split; [done|]. split; [done|].
    apply list_elem_of_fmap in H1 as (x & [= <-] & H1). split.
    + intros H2. exfalso. set_unfold. destruct_or!; simplify_eq.
    + intros H3. exfalso. apply H3. set_unfold. tauto.
  - step_handler. split; [done|].
    apply list_elem_of_fmap in H2 as (x & [= <-] & H2). split; [|split; [done|]].
    + intros H3. exfalso. apply H1. by apply (list_elem_of_fmap_2 Some).
    + intros H3. exfalso. apply H3. set_unfold. tauto.
  - step_handler. split; [done|]. split; [|split; [|done]].
    + intros H3. exfalso. apply H1. by apply (list_elem_of_fmap_2 Some).
    + intros H3. exfalso. apply H2. by apply (list_elem_of_fmap_2 Some).
Qed.

(** ** What the sessions and the database hold *)















(** ** The bounds of [search] *)

Section SearchBounds.

Context {vec : Type} (B : Backend vec).

Lemma collect_length self row results rs :
  collect B self row results = Some rs →
  (length rs ≤ length results + length row)%nat.
Proof.
  revert results rs. induction row as [|[dist idx] row IH]; intros results rs; simpl.
  - intros [= <-]. lia.
  - case_match.
    + repeat case_match; try done. intros Hc%IH. rewrite length_app in Hc. simpl in Hc. lia.
    + intros Hc%IH. lia.
Qed.

Lemma collect_raises self row results e :
  e ∈ row →
  (e.2 < Z.of_nat (length (texts self)))%Z →
  getitem (metadata self) e.2 = None →
  collect B self row results = None.
Proof.
  revert results. induction row as [|[dist idx] row IH]; intros results;
    [by intros ?%not_elem_of_nil|].
  intros [->|Hin]%elem_of_cons Hlt Hnone; simpl.
  - simpl in Hlt, Hnone. apply Z.ltb_lt in Hlt. rewrite Hlt, Hnone. by case_match.
  - repeat case_match; try done; by apply IH.
Qed.

(** X24.  [search] returns at most [k] results and at most as many as there
    are texts; it returns none when the index was never filled, when no
    text is stored, when [k] is not positive, and when the query cannot
    be encoded. *)
Theorem search_returns_at_most_k_results (self : Index vec) (query : string) (k : Z) :
  (length (search B self query k) ≤ Z.to_nat k)%nat ∧
  (length (search B self query k) ≤ length (texts self))%nat ∧
  (index self = None ∨ texts self = [] ∨ (k ≤ 0)%Z ∨ encode B [query] = None →
   search B self query k = []).
Proof.
  unfold search. split; [|split].
  - repeat case_match; simpl; try lia.
    destruct (collect B self _ []) as [rs|] eqn:Hc; simpl; [|lia].
    apply collect_length in Hc. rewrite faiss_search_length in Hc. simpl in Hc. lia.
  - repeat case_match; simpl; try lia.
    destruct (collect B self _ []) as [rs|] eqn:Hc; simpl; [|lia].
    apply collect_length in Hc. rewrite faiss_search_length in Hc. simpl in Hc. lia.
  - intros [Hi | [Ht | [Hk | He]]].
    + rewrite Hi. by case_match.
    + rewrite Ht. by repeat case_match.
    + repeat case_match; try done.
      match goal with H : (_ <=? 0)%Z = false |- _ => apply Z.leb_gt in H end. lia.
    + by rewrite He.
Qed.

(** X25.  When fewer metadata than texts are stored, a search that reaches
    every text returns nothing at all: the missing metadata raise, and
    [search] answers every exception with the empty list. *)
Theorem search_answers_nothing_when_metadata_are_missing
    (self : Index vec) (vectors : list vec) (query : string) (k : Z) :
  index self = Some vectors →
  length vectors = length (texts self) →
  (length (metadata self) < length (texts self))%nat →
  (Z.of_nat (length (texts self)) ≤ k)%Z →
  search B self query k = [].
Proof.
  intros Hi Hv Hm Hk. unfold search. rewrite Hi.
  destruct (encode B [query]) as [[|q qs]|]; try done; [by repeat case_match|].
  destruct (Nat.eqb_spec (length (texts self)) 0) as [H0|H0]; [done|].
  rewrite Z.min_r by lia.
  destruct (Z.leb_spec (Z.of_nat (length (texts self))) 0); [done|].
  rewrite Nat2Z.id.
  assert (Hrow : ∃ e, e ∈ faiss_search B vectors q (length (texts self)) ∧
                      e.2 = Z.of_nat (length (metadata self))).
  { destruct (lookup_lt_is_Some_2 vectors (length (metadata self))) as [v Hlook]; [lia|].
    exists (l2sqr B q v, Z.of_nat (length (metadata self))). split; [|done].
    rewrite faiss_search_full by lia.
    rewrite take_ge by (rewrite nearest_first_length; unfold entries; rewrite length_imap; lia).
    apply nearest_first_elem. unfold entries.
    apply elem_of_lookup_imap. eauto. }
  destruct Hrow as (e & He & Hidx).
  rewrite (collect_raises self _ [] e He); [done| |].
  - rewrite Hidx. lia.
  - rewrite Hidx, getitem_nat. by apply lookup_ge_None_2.
Qed.

End SearchBounds.

(** ** [process_query] *)

(** X26.  [process_query] adds exactly one message of the assistant to the
    history, in every case, and calls the model at most once; when the
    course, the cycle, the module or the section is missing, it leaves
    the index alone and does not call the model. *)
Theorem process_query_adds_one_answer
    {vec : Type} (llm : LLM.Request → option string) (storage : Storage)
    (backend : Backend vec) (d : Database.Db) (index : Index vec) (st : State) :
  let result := process_query llm storage backend d index st in
  (∃ answer, result.1.1 = append_message answer st) ∧
  (length result.2 ≤ 1)%nat ∧
  (Py.truthy_opt (course st) = false ∨ Py.truthy_opt (ciclo st) = false ∨
   Py.truthy_opt (modulo st) = false ∨ Py.truthy_opt (section st) = false →
   result.1.2 = index ∧ result.2 = []).
Proof.
  intros result. unfold result, process_query. split; [|split].
  - repeat case_match; simpl; eauto.
  - repeat case_match; simpl; lia.
  - intros H. repeat case_match; simpl; try done.
    all: rewrite ?orb_false_iff in *; rewrite ?negb_false_iff in *;
      destruct_and?; destruct_or?; congruence.
Qed.


(** ** The paths of the documents in S3 *)

Lemma replace_spaces_no_space s :
  " "%char ∉ String.list_ascii_of_string (S3.replace_spaces s).
Proof.
  induction s as [|c r IH]; simpl; [apply not_elem_of_nil|].
  intros [Heq|Hin]%elem_of_cons; [|done].
  destruct (Ascii.eqb_spec c " ") as [->|Hne]; [done|congruence].
Qed.

Lemma lower_ascii_space c : Py.lower_ascii c = " "%char → c = " "%char.
Proof. destruct c as [[] [] [] [] [] [] [] []]; vm_compute; congruence. Qed.

Lemma lower_latin1_space c : Py.lower_latin1 c = " "%char → c = " "%char.
Proof. destruct c as [[] [] [] [] [] [] [] []]; vm_compute; congruence. Qed.

Lemma lower_no_space_aux (n : nat) : ∀ s, (String.length s ≤ n)%nat →
  " "%char ∉ String.list_ascii_of_string s →
  " "%char ∉ String.list_ascii_of_string (Py.lower s).
Proof.
  induction n as [|n IH]; intros s Hlen.
  { destruct s; [done|simpl in Hlen; lia]. }
  destruct s as [|c [|d r]]; simpl in *.
  - done.
  - case_match; simpl; [done|].
    intros Hno [Heq|Hin]%elem_of_cons; [|by apply not_elem_of_nil in Hin].
    symmetry in Heq. apply lower_ascii_space in Heq as ->. apply Hno. left.
  - intros Hno. case_match.
    + intros [Heq|[Heq|Hin]%elem_of_cons]%elem_of_cons.
      * subst c. apply Hno. left.
      * symmetry in Heq. apply lower_latin1_space in Heq as ->. apply Hno. right. left.
      * revert Hin. apply IH; [lia|]. intros Hin. apply Hno. right. by right.
    + intros [Heq|Hin]%elem_of_cons.
      * symmetry in Heq. apply lower_ascii_space in Heq as ->. apply Hno. left.
      * revert Hin. apply (IH (String d r)); [simpl; lia|]. intros Hin. apply Hno. by right.
Qed.

Lemma lower_no_space s :
  " "%char ∉ String.list_ascii_of_string s →
  " "%char ∉ String.list_ascii_of_string (Py.lower s).
Proof. by apply (lower_no_space_aux (String.length s)). Qed.

Lemma sanitize_no_space client s :
  " "%char ∉ String.list_ascii_of_string (S3.sanitize client s).
Proof. apply lower_no_space, replace_spaces_no_space. Qed.

(** X28.  When [upload_to_s3] returns an address, the cycle is valid, the
    module is one of A, a, B, b, the file exists, exactly one upload was
    requested, under the key course/cycle/MODULE/section/file name, the
    address names this key in the bucket, and the course and the section
    of the key hold no space. *)
Theorem upload_to_s3_uploads_under_a_checked_path
    (client : S3.Client) (file_path course ciclo modulo section url : string) :
  (S3.upload_to_s3 client file_path course ciclo modulo section).1 = Some url →
  let key := S3.s3_path (S3.sanitize client course) ciclo (Py.upper modulo)
               (S3.sanitize client section) (S3.basename file_path) in
  Validators.validate_ciclo ciclo = true ∧
  modulo ∈ ["A"; "a"; "B"; "b"] ∧
  S3.path_exists client file_path = true ∧
  url = "s3://" +:+ Messages.str (S3.S3_BUCKET client) +:+ "/" +:+ key ∧
  (S3.upload_to_s3 client file_path course ciclo modulo section).2
  = [S3.Upload file_path key] ∧
  (" "%char ∉ String.list_ascii_of_string (S3.sanitize client course)) ∧
  (" "%char ∉ String.list_ascii_of_string (S3.sanitize client section)).
Proof.
  intros H key. unfold S3.upload_to_s3 in *. fold key in H. fold key.
  repeat case_match; simpl in *; simplify_eq.
  rewrite ?negb_false_iff in *.
  split; [done|]. split; [by apply upper_is_A_or_B|]. split; [done|].
  split; [done|]. split; [done|]. split; apply sanitize_no_space.
Qed.

(** X29.  With a cycle that is not valid or a module other than A, a, B, b,
    [upload_to_s3] raises and [list_s3_documents] returns the empty
    list, and neither calls S3. *)
Theorem s3_is_not_asked_about_an_invalid_path
    (client : S3.Client) (file_path course ciclo modulo section : string) :
  Validators.validate_ciclo ciclo = false ∨ modulo ∉ ["A"; "a"; "B"; "b"] →
  S3.upload_to_s3 client file_path course ciclo modulo section = (None, []) ∧
  S3.list_s3_documents client course ciclo modulo section = ([], []).
Proof.
  intros H.
  assert (Hbad : Validators.validate_ciclo ciclo = false ∨
                 Py.in_list (Py.upper modulo) ["A"; "B"] = false).
  { destruct H as [?|H]; [by left|]. right.
    destruct (Py.in_list _ _) eqn:E; [|done]. by apply upper_is_A_or_B in E. }
  unfold S3.upload_to_s3, S3.list_s3_documents. split.
  - destruct Hbad as [-> | ->]; repeat case_match; done.
  - destruct Hbad as [-> | ->]; repeat case_match; done.
Qed.

(** ** The history of a session *)

(** X23.  In every world that the handlers can reach, the history of every
    session is empty and the reset keyword is enabled: no handler writes
    to the history, so [get_user_state] never has to cut it. *)
Theorem the_handlers_never_record_messages (w : World) (user_id : string) :
  reachable w →
  messages (session w user_id) = [] ∧ can_return_to_menu (session w user_id) = true.
Proof.
  intros Hw. destruct (session_reachable_inv w user_id Hw) as (Hcan & Hmsg & _). done.
Qed.

Lemma the_handlers_never_record_messages_witness :
  let w := (dispatch quiet_env (UpdateCommand "u1") (mkWorld ∅ empty_db)).1 in
  reachable w ∧ messages (session w "u1") = [].
Proof.
  intros w.
  assert (Hw : reachable w) by (apply reachable_step, reachable_init).
  split; [exact Hw|]. exact (proj1 (the_handlers_never_record_messages w "u1" Hw)).
Defined.

(** ** Concrete instances of the properties of the database *)

Lemma get_course_info_lists_the_newest_update_first_witness :
  ∃ info,
    Database.get_course_info sample_db "Algoritmos" None None None = Some info ∧
    StronglySorted newest_first (Database.info_updates info) ∧
    Database.last_update info = Some "2024-03-05 09:00:00".
Proof.
  eexists. split; [vm_compute; reflexivity|]. split; [|reflexivity].
  exact (proj1 (get_course_info_lists_the_newest_update_first
                  sample_db "Algoritmos" None None None _ eq_refl)).
Defined.

Lemma get_course_info_returns_what_passes_the_filters_witness :
  let row := Database.mkCourseRow 1 "Algoritmos" (Some "G1") in
  ∃ info,
    Database.find_course sample_db "Algoritmos" = Some row ∧
    Database.get_course_info sample_db "Algoritmos" (Some "20241") (Some "A") None
    = Some info ∧
    (length (Database.info_updates info) ≤ length (Database.updates sample_db))%nat.
Proof.
  intros row. eexists. split; [reflexivity|]. split; [vm_compute; reflexivity|].
  exact (proj1 (proj2 (proj2 (get_course_info_returns_what_passes_the_filters
                                sample_db "Algoritmos" (Some "20241") (Some "A") None
                                row _ eq_refl eq_refl)))).
Defined.

Lemma get_courses_reports_updates_under_the_section_of_the_course_witness :
  let info := Database.course_entry sample_db
                (Database.mkCourseRow 1 "Algoritmos" (Some "G1")) in
  ("Algoritmos", info) ∈ Database.get_courses sample_db ∧
  ∀ u, u ∈ Database.info_updates info → Database.section u = Some "G1".
Proof.
  intros info.
  assert (Hin : ("Algoritmos", info) ∈ Database.get_courses sample_db).
  { vm_compute. left. }
  split; [exact Hin|].
  destruct (get_courses_reports_updates_under_the_section_of_the_course
              sample_db "Algoritmos" info Hin) as (row & _ & _ & Hsec & Hall & _).
  intros u Hu. rewrite (Hall u Hu). by rewrite <- Hsec.
Defined.

Lemma writes_keep_the_keys_of_the_database_witness :
  let writes :=
    [WriteUpdate "2024-03-01 10:00:00" "Algoritmos" "G1" "Examen" "EVALUACIÓN" "20241" "A";
     WriteDocument "2024-03-02 10:00:00" "Fisica" "G2" "s3://cursos/f.pdf" "Guia" "CLASE"
       "20241" "B";
     WriteFlow "2024-03-03 10:00:00" "Algoritmos" "Tarea 1" "TAREA" "20241" "A" "G1"] in
  well_formed empty_db ∧ well_formed (foldl apply_write empty_db writes).
Proof.
  intros writes.
  assert (H0 : well_formed empty_db).
  { split; [constructor|]. split; [constructor|].
    split; by intros r ?%not_elem_of_nil. }
  split; [exact H0|]. exact (writes_keep_the_keys_of_the_database empty_db writes H0).
Defined.

Lemma add_update_is_found_by_get_course_info_witness :
  let result := Database.add_update sample_db "2024-03-06 11:00:00" "Quimica" "G1"
                  "Laboratorio el martes" "CLASE" "20241" "A" in
  (Some "20241" = None ∨ Some "20241" = Some "20241") ∧
  ((None : option string) = None ∨ None = Some "A") ∧
  (Some "G1" = None ∨ Some "G1" = Some "G1") ∧
  "Quimica" ∈ available_courses result.1.
Proof.
  intros result.
  split; [by right|]. split; [by left|]. split; [by right|].
  exact (proj1 (proj2 (add_update_is_found_by_get_course_info sample_db
                         "2024-03-06 11:00:00" "Quimica" "G1" "Laboratorio el martes"
                         "CLASE" "20241" "A" (Some "20241") None (Some "G1")
                         (or_intror eq_refl) (or_introl eq_refl) (or_intror eq_refl)))).
Defined.

Lemma add_document_is_hidden_by_a_section_filter_witness :
  let d' := (Database.add_document sample_db "2024-03-06 11:00:00" "Algoritmos" "G1"
               "s3://cursos/guia.pdf" "Guia" "CLASE" "20241" "A").1 in
  let doc := Database.mkDocument "Guia" "s3://cursos/guia.pdf" "CLASE" (Some "20241")
               (Some "A") None "2024-03-06 11:00:00" in
  ∃ info,
    Py.truthy "G1" = true ∧
    Database.get_course_info d' "Algoritmos" (Some "20241") (Some "A") (Some "G1") = Some info ∧
    doc ∉ Database.info_documents info.
Proof.
  intros d' doc. eexists. split; [reflexivity|]. split; [vm_compute; reflexivity|].
  exact (proj2 (add_document_is_hidden_by_a_section_filter sample_db "2024-03-06 11:00:00"
                  "Algoritmos" "G1" "s3://cursos/guia.pdf" "Guia" "CLASE" "20241" "A")
           (Some "20241") (Some "A") "G1" _ eq_refl eq_refl).
Defined.

Lemma get_document_content_reads_the_added_document_witness :
  let read := λ path, "contenido de " +:+ path in
  let d' := (Database.add_document sample_db "2024-03-06 11:00:00" "Algoritmos" "G1"
               "s3://cursos/guia.pdf" "Guia" "CLASE" "20241" "A").1 in
  (∀ r, r ∈ Database.documents sample_db → Database.document_title r ≠ "Guia") ∧
  Database.get_document_content read d' "Algoritmos" "Guia"
  = Some (read "s3://cursos/guia.pdf").
Proof.
  intros read d'.
  assert (Hfresh : ∀ r, r ∈ Database.documents sample_db →
                        Database.document_title r ≠ "Guia").
  { intros r [->|?%not_elem_of_nil]%elem_of_cons; done. }
  split; [exact Hfresh|].
  exact (proj1 (get_document_content_reads_the_added_document read sample_db
                  "2024-03-06 11:00:00" "Algoritmos" "G1" "s3://cursos/guia.pdf" "Guia"
                  "CLASE" "20241" "A" Hfresh)).
Defined.

(** ** Concrete turns *)

Lemma a_rejected_message_changes_nothing_witness :
  let update := mkUpdate "u1" (Some "hola") false in
  text update = Some "hola" ∧
  Py.truthy "hola" = true ∧
  is_menu (Some "hola") && can_return_to_menu at_course_step = false ∧
  (Moderator.detect_inappropriate_content (llm strict_env 0%nat) "hola").1 = false ∧
  state (handle_message strict_env update (mkTurn at_course_step one_course_db [])).2
  = at_course_step.
Proof.
  intros update.
  split; [reflexivity|]. split; [reflexivity|]. split; [reflexivity|].
  split; [reflexivity|].
  exact (f_equal (λ out, state out.2)
           (a_rejected_message_changes_nothing strict_env at_course_step one_course_db
              update "hola" eq_refl eq_refl eq_refl eq_refl)).
Defined.

Lemma the_last_step_stores_the_update_witness :
  let update := mkUpdate "u1" (Some "modulo a") false in
  let st := at_module_step "Algoritmos" in
  let row := Database.mkCourseRow 1 "Algoritmos" (Some "G1") in
  awaiting_module st "Algoritmos" "G1" "Tarea 3 publicada" "TAREA" "20241" ∧
  accepted helpful_env st update "modulo a" ∧
  LLMService.identify_module (llm helpful_env 1%nat) (Some "modulo a") = "A" ∧
  Database.find_course one_course_db "Algoritmos" = Some row ∧
  ∃ info,
    Database.get_course_info
      (Database.mkDb (Database.courses one_course_db)
         (Database.updates one_course_db ++
          [Database.mkUpdateRow 1 "Tarea 3 publicada" "TAREA" (Some "20241") (Some "A")
             (Some "G1") "2024-03-06 11:00:00"])
         (Database.documents one_course_db))
      "Algoritmos" (Some "20241") (Some "A") (Some "G1") = Some info ∧
    Database.mkUpdate "Tarea 3 publicada" "TAREA" (Some "20241") (Some "A") (Some "G1")
      "2024-03-06 11:00:00" ∈ Database.info_updates info.
Proof.
  intros update st row.
  assert (Hst : awaiting_module st "Algoritmos" "G1" "Tarea 3 publicada" "TAREA" "20241")
    by (by repeat split).
  assert (Hacc : accepted helpful_env st update "modulo a") by (by repeat split).
  assert (Hne : LLMService.identify_module (llm helpful_env 1%nat) (Some "modulo a")
                ≠ "NO_MATCH") by (by vm_compute).
  split; [exact Hst|]. split; [exact Hacc|]. split; [reflexivity|]. split; [reflexivity|].
  exact (proj2 (the_last_step_stores_the_update helpful_env st one_course_db update
                  "modulo a" "Algoritmos" "G1" "Tarea 3 publicada" "TAREA" "20241" row
                  Hst Hacc Hne eq_refl eq_refl)).
Defined.

Lemma the_last_step_fails_for_an_unknown_course_witness :
  let update := mkUpdate "u1" (Some "modulo a") false in
  let st := at_module_step "Quimica" in
  awaiting_module st "Quimica" "G1" "Tarea 3 publicada" "TAREA" "20241" ∧
  accepted helpful_env st update "modulo a" ∧
  ("Quimica" ∉ available_courses one_course_db) ∧
  db (handle_message helpful_env update (mkTurn st one_course_db [])).2 = one_course_db.
Proof.
  intros update st.
  assert (Hst : awaiting_module st "Quimica" "G1" "Tarea 3 publicada" "TAREA" "20241")
    by (by repeat split).
  assert (Hacc : accepted helpful_env st update "modulo a") by (by repeat split).
  assert (Hne : LLMService.identify_module (llm helpful_env 1%nat) (Some "modulo a")
                ≠ "NO_MATCH") by (by vm_compute).
  assert (Hno : "Quimica" ∉ available_courses one_course_db).
  { vm_compute. intros [?|?%not_elem_of_nil]%elem_of_cons; done. }
  split; [exact Hst|]. split; [exact Hacc|]. split; [exact Hno|].
  exact (f_equal (λ out, db out.2)
           (the_last_step_fails_for_an_unknown_course helpful_env st one_course_db update
              "modulo a" "Quimica" "G1" "Tarea 3 publicada" "TAREA" "20241"
              Hst Hacc Hne eq_refl Hno)).
Defined.

Lemma the_course_is_what_the_model_answers_witness :
  let update := mkUpdate "u1" (Some "algo") false in
  awaiting_course at_course_step ∧
  accepted helpful_env at_course_step update "algo" ∧
  state (handle_message helpful_env update (mkTurn at_course_step one_course_db [])).2
  = at_course_step.
Proof.
  intros update.
  assert (Hst : awaiting_course at_course_step) by (by repeat split).
  assert (Hacc : accepted helpful_env at_course_step update "algo") by (by repeat split).
  split; [exact Hst|]. split; [exact Hacc|].
  exact (proj1 (proj2 (proj2 (the_course_is_what_the_model_answers helpful_env at_course_step
                                one_course_db update "algo" Hst Hacc)) eq_refl)).
Defined.

Lemma the_language_is_chosen_by_exact_words_witness :
  let update := mkUpdate "u1" (Some "es") false in
  Py.truthy_flag (updating_course create_initial_state) = false ∧
  waiting_for_language create_initial_state = true ∧
  accepted quiet_env create_initial_state update "es" ∧
  state (handle_message quiet_env update (mkTurn create_initial_state empty_db [])).2
  = set_waiting_for_course true
      (set_waiting_for_language false (set_language (Some "es") create_initial_state)).
Proof.
  intros update.
  assert (Hacc : accepted quiet_env create_initial_state update "es") by (by repeat split).
  assert (Hin : "es" ∈ ["1"; "es"; "español"; "spanish"]) by (right; left).
  split; [reflexivity|]. split; [reflexivity|]. split; [exact Hacc|].
  exact (proj1 (proj2 (the_language_is_chosen_by_exact_words quiet_env create_initial_state
                         empty_db update "es" eq_refl eq_refl Hacc)) Hin).
Defined.


(** ** Concrete indexes and paths *)

Lemma search_answers_nothing_when_metadata_are_missing_witness :
  let B := toy_backend Float.binary32 in
  let vectors := [3 # 2 ^ 30; 5 # 2 ^ 30]%Q in
  let self := mkIndex (Some vectors) ["uno"; "dos y"] [[]] in
  index self = Some vectors ∧
  length vectors = length (texts self) ∧
  (length (metadata self) < length (texts self))%nat ∧
  (Z.of_nat (length (texts self)) ≤ 5)%Z ∧
  search B self "abcd" 5 = [].
Proof.
  intros B vectors self.
  assert (Hm : (length (metadata self) < length (texts self))%nat) by (simpl; lia).
  assert (Hk : (Z.of_nat (length (texts self)) ≤ 5)%Z) by (simpl; lia).
  split; [reflexivity|]. split; [reflexivity|]. split; [exact Hm|]. split; [exact Hk|].
  exact (search_answers_nothing_when_metadata_are_missing B self vectors "abcd" 5
           eq_refl eq_refl Hm Hk).
Defined.


Lemma upload_to_s3_uploads_under_a_checked_path_witness :
  let url := "s3://cursos/algoritmos_avanzados/20241/A/g_1/Silabo 1.pdf" in
  (S3.upload_to_s3 sample_client "/tmp/Silabo 1.pdf" "Algoritmos Avanzados" "20241" "a"
     "G 1").1 = Some url ∧
  (S3.upload_to_s3 sample_client "/tmp/Silabo 1.pdf" "Algoritmos Avanzados" "20241" "a"
     "G 1").2
  = [S3.Upload "/tmp/Silabo 1.pdf" "algoritmos_avanzados/20241/A/g_1/Silabo 1.pdf"].
Proof.
  intros url. split; [reflexivity|].
  exact (proj1 (proj2 (proj2 (proj2 (proj2
           (upload_to_s3_uploads_under_a_checked_path sample_client "/tmp/Silabo 1.pdf"
              "Algoritmos Avanzados" "20241" "a" "G 1" url eq_refl)))))).
Defined.

Lemma s3_is_not_asked_about_an_invalid_path_witness :
  (Validators.validate_ciclo "2024" = false ∨ "A" ∉ ["A"; "a"; "B"; "b"]) ∧
  S3.upload_to_s3 sample_client "/tmp/silabo.pdf" "Algoritmos" "2024" "A" "G1" = (None, []) ∧
  S3.list_s3_documents sample_client "Algoritmos" "2024" "A" "G1" = ([], []).
Proof.
  split; [by left|].
  exact (s3_is_not_asked_about_an_invalid_path sample_client "/tmp/silabo.pdf" "Algoritmos"
           "2024" "A" "G1" (or_introl eq_refl)).
Defined.
